(** * Agent orchestration engine: a shallow embedding and its properties

    The development follows the TypeScript sources of the engine:
  token accounting ([src/utils/text.ts], [TokenUsage]), the approval
  policy engine, the loop detector, the context manager, the LLM client
  (tool-call assembly and retry), the tool registry's invocation pipeline
  and the sub-agent tool; then text truncation, the messages as they are
  sent to the provider, discovered tools, the shell tool's block list and
  compaction.

  Conventions of the embedding
  - JS strings are [string] (sequences of 8-bit characters); [s.length]
    is [String.length].
  - JS numbers that hold counts, indices and timestamps are [Z].
  - [T | null | undefined] is [option T]; truthiness is written out.
  - a function that may throw returns [exc A].
  - objects mutated in place inside an array are updated by index. *)

From Stdlib Require Import ZArith String Ascii List Bool Lia.
From stdpp Require Import base option list strings gmap.
Import ListNotations.

Local Open Scope string_scope.

(** ** JavaScript truthiness of the values used below *)

Definition truthy_string (s : string) : bool :=
  match s with
  | EmptyString => false
  | String _ _ => true
  end.

Definition truthy_opt_string (o : option string) : bool :=
  match o with
  | Some s => truthy_string s
  | None => false
  end.

(** [a || b] on possibly absent strings with a string default. *)
Definition or_string (o : option string) (d : string) : string :=
  match o with
  | Some s => if truthy_string s then s else d
  | None => d
  end.

Definition is_some {A} (o : option A) : bool :=
  match o with
  | Some _ => true
  | None => false
  end.

(** Exceptions: [Threw e] is a JS [throw], [Ok a] a normal return. *)
Inductive exc (A : Type) : Type :=
| Ok (a : A)
| Threw (e : string).
Arguments Ok {A} a.
Arguments Threw {A} e.

(** Decimal rendering of a number inside a template literal. *)
Fixpoint digits_of_uint (d : Decimal.uint) : string :=
  match d with
  | Decimal.Nil => ""
  | Decimal.D0 d => String "0" (digits_of_uint d)
  | Decimal.D1 d => String "1" (digits_of_uint d)
  | Decimal.D2 d => String "2" (digits_of_uint d)
  | Decimal.D3 d => String "3" (digits_of_uint d)
  | Decimal.D4 d => String "4" (digits_of_uint d)
  | Decimal.D5 d => String "5" (digits_of_uint d)
  | Decimal.D6 d => String "6" (digits_of_uint d)
  | Decimal.D7 d => String "7" (digits_of_uint d)
  | Decimal.D8 d => String "8" (digits_of_uint d)
  | Decimal.D9 d => String "9" (digits_of_uint d)
  end.

Definition string_of_nat (n : nat) : string :=
  match n with
  | O => "0"
  | _ => digits_of_uint (Nat.to_uint n)
  end.

(** ** src/utils/text.ts *)
Module Text.

(** [estimateTokens]: [Math.max(1, Math.floor(text.length / 4))]. *)
Definition estimateTokens (text : string) : Z :=
  Z.max 1 (Z.of_nat (String.length text) / 4).

(** [countTokens(text, _model)] ignores the model. *)
Definition countTokens (text : string) (_model : string) : Z :=
  estimateTokens text.


End Text.

(** ** [TokenUsage] (src/client/llm_client.ts) *)
Module Usage.
Local Open Scope Z_scope.

Record TokenUsage : Type := mkTokenUsage {
  promptTokens : Z;
  completionTokens : Z;
  totalTokens : Z;
  cachedTokens : Z
}.

(** [new TokenUsage()]: every field defaults to 0. *)
Definition zero : TokenUsage := mkTokenUsage 0 0 0 0.

(** [this.add(other)]. *)
Definition add (this other : TokenUsage) : TokenUsage :=
  mkTokenUsage
    (promptTokens this + promptTokens other)
    (completionTokens this + completionTokens other)
    (totalTokens this + totalTokens other)
    (cachedTokens this + cachedTokens other).

(** Component-wise order. *)
Definition le (a b : TokenUsage) : Prop :=
  promptTokens a <= promptTokens b /\
  completionTokens a <= completionTokens b /\
  totalTokens a <= totalTokens b /\
  cachedTokens a <= cachedTokens b.

(** A usage report holds token counts: no component is negative. *)
Definition counts (u : TokenUsage) : Prop :=
  0 <= promptTokens u /\ 0 <= completionTokens u /\
  0 <= totalTokens u /\ 0 <= cachedTokens u.


End Usage.

(** ** Regular expressions of the approval rules

    The rules of [safety/approval] are JS regular-expression literals. They
    use literals, character classes, [\s], [.], grouping, alternation,
    [?], [*], [+], [$], and [^] only as the first item of a pattern. [re] is
    that fragment; [matches] is a backtracking matcher in continuation
    style, total because a starred body must consume input to iterate. *)
Module Regex.

Inductive re : Type :=
| Eps
| Eos                                   (* [$] *)
| Cls (p : ascii -> bool)               (* one character of a class *)
| Seq (r1 r2 : re)
| Alt (r1 r2 : re)
| Star (r : re).

Definition Chr (c : ascii) : re := Cls (Ascii.eqb c).
Definition Plus (r : re) : re := Seq r (Star r).
Definition Opt (r : re) : re := Alt r Eps.

Fixpoint Lit (s : string) : re :=
  match s with
  | EmptyString => Eps
  | String c EmptyString => Chr c
  | String c s' => Seq (Chr c) (Lit s')
  end.

Fixpoint AltL (rs : list re) (last : re) : re :=
  match rs with
  | [] => last
  | r :: rs' => Alt r (AltL rs' last)
  end.

(** [\s] on 8-bit characters: TAB, LF, VT, FF, CR, space and NBSP. *)
Definition is_space (c : ascii) : bool :=
  let n := nat_of_ascii c in
  (((9 <=? n) && (n <=? 13)) || (n =? 32) || (n =? 160))%nat.

(** [.] excludes the line terminators LF and CR. *)
Definition is_dot (c : ascii) : bool :=
  let n := nat_of_ascii c in
  negb ((n =? 10) || (n =? 13))%nat.

Definition one_of (cs : string) (c : ascii) : bool :=
  existsb (Ascii.eqb c) (list_ascii_of_string cs).

Definition ws : re := Cls is_space.
Definition any : re := Cls is_dot.

Fixpoint matches (r : re) (s : string) (k : string -> bool) : bool :=
  match r with
  | Eps => k s
  | Eos => match s with EmptyString => k s | String _ _ => false end
  | Cls p =>
      match s with
      | EmptyString => false
      | String c s' => if p c then k s' else false
      end
  | Seq r1 r2 => matches r1 s (fun s' => matches r2 s' k)
  | Alt r1 r2 => matches r1 s k || matches r2 s k
  | Star r0 =>
      (fix iter (fuel : nat) (s0 : string) {struct fuel} : bool :=
         k s0 ||
         match fuel with
         | O => false
         | S fuel' =>
             matches r0 s0 (fun s' =>
               if (String.length s' <? String.length s0)%nat
               then iter fuel' s' else false)
         end) (String.length s) s
  end.

(** A pattern: [anchored] records a leading [^]. *)
Record pattern : Type := mkPattern { anchored : bool; body : re }.

Definition rx (r : re) : pattern := mkPattern false r.
Definition rx_start (r : re) : pattern := mkPattern true r.

Fixpoint search (r : re) (s : string) : bool :=
  matches r s (fun _ => true) ||
  match s with
  | EmptyString => false
  | String _ s' => search r s'
  end.

(** [pattern.test(s)] for a pattern without flags. *)
Definition test (p : pattern) (s : string) : bool :=
  if anchored p then matches (body p) s (fun _ => true) else search (body p) s.

End Regex.

(** ** JSON values and a reference [JSON.parse]

    Tool arguments are JSON objects. [json] is the value type; numbers keep
    their literal text. [JSON_parse] is a recursive-descent reader for JSON
    texts over 8-bit characters ([\u] escapes up to [00FF]); [None] stands
    for the [SyntaxError] that [JSON.parse] throws. The client functions
    below take the parser as a parameter, so their properties hold for any
    implementation of [JSON.parse]; this one instantiates them. *)
Module Json.

#[warnings="-register-all"]
Inductive json : Type :=
| JNull
| JBool (b : bool)
| JNum (literal : string)
| JStr (s : string)
| JArr (items : list json)
| JObj (fields : list (string * json)).

Definition is_json_ws (c : ascii) : bool :=
  let n := nat_of_ascii c in ((n =? 32) || (n =? 9) || (n =? 10) || (n =? 13))%nat.

Fixpoint skip_ws (s : string) : string :=
  match s with
  | String c s' => if is_json_ws c then skip_ws s' else s
  | EmptyString => s
  end.

Definition is_digit (c : ascii) : bool :=
  let n := nat_of_ascii c in ((48 <=? n) && (n <=? 57))%nat.

Definition hex_val (c : ascii) : option nat :=
  let n := nat_of_ascii c in
  if ((48 <=? n) && (n <=? 57))%nat then Some (n - 48)%nat
  else if ((65 <=? n) && (n <=? 70))%nat then Some (n - 55)%nat
  else if ((97 <=? n) && (n <=? 102))%nat then Some (n - 87)%nat
  else None.

Definition snoc (s : string) (c : ascii) : string := s ++ String c "".

(** The double-quote character. *)
Definition dquote : ascii := ascii_of_nat 34.

(** What a backslash escape other than [\u] denotes. *)
Definition simple_escape (e : ascii) : option ascii :=
  if Ascii.eqb e dquote then Some dquote
  else if Ascii.eqb e "\" then Some "\"%char
  else if Ascii.eqb e "/" then Some "/"%char
  else if Ascii.eqb e "b" then Some (ascii_of_nat 8)
  else if Ascii.eqb e "f" then Some (ascii_of_nat 12)
  else if Ascii.eqb e "n" then Some (ascii_of_nat 10)
  else if Ascii.eqb e "r" then Some (ascii_of_nat 13)
  else if Ascii.eqb e "t" then Some (ascii_of_nat 9)
  else None.

(** The characters after an opening quote, up to the closing one. *)
Fixpoint read_string (s : string) (acc : string) : option (string * string) :=
  match s with
  | EmptyString => None
  | String c s' =>
      if Ascii.eqb c dquote then Some (acc, s')
      else if Ascii.eqb c "\" then
        match s' with
        | String e s'' =>
            if Ascii.eqb e "u" then
              match s'' with
              | String h1 (String h2 (String h3 (String h4 s3))) =>
                  match hex_val h1, hex_val h2, hex_val h3, hex_val h4 with
                  | Some 0%nat, Some 0%nat, Some a, Some b =>
                      read_string s3 (snoc acc (ascii_of_nat (16 * a + b)))
                  | _, _, _, _ => None
                  end
              | _ => None
              end
            else
              match simple_escape e with
              | Some c0 => read_string s'' (snoc acc c0)
              | None => None
              end
        | EmptyString => None
        end
      else if (nat_of_ascii c <? 32)%nat then None
      else read_string s' (snoc acc c)
  end.

Fixpoint read_digits (s : string) (acc : string) : string * string :=
  match s with
  | String c s' => if is_digit c then read_digits s' (snoc acc c) else (acc, s)
  | EmptyString => (acc, s)
  end.

(** [-? int frac? exp?] with no leading zeros in [int]. *)
Definition read_number (s : string) : option (string * string) :=
  let '(sign, s1) :=
    match s with
    | String "-" s' => ("-", s')
    | _ => ("", s)
    end in
  let '(int, s2) := read_digits s1 "" in
  if negb (truthy_string int) then None
  else if String.prefix "0" int && negb (String.eqb int "0") then None
  else
    let after_frac :=
      match s2 with
      | String "." s' =>
          let '(fr, s3) := read_digits s' "" in
          if truthy_string fr then Some ("." ++ fr, s3) else None
      | _ => Some ("", s2)
      end in
    match after_frac with
    | None => None
    | Some (fr, s3) =>
        let exp_digits (mark : string) (s' : string) :=
          let '(ex, s4) := read_digits s' "" in
          if truthy_string ex then Some (sign ++ int ++ fr ++ mark ++ ex, s4)
          else None in
        match s3 with
        | String e s' =>
            if Ascii.eqb e "e" || Ascii.eqb e "E" then
              match s' with
              | String "+" s'' => exp_digits (String e "+") s''
              | String "-" s'' => exp_digits (String e "-") s''
              | _ => exp_digits (String e "") s'
              end
            else Some (sign ++ int ++ fr, s3)
        | EmptyString => Some (sign ++ int ++ fr, s3)
        end
    end.

Definition expect (word : string) (v : json) (s : string) : option (json * string) :=
  if String.prefix word s
  then Some (v, String.substring (String.length word)
                  (String.length s - String.length word) s)
  else None.

Fixpoint read_value (fuel : nat) (s : string) : option (json * string) :=
  match fuel with
  | O => None
  | S fuel' =>
      match skip_ws s with
      | EmptyString => None
      | String c s' as w =>
          if Ascii.eqb c "{" then
            match skip_ws s' with
            | String "}" s'' => Some (JObj [], s'')
            | _ => match read_members fuel' s' with
                   | Some (fs, rest) => Some (JObj fs, rest)
                   | None => None
                   end
            end
          else if Ascii.eqb c "[" then
            match skip_ws s' with
            | String "]" s'' => Some (JArr [], s'')
            | _ => match read_elements fuel' s' with
                   | Some (vs, rest) => Some (JArr vs, rest)
                   | None => None
                   end
            end
          else if Ascii.eqb c dquote then
            match read_string s' "" with
            | Some (str, rest) => Some (JStr str, rest)
            | None => None
            end
          else if Ascii.eqb c "t" then expect "true" (JBool true) w
          else if Ascii.eqb c "f" then expect "false" (JBool false) w
          else if Ascii.eqb c "n" then expect "null" JNull w
          else
            match read_number w with
            | Some (lit, rest) => Some (JNum lit, rest)
            | None => None
            end
      end
  end
with read_elements (fuel : nat) (s : string) : option (list json * string) :=
  match fuel with
  | O => None
  | S fuel' =>
      match read_value fuel' s with
      | Some (v, rest) =>
          match skip_ws rest with
          | String "," rest' =>
              match read_elements fuel' rest' with
              | Some (vs, rest'') => Some (v :: vs, rest'')
              | None => None
              end
          | String "]" rest' => Some ([v], rest')
          | _ => None
          end
      | None => None
      end
  end
with read_members (fuel : nat) (s : string) : option (list (string * json) * string) :=
  match fuel with
  | O => None
  | S fuel' =>
      match skip_ws s with
      | EmptyString => None
      | String c s' =>
          if negb (Ascii.eqb c dquote) then None
          else
            match read_string s' "" with
            | Some (key, rest) =>
                match skip_ws rest with
                | String ":" rest' =>
                    match read_value fuel' rest' with
                    | Some (v, rest'') =>
                        match skip_ws rest'' with
                        | String "," r3 =>
                            match read_members fuel' r3 with
                            | Some (fs, r4) => Some ((key, v) :: fs, r4)
                            | None => None
                            end
                        | String "}" r3 => Some ([(key, v)], r3)
                        | _ => None
                        end
                    | None => None
                    end
                | _ => None
                end
            | None => None
            end
      end
  end.

(** [JSON.parse(text)]: one value, surrounded by optional white space. *)
Definition JSON_parse (text : string) : option json :=
  match read_value (S (String.length text)) text with
  | Some (v, rest) =>
      match skip_ws rest with
      | EmptyString => Some v
      | String _ _ => None
      end
  | None => None
  end.

End Json.

(** ** [path.relative] of the platform (POSIX flavour)

    [checkApproval] calls Node's [path.relative(from, to)]. Both paths are
    resolved against the process working directory [pcwd], normalised
    (empty and [.] segments dropped, [..] cancelling the segment before
    it), and the result climbs with [..] from [from] to the longest common
    ancestor and then descends to [to]. *)
Module Paths.

Fixpoint segments_from (s : string) (cur : string) : list string :=
  match s with
  | EmptyString => [cur]
  | String c s' =>
      if Ascii.eqb c "/" then cur :: segments_from s' ""
      else segments_from s' (cur ++ String c "")
  end.

Definition segments (s : string) : list string := segments_from s "".

Definition normalize_step (acc : list string) (seg : string) : list string :=
  if String.eqb seg "" || String.eqb seg "." then acc
  else if String.eqb seg ".." then removelast acc
  else acc ++ [seg].

Definition normalize (segs : list string) : list string :=
  fold_left normalize_step segs [].

Definition isAbsolute (p : string) : bool := String.prefix "/" p.

(** [path.resolve(p)], as the list of segments below the root. *)
Definition resolve (pcwd p : string) : list string :=
  if isAbsolute p then normalize (segments p)
  else normalize (segments pcwd ++ segments p).

Fixpoint common_prefix_length (a b : list string) : nat :=
  match a, b with
  | x :: a', y :: b' => if String.eqb x y then S (common_prefix_length a' b') else O
  | _, _ => O
  end.

Fixpoint segments_eqb (a b : list string) : bool :=
  match a, b with
  | [], [] => true
  | x :: a', y :: b' => String.eqb x y && segments_eqb a' b'
  | _, _ => false
  end.

Definition relative (pcwd from to : string) : string :=
  if String.eqb from to then ""
  else
    let f := resolve pcwd from in
    let t := resolve pcwd to in
    if segments_eqb f t then ""
    else
      let c := common_prefix_length f t in
      String.concat "/" (repeat ".." (List.length f - c) ++ skipn c t).

(** [s.startsWith(p)]. *)
Definition startsWith (s p : string) : bool := String.prefix p s.

(** A resolved path as text. *)
Definition render (segs : list string) : string := "/" ++ String.concat "/" segs.

(** [resolvePath(base, path)] of src/utils/paths.ts:
    [resolve(path.startsWith("/") ? path : resolve(base, path))]. *)
Definition resolvePath (pcwd base path : string) : string :=
  let pathObj :=
    if startsWith path "/" then path
    else render (if isAbsolute base
                 then normalize (segments base ++ segments path)
                 else normalize (segments pcwd ++ segments base ++ segments path)) in
  render (resolve pcwd pathObj).

End Paths.

(** ** The tool contract (src/tools/base.ts) *)
Module Tools.
Import Json.

Inductive ToolKind : Type := READ | WRITE | SHELL | NETWORK | MEMORY | MCP.

Record FileDiff : Type := mkFileDiff {
  diff_path : string;
  oldContent : string;
  newContent : string;
  isNewFile : bool;
  isDeletion : bool
}.

Record ToolResult : Type := mkToolResult {
  success : bool;
  output : string;
  error : option string;
  metadata : list (string * json);
  truncated : bool;
  diff : option FileDiff;
  exitCode : option Z
}.

(** [ToolResult.errorResult(error, output = "", metadata = {})] *)
Definition errorResult (err out : string) (meta : list (string * json)) : ToolResult :=
  mkToolResult false out (Some err) meta false None None.

(** [ToolResult.successResult(output, metadata = {}, diff?)] *)
Definition successResult (out : string) (meta : list (string * json))
    (d : option FileDiff) : ToolResult :=
  mkToolResult true out None meta false d None.

Definition toModelOutput (r : ToolResult) : string :=
  if success r then output r
  else "Error: " ++ default "null" (error r) ++ String (ascii_of_nat 10)
         (String (ascii_of_nat 10) ("Output:" ++ String (ascii_of_nat 10) (output r))).

Record ToolInvocation : Type := mkToolInvocation {
  inv_params : json;
  inv_cwd : string
}.

Record ToolConfirmation : Type := mkToolConfirmation {
  conf_toolName : string;
  conf_params : json;
  description : string;
  conf_diff : option FileDiff;
  conf_affectedPaths : list string;
  conf_command : option string;
  conf_isDangerous : bool
}.

(** A tool, as the registry sees it. The methods read the world (files,
    processes) as it is during the call; a method that is awaited inside
    [invoke] may throw. *)
Record Tool : Type := mkTool {
  name : string;
  kind : ToolKind;
  validateParams : json -> list string;
  isMutating : json -> bool;
  getConfirmation : ToolInvocation -> exc (option ToolConfirmation);
  execute : ToolInvocation -> exc ToolResult
}.

(** [Tool.isMutating] of the base class. *)
Definition kindIsMutating (k : ToolKind) : bool :=
  match k with
  | WRITE | SHELL | NETWORK | MEMORY => true
  | READ | MCP => false
  end.

(** [Tool.getConfirmation] of the base class. *)
Definition baseGetConfirmation (toolName : string) (mutating : json -> bool)
    (inv : ToolInvocation) : exc (option ToolConfirmation) :=
  if negb (mutating (inv_params inv)) then Ok None
  else Ok (Some (mkToolConfirmation toolName (inv_params inv)
                   ("Execute " ++ toolName) None [] None false)).

End Tools.

(** ** The approval policy engine (safety/approval) *)
Module Approval.
Import Regex.

Inductive ApprovalPolicy : Type :=
| ON_REQUEST | ON_FAILURE | AUTO | AUTO_EDIT | NEVER | YOLO.

Inductive ApprovalDecision : Type :=
| APPROVED | REJECTED | NEEDS_CONFIRMATION.

Definition policy_eqb (a b : ApprovalPolicy) : bool :=
  match a, b with
  | ON_REQUEST, ON_REQUEST | ON_FAILURE, ON_FAILURE | AUTO, AUTO
  | AUTO_EDIT, AUTO_EDIT | NEVER, NEVER | YOLO, YOLO => true
  | _, _ => false
  end.

Definition decision_eqb (a b : ApprovalDecision) : bool :=
  match a, b with
  | APPROVED, APPROVED | REJECTED, REJECTED
  | NEEDS_CONFIRMATION, NEEDS_CONFIRMATION => true
  | _, _ => false
  end.

Record ApprovalContext : Type := mkApprovalContext {
  toolName : string;
  params : Json.json;
  isMutating : bool;
  affectedPaths : list string;
  command : option string;
  isDangerous : bool
}.

Definition rm_flags : re := Alt (Seq (Lit "-r") (Opt (Chr "f"))) (Lit "--recursive").
Definition root_or_home : re := Cls (one_of "/~").
Definition pipe_to_shell (tool : string) : re :=
  Seq (Lit tool) (Seq (Plus ws) (Seq (Star any) (Seq (Chr "|")
    (Seq (Star ws) (Alt (Lit "bash") (Lit "sh")))))).

Definition DANGEROUS_PATTERNS : list pattern := [
  (* /rm\s+(-rf?|--recursive)\s+[/~]/ *)
  rx (Seq (Lit "rm") (Seq (Plus ws) (Seq rm_flags (Seq (Plus ws) root_or_home))));
  (* /rm\s+-rf?\s+\*/ *)
  rx (Seq (Lit "rm") (Seq (Plus ws) (Seq (Lit "-r") (Seq (Opt (Chr "f"))
        (Seq (Plus ws) (Chr "*"))))));
  (* /rmdir\s+[/~]/ *)
  rx (Seq (Lit "rmdir") (Seq (Plus ws) root_or_home));
  (* /dd\s+if=/ *)
  rx (Seq (Lit "dd") (Seq (Plus ws) (Lit "if=")));
  rx (Lit "mkfs");
  rx (Lit "fdisk");
  rx (Lit "parted");
  rx (Lit "shutdown");
  rx (Lit "reboot");
  rx (Lit "halt");
  rx (Lit "poweroff");
  (* /init\s+[06]/ *)
  rx (Seq (Lit "init") (Seq (Plus ws) (Cls (one_of "06"))));
  (* /chmod\s+(-R\s+)?777\s+[/~]/ *)
  rx (Seq (Lit "chmod") (Seq (Plus ws) (Seq (Opt (Seq (Lit "-R") (Plus ws)))
        (Seq (Lit "777") (Seq (Plus ws) root_or_home)))));
  (* /chown\s+-R\s+.*\s+[/~]/ *)
  rx (Seq (Lit "chown") (Seq (Plus ws) (Seq (Lit "-R") (Seq (Plus ws)
        (Seq (Star any) (Seq (Plus ws) root_or_home))))));
  (* /nc\s+-l/ and /netcat\s+-l/ *)
  rx (Seq (Lit "nc") (Seq (Plus ws) (Lit "-l")));
  rx (Seq (Lit "netcat") (Seq (Plus ws) (Lit "-l")));
  (* /curl\s+.*\|\s*(bash|sh)/ and /wget\s+.*\|\s*(bash|sh)/ *)
  rx (pipe_to_shell "curl");
  rx (pipe_to_shell "wget");
  (* /:\(\)\s*\{\s*:\|:&\s*\}\s*;/ *)
  rx (Seq (Lit ":()") (Seq (Star ws) (Seq (Chr "{") (Seq (Star ws)
        (Seq (Lit ":|:&") (Seq (Star ws) (Seq (Chr "}") (Seq (Star ws) (Chr ";")))))))))
].

Definition space_or_end : re := Alt ws Eos.

(** [/^(w1|w2|...)(\s|$)/] *)
Definition verb (words : list string) (last : string) : pattern :=
  rx_start (Seq (AltL (map Lit words) (Lit last)) space_or_end).

(** [/^tool\s+(w1|w2|...)(\s|$)/] with [tool] itself an alternation. *)
Definition subcommand (tools : list string) (tool : string)
    (words : list string) (last : string) : pattern :=
  rx_start (Seq (AltL (map Lit tools) (Lit tool))
             (Seq (Plus ws) (Seq (AltL (map Lit words) (Lit last)) space_or_end))).

Definition SAFE_PATTERNS : list pattern := [
  verb ["ls"; "dir"; "pwd"; "cd"; "echo"; "cat"; "head"; "tail"; "less"; "more"] "wc";
  verb ["find"; "locate"; "which"; "whereis"; "file"] "stat";
  subcommand [] "git" ["status"; "log"; "diff"; "show"; "branch"; "remote"] "tag";
  subcommand ["npm"; "yarn"] "pnpm" ["list"; "ls"] "outdated";
  subcommand [] "pip" ["list"; "show"] "freeze";
  subcommand [] "cargo" ["tree"] "search";
  verb ["grep"; "awk"; "sed"; "cut"; "sort"; "uniq"; "tr"; "diff"] "comm";
  verb ["date"; "cal"; "uptime"; "whoami"; "id"; "groups"; "hostname"] "uname";
  (* /^(env|printenv|set)$/ *)
  rx_start (Seq (AltL [Lit "env"; Lit "printenv"] (Lit "set")) Eos);
  verb ["ps"; "top"; "htop"] "pgrep"
].

Definition isDangerousCommand (cmd : string) : bool :=
  existsb (fun p => test p cmd) DANGEROUS_PATTERNS.

Definition isSafeCommand (cmd : string) : bool :=
  existsb (fun p => test p cmd) SAFE_PATTERNS.

(** The manager: its policy and working directory; [pcwd] is the process
    working directory that [path.relative] resolves relative paths against. *)
Record ApprovalManager : Type := mkApprovalManager {
  approvalPolicy : ApprovalPolicy;
  cwd : string;
  pcwd : string;
  confirmationCallback : option (Tools.ToolConfirmation -> exc bool)
}.

Definition assessCommandSafety (mgr : ApprovalManager) (cmd : string) : ApprovalDecision :=
  if policy_eqb (approvalPolicy mgr) YOLO then APPROVED
  else if isDangerousCommand cmd then REJECTED
  else if policy_eqb (approvalPolicy mgr) NEVER then
    (if isSafeCommand cmd then APPROVED else REJECTED)
  else if policy_eqb (approvalPolicy mgr) AUTO
          || policy_eqb (approvalPolicy mgr) ON_FAILURE then APPROVED
  else if policy_eqb (approvalPolicy mgr) AUTO_EDIT then
    (if isSafeCommand cmd then APPROVED else NEEDS_CONFIRMATION)
  else if isSafeCommand cmd then APPROVED
  else NEEDS_CONFIRMATION.

(** Does the relative path from the manager's cwd begin with [..]? *)
Definition escapes (mgr : ApprovalManager) (path : string) : bool :=
  Paths.startsWith (Paths.relative (pcwd mgr) (cwd mgr) path) "..".

(** The loop over [affectedPaths]: [Some d] is a [return d] from inside
    the loop, [None] falls through to the statements after it. *)
Fixpoint checkPaths (mgr : ApprovalManager) (paths : list string) : option ApprovalDecision :=
  match paths with
  | [] => None
  | path :: rest =>
      if escapes mgr path then Some NEEDS_CONFIRMATION
      else checkPaths mgr rest
  end.

(** What the command block returns early, if anything. *)
Definition commandVerdict (mgr : ApprovalManager) (ctx : ApprovalContext) : option ApprovalDecision :=
  if truthy_opt_string (command ctx) then
    let decision := assessCommandSafety mgr (or_string (command ctx) "") in
    if negb (decision_eqb decision NEEDS_CONFIRMATION) then Some decision else None
  else None.

Definition checkApproval (mgr : ApprovalManager) (ctx : ApprovalContext) : ApprovalDecision :=
  if negb (isMutating ctx) then APPROVED
  else
    match commandVerdict mgr ctx with
    | Some decision => decision
    | None =>
        match checkPaths mgr (affectedPaths ctx) with
        | Some decision => decision
        | None =>
            if isDangerous ctx then
              (if policy_eqb (approvalPolicy mgr) YOLO then APPROVED
               else NEEDS_CONFIRMATION)
            else APPROVED
        end
    end.

(** Without a registered callback the operation is confirmed. *)
Definition requestConfirmation (mgr : ApprovalManager)
    (confirmation : Tools.ToolConfirmation) : exc bool :=
  match confirmationCallback mgr with
  | Some callback => callback confirmation
  | None => Ok true
  end.

End Approval.

(** ** The loop detector (src/context/loop_detector.ts) *)
Module LoopDetector.

Definition maxExactRepeats : nat := 3.
Definition maxCycleLength : nat := 3.
Definition maxHistorySize : nat := 20.

Record LoopDetector : Type := mkLoopDetector { history : list string }.

(** The [details] of an action. [args] holds the own keys of the argument
    object with each value already rendered by [String(...)]; [None] is an
    argument value that is not an object. *)
Record ActionDetails : Type := mkActionDetails {
  tool_name : option string;
  args : option (list (string * string));
  text : option string
}.

Fixpoint insert_sorted (k : string) (ks : list string) : list string :=
  match ks with
  | [] => [k]
  | k' :: rest => if String.leb k k' then k :: ks else k' :: insert_sorted k rest
  end.

(** [keys.sort()]: ascending by code units. *)
Definition sort_keys (ks : list string) : list string :=
  fold_right insert_sorted [] ks.

Definition lookup_arg (kvs : list (string * string)) (k : string) : string :=
  match find (fun kv => String.eqb (fst kv) k) kvs with
  | Some kv => snd kv
  | None => "undefined"
  end.

Definition signature (actionType : string) (details : ActionDetails) : string :=
  let output :=
    if String.eqb actionType "tool_call" then
      ([actionType; or_string (tool_name details) ""] ++
       match args details with
       | Some kvs => map (fun k => k ++ "=" ++ lookup_arg kvs k)%string
                       (sort_keys (map fst kvs))
       | None => []
       end)%list
    else if String.eqb actionType "response" then
      [actionType; or_string (text details) ""]
    else [actionType] in
  String.concat "|" output.

Definition recordAction (d : LoopDetector) (actionType : string)
    (details : ActionDetails) : LoopDetector :=
  let pushed := (history d ++ [signature actionType details])%list in
  if (maxHistorySize <? List.length pushed)%nat
  then mkLoopDetector (List.tl pushed)
  else mkLoopDetector pushed.

(** [l.slice(-n)]: the last [n] entries, or all of [l] when it is shorter. *)
Definition slice_last {A} (n : nat) (l : list A) : list A :=
  skipn (List.length l - n) l.

(** [new Set(l).size]. *)
Definition distinct_count (l : list string) : nat :=
  List.length (nodup String.string_dec l).

Definition repeated_message : string :=
  "Same action repeated " ++ string_of_nat maxExactRepeats ++ " times".

Definition cycle_message (cycleLen : nat) : string :=
  "Detected repeating cycle of length " ++ string_of_nat cycleLen.

(** The [for (cycleLen = 2; cycleLen <= min(...); cycleLen++)] loop;
    [fuel] bounds the iterations that remain. *)
Fixpoint cycleLoop (fuel cycleLen : nat) (h : list string) : option string :=
  match fuel with
  | O => None
  | S fuel' =>
      if (cycleLen <=? Nat.min maxCycleLength (List.length h / 2))%nat then
        let recent := slice_last (cycleLen * 2) h in
        let firstHalf := firstn cycleLen recent in
        let secondHalf := skipn cycleLen recent in
        if bool_decide (firstHalf = secondHalf)
        then Some (cycle_message cycleLen)
        else cycleLoop fuel' (S cycleLen) h
      else None
  end.

Definition checkForLoop (d : LoopDetector) : option string :=
  let h := history d in
  if (List.length h <? 2)%nat then None
  else if (maxExactRepeats <=? List.length h)%nat
          && (distinct_count (slice_last maxExactRepeats h) =? 1)%nat
  then Some repeated_message
  else if (maxCycleLength * 2 <=? List.length h)%nat
  then cycleLoop maxCycleLength 2 h
  else None.

Definition clear (_ : LoopDetector) : LoopDetector := mkLoopDetector [].

End LoopDetector.

(** ** The context manager (src/context/manager.ts) *)
Module Context.
Local Open Scope Z_scope.

Record MessageItem : Type := mkMessageItem {
  role : string;
  content : string;
  toolCallId : option string;
  toolCalls : list Json.json;
  tokenCount : option Z;
  prunedAt : option Z
}.

Definition PRUNE_PROTECT_TOKENS : Z := 40000.
Definition PRUNE_MINIMUM_TOKENS : Z := 20000.
Definition CLEARED : string := "[Old tool result content cleared]".

Record ContextManager : Type := mkContextManager {
  systemPrompt : string;
  modelName : string;
  messages : list MessageItem;
  latestUsage : Usage.TokenUsage;
  totalUsage : Usage.TokenUsage
}.

Definition with_messages (cm : ContextManager) (ms : list MessageItem) : ContextManager :=
  mkContextManager (systemPrompt cm) (modelName cm) ms (latestUsage cm) (totalUsage cm).

Definition messageCount (cm : ContextManager) : nat := List.length (messages cm).

Definition addUserMessage (cm : ContextManager) (text : string) : ContextManager :=
  with_messages cm (messages cm ++
    [mkMessageItem "user" text None [] (Some (Text.countTokens text (modelName cm))) None])%list.

Definition addAssistantMessage (cm : ContextManager) (text : option string)
    (calls : option (list Json.json)) : ContextManager :=
  let body := or_string text "" in
  with_messages cm (messages cm ++
    [mkMessageItem "assistant" body None (default [] calls)
       (Some (Text.countTokens body (modelName cm))) None])%list.

Definition addToolResult (cm : ContextManager) (callId text : string) : ContextManager :=
  with_messages cm (messages cm ++
    [mkMessageItem "tool" text (Some callId) []
       (Some (Text.countTokens text (modelName cm))) None])%list.

Definition setLatestUsage (cm : ContextManager) (u : Usage.TokenUsage) : ContextManager :=
  mkContextManager (systemPrompt cm) (modelName cm) (messages cm) u (totalUsage cm).

Definition addUsage (cm : ContextManager) (u : Usage.TokenUsage) : ContextManager :=
  mkContextManager (systemPrompt cm) (modelName cm) (messages cm) (latestUsage cm)
    (Usage.add (totalUsage cm) u).

(** [addUsage(u1); ...; addUsage(un)], in this order. *)
Definition addUsages (cm : ContextManager) (us : list Usage.TokenUsage) : ContextManager :=
  fold_left addUsage us cm.

Definition clear (cm : ContextManager) : ContextManager := with_messages cm [].

Definition is_user (msg : MessageItem) : bool := String.eqb (role msg) "user".

(** [msg.role === "tool" && msg.toolCallId] *)
Definition is_tool_result (msg : MessageItem) : bool :=
  String.eqb (role msg) "tool" && truthy_opt_string (toolCallId msg).

(** [msg.tokenCount || countTokens(msg.content, model)] *)
Definition message_tokens (model : string) (msg : MessageItem) : Z :=
  match tokenCount msg with
  | Some n => if n =? 0 then Text.countTokens (content msg) model else n
  | None => Text.countTokens (content msg) model
  end.

(** The locals of the scanning loop. [toPrune] holds the array positions of
    the collected messages: every slot of [messages] is an object of its
    own, so a position identifies the object that is mutated later. *)
Record PruneScan : Type := mkPruneScan {
  totalTokens : Z;
  prunedTokens : Z;
  toPrune : list nat
}.

(** [for (let i = n - 1; i >= 0; i--)], with [break] at a pruned message. *)
Fixpoint scanMessages (model : string) (ms : list MessageItem) (n : nat)
    (st : PruneScan) : PruneScan :=
  match n with
  | O => st
  | S i =>
      match ms !! i with
      | None => scanMessages model ms i st
      | Some msg =>
          if is_tool_result msg then
            if is_some (prunedAt msg) then st
            else
              let tokens := message_tokens model msg in
              let total := totalTokens st + tokens in
              if PRUNE_PROTECT_TOKENS <? total
              then scanMessages model ms i
                     (mkPruneScan total (prunedTokens st + tokens) (toPrune st ++ [i])%list)
              else scanMessages model ms i
                     (mkPruneScan total (prunedTokens st) (toPrune st))
          else scanMessages model ms i st
      end
  end.

(** The three assignments made to a pruned message. *)
Definition clearMessage (model : string) (now : Z) (msg : MessageItem) : MessageItem :=
  mkMessageItem (role msg) CLEARED (toolCallId msg) (toolCalls msg)
    (Some (Text.countTokens CLEARED model)) (Some now).

(** [for (const msg of toPrune)]: [count] is [prunedCount]; the [k]-th
    [new Date()] of the call reads [clock k]. *)
Fixpoint clearAll (model : string) (clock : nat -> Z) (count : nat)
    (positions : list nat) (ms : list MessageItem) : list MessageItem * nat :=
  match positions with
  | [] => (ms, count)
  | i :: rest =>
      clearAll model clock (S count) rest
        (alter (clearMessage model (clock count)) i ms)
  end.

Definition pruneToolOutputs (clock : nat -> Z) (cm : ContextManager) : ContextManager * nat :=
  let userMessageCount := List.length (filter (fun m => is_user m = true) (messages cm)) in
  if (userMessageCount <? 2)%nat then (cm, O)
  else
    let st := scanMessages (modelName cm) (messages cm) (List.length (messages cm))
                (mkPruneScan 0 0 []) in
    if prunedTokens st <? PRUNE_MINIMUM_TOKENS then (cm, O)
    else
      let '(ms, prunedCount) :=
        clearAll (modelName cm) clock O (toPrune st) (messages cm) in
      (with_messages cm ms, prunedCount).

(** *** Vocabulary for the properties of pruning

    Pruning is described position by position. Scanning from the end, the
    scan reaches position [i] when no tool message at [i] or after it was
    pruned before; the tokens accumulated at [i] are those of the tool
    messages at [i] and after it. *)

Definition is_pruned_tool (msg : MessageItem) : bool :=
  is_tool_result msg && is_some (prunedAt msg).

Definition tool_tokens (model : string) (msg : MessageItem) : Z :=
  if is_tool_result msg then message_tokens model msg else 0.

Definition reached (ms : list MessageItem) (i : nat) : bool :=
  negb (existsb is_pruned_tool (drop i ms)).

Definition accumulated (model : string) (ms : list MessageItem) (i : nat) : Z :=
  fold_right Z.add 0 (map (tool_tokens model) (drop i ms)).

(** A candidate: a tool message the scan reaches whose accumulated tokens
    exceed the protected tail. *)
Definition candidate (model : string) (ms : list MessageItem) (i : nat) : bool :=
  match ms !! i with
  | Some msg =>
      is_tool_result msg && reached ms i
      && (PRUNE_PROTECT_TOKENS <? accumulated model ms i)
  | None => false
  end.

Definition tokens_at (model : string) (ms : list MessageItem) (i : nat) : Z :=
  match ms !! i with
  | Some msg => message_tokens model msg
  | None => 0
  end.

(** The candidates below position [n], newest first, and their tokens. *)
Definition candidates_below (model : string) (ms : list MessageItem) (n : nat) : list nat :=
  List.filter (candidate model ms) (rev (seq 0 n)).

Definition candidates (model : string) (ms : list MessageItem) : list nat :=
  candidates_below model ms (List.length ms).

Definition sum_tokens (model : string) (ms : list MessageItem) (positions : list nat) : Z :=
  fold_right Z.add 0 (map (tokens_at model ms) positions).

Definition candidate_total (model : string) (ms : list MessageItem) : Z :=
  sum_tokens model ms (candidates model ms).

Definition userCount (ms : list MessageItem) : nat :=
  List.length (List.filter is_user ms).

End Context.

(** ** The LLM client (src/client/llm_client.ts) *)
Module Client.
Import Json.

Inductive StreamEventType : Type :=
| TEXT_DELTA | MESSAGE_COMPLETE | ERROR
| TOOL_CALL_START | TOOL_CALL_DELTA | TOOL_CALL_COMPLETE.

Definition type_eqb (a b : StreamEventType) : bool :=
  match a, b with
  | TEXT_DELTA, TEXT_DELTA | MESSAGE_COMPLETE, MESSAGE_COMPLETE | ERROR, ERROR
  | TOOL_CALL_START, TOOL_CALL_START | TOOL_CALL_DELTA, TOOL_CALL_DELTA
  | TOOL_CALL_COMPLETE, TOOL_CALL_COMPLETE => true
  | _, _ => false
  end.

Record ToolCallDelta : Type := mkToolCallDelta {
  delta_callId : string;
  delta_name : option string;
  argumentsDelta : string
}.

Record ToolCall : Type := mkToolCall {
  callId : string;
  call_name : option string;
  args : json
}.

Record StreamEvent : Type := mkStreamEvent {
  type : StreamEventType;
  textDelta : option string;
  error : option string;
  finishReason : option string;
  toolCallDelta : option ToolCallDelta;
  toolCall : option ToolCall;
  usage : option Usage.TokenUsage
}.

(** What the provider sends. [cached_tokens] is
    [prompt_tokens_details?.cached_tokens]. *)
Record ChunkUsage : Type := mkChunkUsage {
  prompt_tokens : Z;
  completion_tokens : Z;
  total_tokens : Z;
  cached_tokens : option Z
}.

Record ToolCallChunk : Type := mkToolCallChunk {
  index : Z;
  chunk_id : option string;
  function_name : option string;          (* [function?.name] *)
  function_arguments : option string      (* [function?.arguments] *)
}.

Record Choice : Type := mkChoice {
  finish_reason : option string;
  delta_content : option string;
  delta_tool_calls : option (list ToolCallChunk)
}.

Record Chunk : Type := mkChunk {
  chunk_usage : option ChunkUsage;
  choices : option (list Choice)
}.

Definition usage_of (u : ChunkUsage) : Usage.TokenUsage :=
  Usage.mkTokenUsage (prompt_tokens u) (completion_tokens u) (total_tokens u)
    (default 0%Z (cached_tokens u)).

(** An entry of the [toolCalls] map of [streamResponse]. *)
Record Assembled : Type := mkAssembled {
  asm_id : string;
  asm_name : string;
  asm_arguments : string
}.

(** The locals of [streamResponse]. The [Map] keeps its keys in insertion
    order, which is the order of the final loop: an association list. *)
Record StreamState : Type := mkStreamState {
  st_finishReason : option string;
  st_usage : option Usage.TokenUsage;
  st_toolCalls : list (Z * Assembled)
}.

Fixpoint map_get (idx : Z) (m : list (Z * Assembled)) : option Assembled :=
  match m with
  | [] => None
  | (k, v) :: rest => if Z.eqb k idx then Some v else map_get idx rest
  end.

(** Mutate the entry stored under [idx]. *)
Fixpoint map_update (idx : Z) (f : Assembled -> Assembled)
    (m : list (Z * Assembled)) : list (Z * Assembled) :=
  match m with
  | [] => []
  | (k, v) :: rest =>
      if Z.eqb k idx then (k, f v) :: rest else (k, v) :: map_update idx f rest
  end.

Definition event_text (text : string) : StreamEvent :=
  mkStreamEvent TEXT_DELTA (Some text) None None None None None.

Definition event_delta (ty : StreamEventType) (d : ToolCallDelta) : StreamEvent :=
  mkStreamEvent ty None None None (Some d) None None.

Definition event_complete (tc : ToolCall) : StreamEvent :=
  mkStreamEvent TOOL_CALL_COMPLETE None None None None (Some tc) None.

Definition event_error (msg : string) : StreamEvent :=
  mkStreamEvent ERROR None (Some msg) None None None None.

(** One [toolCallDelta] of a chunk: the new map and the events yielded. *)
Definition stepToolCall (m : list (Z * Assembled)) (d : ToolCallChunk)
    : list (Z * Assembled) * list StreamEvent :=
  let idx := index d in
  let '(m1, started) :=
    match map_get idx m with
    | Some _ => (m, [])
    | None =>
        let fresh := mkAssembled (or_string (chunk_id d) "") "" "" in
        let m0 := (m ++ [(idx, fresh)])%list in
        if truthy_opt_string (function_name d) then
          let nm := or_string (function_name d) "" in
          (map_update idx (fun a => mkAssembled (asm_id a) nm (asm_arguments a)) m0,
           [event_delta TOOL_CALL_START (mkToolCallDelta (asm_id fresh) (Some nm) "")])
        else (m0, [])
    end in
  if truthy_opt_string (function_arguments d) then
    let more := or_string (function_arguments d) "" in
    let m2 := map_update idx
                (fun a => mkAssembled (asm_id a) (asm_name a) (asm_arguments a ++ more)) m1 in
    let id := match map_get idx m2 with Some a => asm_id a | None => "" end in
    (m2, (started ++ [event_delta TOOL_CALL_DELTA
                        (mkToolCallDelta id (function_name d) more)])%list)
  else (m1, started).

Fixpoint stepToolCalls (m : list (Z * Assembled)) (ds : list ToolCallChunk)
    : list (Z * Assembled) * list StreamEvent :=
  match ds with
  | [] => (m, [])
  | d :: rest =>
      let '(m1, ev1) := stepToolCall m d in
      let '(m2, ev2) := stepToolCalls m1 rest in
      (m2, (ev1 ++ ev2)%list)
  end.

(** The body of [for await (const chunk of stream)]. *)
Definition stepChunk (st : StreamState) (chunk : Chunk) : StreamState * list StreamEvent :=
  let usage1 :=
    match chunk_usage chunk with
    | Some u => Some (usage_of u)
    | None => st_usage st
    end in
  match choices chunk with
  | None | Some [] => (mkStreamState (st_finishReason st) usage1 (st_toolCalls st), [])
  | Some (choice :: _) =>
      let finish1 :=
        if truthy_opt_string (finish_reason choice) then finish_reason choice
        else st_finishReason st in
      let texts :=
        if truthy_opt_string (delta_content choice)
        then [event_text (or_string (delta_content choice) "")] else [] in
      let '(m1, evs) :=
        match delta_tool_calls choice with
        | Some ds => stepToolCalls (st_toolCalls st) ds
        | None => (st_toolCalls st, [])
        end in
      (mkStreamState finish1 usage1 m1, (texts ++ evs)%list)
  end.

Fixpoint stepChunks (st : StreamState) (chunks : list Chunk) : StreamState * list StreamEvent :=
  match chunks with
  | [] => (st, [])
  | c :: rest =>
      let '(st1, ev1) := stepChunk st c in
      let '(st2, ev2) := stepChunks st1 rest in
      (st2, (ev1 ++ ev2)%list)
  end.

(** An error thrown by the provider's SDK; [rendered] is [String(error)]. *)
Record ApiError : Type := mkApiError {
  status : option Z;
  error_type : option string;
  message : option string;
  rendered : string
}.

(** A streamed reply: the chunks delivered, and the error that ends the
    stream when it does not end normally. *)
Record StreamReply : Type := mkStreamReply {
  chunks : list Chunk;
  broken : option ApiError
}.

(** The message of a reply that is not streamed. *)
Record WholeMessage : Type := mkWholeMessage {
  msg_content : option string;
  msg_tool_calls : option (list (string * string * option string));
  msg_finish_reason : option string;
  msg_usage : option ChunkUsage
}.

Section WithParser.

(** [JSON.parse], [None] being a thrown [SyntaxError]. *)
Variable parse : string -> option json.

Definition parseToolCallArguments (argumentsStr : string) : json :=
  if negb (truthy_string argumentsStr) then JObj []
  else
    match parse argumentsStr with
    | Some v => v
    | None => JObj [("raw_arguments", JStr argumentsStr)]
    end.

(** The [TOOL_CALL_COMPLETE] event of one assembled tool call. *)
Definition completeEvent (tc : Assembled) : StreamEvent :=
  event_complete
    (mkToolCall (asm_id tc) (Some (asm_name tc))
       (parseToolCallArguments (asm_arguments tc))).

Definition initialState : StreamState := mkStreamState None None [].

(** [streamResponse]: the events yielded, and the error thrown if any. *)
Definition streamResponse (reply : StreamReply) : list StreamEvent * option ApiError :=
  let '(st, evs) := stepChunks initialState (chunks reply) in
  match broken reply with
  | Some e => (evs, Some e)
  | None =>
      ((evs ++ map (fun kv => completeEvent (snd kv)) (st_toolCalls st) ++
        [mkStreamEvent MESSAGE_COMPLETE None None (st_finishReason st) None None
           (st_usage st)])%list, None)
  end.

Definition nonStreamResponse (m : WholeMessage) : StreamEvent :=
  let toolCalls :=
    match msg_tool_calls m with
    | Some tcs =>
        map (fun tc : string * string * option string =>
               let '(id, nm, a) := tc in
               mkToolCall id (Some nm) (parseToolCallArguments (or_string a "")))
            tcs
    | None => []
    end in
  mkStreamEvent MESSAGE_COMPLETE
    (if truthy_opt_string (msg_content m) then msg_content m else None)
    None
    (if truthy_opt_string (msg_finish_reason m) then msg_finish_reason m else None)
    None
    (List.head toolCalls)
    (option_map usage_of (msg_usage m)).

(** What one [create] call of the provider gives, by the [stream] flag. *)
Definition Reply (stream : bool) : Type :=
  if stream then StreamReply else (WholeMessage + ApiError)%type.

(** The body of the [try]: events yielded, and the error thrown if any. *)
Definition tryBody (stream : bool) : Reply stream -> list StreamEvent * option ApiError :=
  match stream with
  | true => fun reply => streamResponse reply
  | false => fun reply =>
      match reply with
      | inl m => ([nonStreamResponse m], None)
      | inr e => ([], Some e)
      end
  end.

Definition maxRetries : nat := 3.

(** What a consumer of [chatCompletion] observes, in order: events
    yielded, and the waits between attempts in milliseconds. *)
Inductive Action : Type :=
| Yield (e : StreamEvent)
| Sleep (ms : Z).

Definition isRateLimit (e : ApiError) : bool :=
  match status e with Some n => Z.eqb n 429 | None => false end.

Definition isConnectionError (e : ApiError) : bool :=
  match error_type e with Some t => String.eqb t "connection_error" | None => false end.

Definition errorText (e : ApiError) : string :=
  "API error: " ++ or_string (message e) (rendered e).

(** [for (let attempt = 0; attempt <= maxRetries; attempt++)]; [fuel]
    bounds the iterations that remain. *)
Fixpoint retryLoop (stream : bool) (provider : nat -> Reply stream)
    (fuel attempt : nat) : list Action :=
  match fuel with
  | O => []
  | S fuel' =>
      if (attempt <=? maxRetries)%nat then
        let '(events, thrown) := tryBody stream (provider attempt) in
        (map Yield events ++
         match thrown with
         | None => []
         | Some e =>
             if isRateLimit e && (attempt <? maxRetries)%nat then
               Sleep (2 ^ Z.of_nat attempt * 1000) :: retryLoop stream provider fuel' (S attempt)
             else if isConnectionError e && (attempt <? maxRetries)%nat then
               Sleep (2 ^ Z.of_nat attempt * 1000) :: retryLoop stream provider fuel' (S attempt)
             else [Yield (event_error (errorText e))]
         end)%list
      else []
  end.

Definition chatCompletion (stream : bool) (provider : nat -> Reply stream) : list Action :=
  retryLoop stream provider (S maxRetries) 0.

(** The error thrown by attempt [i], if any. *)
Definition thrownAt (stream : bool) (provider : nat -> Reply stream) (i : nat) : option ApiError :=
  snd (tryBody stream (provider i)).

End WithParser.

(** *** Vocabulary for the properties of the client *)

(** A rate-limit or transient connection error. *)
Definition retryable (e : ApiError) : bool := isRateLimit e || isConnectionError e.

(** The waits of a trace, and the events it yields, in order. *)
Definition sleeps (tr : list Action) : list Z :=
  flat_map (fun a => match a with Sleep ms => [ms] | Yield _ => [] end) tr.

Definition yields (tr : list Action) : list StreamEvent :=
  flat_map (fun a => match a with Yield e => [e] | Sleep _ => [] end) tr.

Definition has_type (ty : StreamEventType) (e : StreamEvent) : bool := type_eqb (type e) ty.

Definition errorsOf (tr : list Action) : list StreamEvent :=
  List.filter (has_type ERROR) (yields tr).

(** The events a chunk can give rise to. *)
Definition is_progress (e : StreamEvent) : bool :=
  match type e with
  | TEXT_DELTA | TOOL_CALL_START | TOOL_CALL_DELTA => true
  | MESSAGE_COMPLETE | ERROR | TOOL_CALL_COMPLETE => false
  end.

(** The first attempt, counted from [attempt], that does not end in a
    retryable error, or the attempt [fuel] steps later. *)
Fixpoint finalAttempt (thrown : nat -> option ApiError) (fuel attempt : nat) : nat :=
  match fuel with
  | O => attempt
  | S fuel' =>
      match thrown attempt with
      | Some e => if retryable e then finalAttempt thrown fuel' (S attempt) else attempt
      | None => attempt
      end
  end.

End Client.

(** ** The [edit] tool's confirmation (the built-in file tools)

    The part of [EditFileTool] that runs inside [ToolRegistry.invoke]
    before [execute]: parameter validation against the zod schema and
    [getConfirmation], which reads the file to build a diff. The file
    system is a function from resolved paths to entries. *)
Module Builtin.
Import Json Tools.

Inductive FsEntry : Type :=
| Absent
| File (text : string)
| Directory.

Definition FileSystem : Type := string -> FsEntry.

Definition existsSync (fs : FileSystem) (path : string) : bool :=
  match fs path with
  | Absent => false
  | File _ | Directory => true
  end.

Definition readFileSync (fs : FileSystem) (path : string) : exc string :=
  match fs path with
  | File text => Ok text
  | Directory => Threw "EISDIR: illegal operation on a directory, read"
  | Absent => Threw ("ENOENT: no such file or directory, open '" ++ path ++ "'")
  end.

(** The value stored under a key of a parsed object (the last, when the
    text repeated the key). *)
Definition field (k : string) (v : json) : option json :=
  match v with
  | JObj fields =>
      match find (fun kv => String.eqb (fst kv) k) (rev fields) with
      | Some kv => Some (snd kv)
      | None => None
      end
  | _ => None
  end.

Definition typeName (v : json) : string :=
  match v with
  | JNull => "null"
  | JBool _ => "boolean"
  | JNum _ => "number"
  | JStr _ => "string"
  | JArr _ => "array"
  | JObj _ => "object"
  end.

(** The issues of one field of the schema, as [validateParams] words them.
    [required] is false for a field with a default. *)
Definition fieldIssues (params : json) (k expected : string) (required : bool)
    (accepts : json -> bool) : list string :=
  match field k params with
  | None => if required then ["Parameter '" ++ k ++ "': Required"] else []
  | Some v =>
      if accepts v then []
      else ["Parameter '" ++ k ++ "': Expected " ++ expected ++ ", received " ++ typeName v]
  end.

Definition isStr (v : json) : bool := match v with JStr _ => true | _ => false end.
Definition isBool (v : json) : bool := match v with JBool _ => true | _ => false end.

(** [validateParams] with [EditParamsSchema]. *)
Definition validateEdit (params : json) : list string :=
  match params with
  | JObj _ =>
      (fieldIssues params "path" "string" true isStr ++
       fieldIssues params "oldString" "string" false isStr ++
       fieldIssues params "newString" "string" true isStr ++
       fieldIssues params "replaceAll" "boolean" false isBool)%list
  | _ => ["Parameter '': Expected object, received " ++ typeName params]
  end.

Record EditParams : Type := mkEditParams {
  edit_path : string;
  oldString : string;
  newString : string;
  replaceAll : bool
}.

Definition strField (k : string) (params : json) (d : string) : string :=
  match field k params with Some (JStr s) => s | _ => d end.

(** [EditParamsSchema.parse(params)]; it throws when validation fails. *)
Definition parseEdit (params : json) : exc EditParams :=
  match validateEdit params with
  | [] => Ok (mkEditParams (strField "path" params "") (strField "oldString" params "")
                (strField "newString" params "")
                (match field "replaceAll" params with Some (JBool b) => b | _ => false end))
  | _ :: _ => Threw "ZodError"
  end.

(** [EditFileTool.getConfirmation]. [replaceText all old from to] stands for
    [old.replaceAll(from, to)] and [old.replace(from, to)]. *)
Definition editGetConfirmation (fs : FileSystem) (pcwd : string)
    (replaceText : bool -> string -> string -> string -> string)
    (inv : ToolInvocation) : exc (option ToolConfirmation) :=
  match parseEdit (inv_params inv) with
  | Threw e => Threw e
  | Ok p =>
      let path := Paths.resolvePath pcwd (inv_cwd inv) (edit_path p) in
      if negb (existsSync fs path) then
        Ok (Some (mkToolConfirmation "edit" (inv_params inv) ("Create new file: " ++ path)
                    (Some (mkFileDiff path "" (newString p) true false)) [path] None false))
      else
        match readFileSync fs path with
        | Threw e => Threw e
        | Ok old =>
            let new := replaceText (replaceAll p) old (oldString p) (newString p) in
            Ok (Some (mkToolConfirmation "edit" (inv_params inv) ("Edit file: " ++ path)
                        (Some (mkFileDiff path old new false false)) [path] None false))
        end
  end.

(** The [edit] tool; [run] is its [execute]. *)
Definition EditFileTool (fs : FileSystem) (pcwd : string)
    (replaceText : bool -> string -> string -> string -> string)
    (run : ToolInvocation -> exc ToolResult) : Tool :=
  mkTool "edit" WRITE validateEdit (fun _ => kindIsMutating WRITE)
    (editGetConfirmation fs pcwd replaceText) run.

End Builtin.

(** ** The tool registry and its invocation pipeline (src/tools/registry.ts) *)
Module Registry.
Import Json Tools Approval.

Record ToolRegistry : Type := mkToolRegistry {
  tools : gmap string Tool;
  mcpTools : gmap string Tool;
  discoveredTools : gmap string Tool
}.

Definition empty : ToolRegistry := mkToolRegistry ∅ ∅ ∅.

Definition register (reg : ToolRegistry) (tool : Tool) (isDiscovered : bool) : ToolRegistry :=
  mkToolRegistry (<[name tool := tool]> (tools reg)) (mcpTools reg)
    (if isDiscovered then <[name tool := tool]> (discoveredTools reg)
     else discoveredTools reg).

Definition registerMcpTool (reg : ToolRegistry) (tool : Tool) : ToolRegistry :=
  mkToolRegistry (tools reg) (<[name tool := tool]> (mcpTools reg)) (discoveredTools reg).

Definition unregister (reg : ToolRegistry) (nm : string) : ToolRegistry :=
  mkToolRegistry (delete nm (tools reg)) (mcpTools reg) (discoveredTools reg).

(** [get(name)]: built-in and discovered tools first, then MCP tools. *)
Definition get (reg : ToolRegistry) (nm : string) : option Tool :=
  match tools reg !! nm with
  | Some tool => Some tool
  | None => mcpTools reg !! nm
  end.

(** What an observer of one [invoke] sees, in order: the two tool hooks of
    the hook system and the call of the tool's [execute]. *)
Inductive Effect : Type :=
| BeforeTool (toolName : string) (toolParams : json)
| Execute (toolName : string) (invocation : ToolInvocation)
| AfterTool (toolName : string) (toolParams : json) (toolResult : ToolResult).

(** Computations of [invoke]: the effects so far, and a value or a thrown
    error. *)
Definition M (A : Type) : Type := list Effect * exc A.

Definition ret {A} (a : A) : M A := ([], Ok a).

Definition bind {A B} (m : M A) (f : A -> M B) : M B :=
  match m with
  | (t, Ok a) => let '(t', r) := f a in ((t ++ t')%list, r)
  | (t, Threw e) => (t, Threw e)
  end.

Definition fire (ev : Effect) : M unit := ([ev], Ok tt).
Definition await {A} (x : exc A) : M A := ([], x).

Notation "'let*' x ':=' m 'in' k" := (bind m (fun x => k))
  (at level 10, x name, m at level 100, k at level 200).
Notation "'run' m 'then' k" := (bind m (fun _ => k))
  (at level 10, m at level 100, k at level 200).

(** [await hookSystem.triggerAfterTool(name, params, result); return result] *)
Definition finish (nm : string) (params : json) (result : ToolResult) : M ToolResult :=
  run fire (AfterTool nm params result) then ret result.

(** The approval block: [Some result] is an early return with [result],
    [None] goes on to [execute]. *)
Definition approvalGate (tool : Tool) (nm : string) (params : json)
    (invocation : ToolInvocation) (approvalManager : option ApprovalManager)
    : M (option ToolResult) :=
  match approvalManager with
  | None => ret None
  | Some mgr =>
      let* confirmation := await (getConfirmation tool invocation) in
      match confirmation with
      | None => ret None
      | Some conf =>
          let context := mkApprovalContext nm params (Tools.isMutating tool params)
                           (conf_affectedPaths conf) (conf_command conf)
                           (conf_isDangerous conf) in
          match checkApproval mgr context with
          | REJECTED =>
              let* result := finish nm params
                          (errorResult "Operation rejected by safety policy" "" []) in
              ret (Some result)
          | NEEDS_CONFIRMATION =>
              let* approved := await (requestConfirmation mgr conf) in
              if negb approved then
                let* result := finish nm params
                            (errorResult "User rejected the operation" "" []) in
                ret (Some result)
              else ret None
          | APPROVED => ret None
          end
      end
  end.

Definition invoke (reg : ToolRegistry) (nm : string) (params : json) (cwd : string)
    (approvalManager : option ApprovalManager) : M ToolResult :=
  match get reg nm with
  | None =>
      finish nm params (errorResult ("Unknown tool: " ++ nm) "" [("tool_name", JStr nm)])
  | Some tool =>
      let validationErrors := validateParams tool params in
      if (0 <? List.length validationErrors)%nat then
        finish nm params
          (errorResult ("Invalid parameters: " ++ String.concat "; " validationErrors) ""
             [("tool_name", JStr nm);
              ("validation_errors", JArr (map JStr validationErrors))])
      else
        run fire (BeforeTool nm params) then
        let invocation := mkToolInvocation params cwd in
        let* early := approvalGate tool nm params invocation approvalManager in
        match early with
        | Some result => ret result
        | None =>
            run fire (Execute nm invocation) then
            match execute tool invocation with
            | Ok result => finish nm params result
            | Threw e =>
                finish nm params
                  (errorResult ("Internal error: " ++ e) "" [("tool_name", JStr nm)])
            end
        end
  end.

End Registry.

(** ** The sub-agent tool ([SubagentTool.execute]) *)
Module Subagent.
Import Tools.
Local Open Scope Z_scope.

Record SubagentDefinition : Type := mkSubagentDefinition {
  def_name : string;
  def_description : string;
  goalPrompt : string;
  allowedTools : option (list string);
  maxTurns : option Z;
  timeoutSeconds : option Z
}.

(** The events of a nested agent run, with the data [execute] reads. *)
Inductive AgentEvent : Type :=
| AGENT_START (message : string)
| TEXT_DELTA (content : string)
| TEXT_COMPLETE (content : string)
| TOOL_CALL_START (callId name : string)
| TOOL_CALL_COMPLETE (callId name : string)
| AGENT_ERROR (error : string)
| AGENT_END (response : option string).

(** What the nested run does while [execute] watches it: [startup] is an
    error thrown by [new Agent] or [initialize]; [started] is the clock when
    the deadline is computed; each arrival pairs an event with the clock
    read when it is received; [stream_failure] is an error thrown by the
    event stream after the last arrival; [close_failure] one thrown by
    [agent.close()]. *)
Record NestedRun : Type := mkNestedRun {
  startup : option string;
  started : Z;
  arrivals : list (Z * AgentEvent);
  stream_failure : option string;
  close_failure : option string
}.

(** The locals of [execute]. *)
Record Locals : Type := mkLocals {
  toolCalls : list string;
  finalResponse : option string;
  error : option string;
  terminateResponse : string
}.

Definition initialLocals : Locals := mkLocals [] None None "goal".

(** [x || d] on a number. *)
Definition or_number (o : option Z) (d : Z) : Z :=
  match o with
  | Some n => if n =? 0 then d else n
  | None => d
  end.

(** [for await (const event of agent.run(prompt))]: the locals at the end
    and whether the loop was left by [break]. *)
Fixpoint watch (deadline : Z) (events : list (Z * AgentEvent)) (st : Locals) : Locals * bool :=
  match events with
  | [] => (st, false)
  | (now, event) :: rest =>
      if deadline <? now then
        (mkLocals (toolCalls st) (Some "Sub-agent timed out") (error st) "timeout", true)
      else
        match event with
        | TOOL_CALL_START _ nm =>
            watch deadline rest
              (mkLocals (toolCalls st ++ [nm])%list (finalResponse st) (error st)
                 (terminateResponse st))
        | TEXT_COMPLETE text =>
            watch deadline rest
              (mkLocals (toolCalls st) (Some text) (error st) (terminateResponse st))
        | AGENT_END response =>
            watch deadline rest
              (match finalResponse st with
               | None =>
                   mkLocals (toolCalls st)
                     (if truthy_opt_string response then response else None)
                     (error st) (terminateResponse st)
               | Some _ => st
               end)
        | AGENT_ERROR err =>
            let e := or_string (Some err) "Unknown" in
            (mkLocals (toolCalls st) (Some ("Sub-agent error: " ++ e)) (Some e) "error", true)
        | AGENT_START _ | TEXT_DELTA _ | TOOL_CALL_COMPLETE _ _ => watch deadline rest st
        end
  end.

(** The [catch (e)] of the outer [try]. *)
Definition caught (st : Locals) (e : string) : Locals :=
  mkLocals (toolCalls st) (Some ("Sub-agent failed: " ++ e)) (Some e) "error".

(** The locals when the outer [try ... catch] is left. *)
Definition supervise (def : SubagentDefinition) (run : NestedRun) : Locals :=
  match startup run with
  | Some e => caught initialLocals e
  | None =>
      let deadline := started run + or_number (timeoutSeconds def) 600 * 1000 in
      let '(st, broke) := watch deadline (arrivals run) initialLocals in
      let thrown := if broke then None else stream_failure run in
      match close_failure run with
      | Some e => caught st e
      | None =>
          match thrown with
          | Some e => caught st e
          | None => st
          end
      end
  end.

Definition nl : string := String (ascii_of_nat 10) "".

Definition report (def : SubagentDefinition) (st : Locals) : string :=
  "Sub-agent '" ++ def_name def ++ "' completed." ++ nl ++
  "Termination: " ++ terminateResponse st ++ nl ++
  "Tools called: " ++
    (if (0 <? List.length (toolCalls st))%nat
     then String.concat ", " (toolCalls st) else "None") ++ nl ++
  nl ++
  "Result:" ++ nl ++
  or_string (finalResponse st) "No response" ++ nl.

(** [execute], for parameters that passed the schema: [goal] is the
    [goal] string of the invocation. *)
Definition execute (def : SubagentDefinition) (goal : string) (run : NestedRun) : ToolResult :=
  if negb (truthy_string goal) then errorResult "No goal specified for sub-agent" "" []
  else
    let st := supervise def run in
    if truthy_opt_string (error st) then errorResult (report def st) "" []
    else successResult (report def st) [] None.

End Subagent.

(** ** Sample inputs used by the examples below *)
Module Samples.
Import Approval.

(** What the shell tool's confirmation gives the approval engine for a
    command. *)
Definition shell_ctx (cmd : string) (paths : list string) : ApprovalContext :=
  mkApprovalContext "shell" (Json.JObj [("command", Json.JStr cmd)]) true paths
    (Some cmd) false.

(** A manager working in [/home/u], without a confirmation callback. *)
Definition manager (policy : ApprovalPolicy) : ApprovalManager :=
  mkApprovalManager policy "/home/u" "/home/u" None.

(** A sub-agent with a one-second deadline. *)
Definition investigator : Subagent.SubagentDefinition :=
  Subagent.mkSubagentDefinition "codebase_investigator"
    "Investigates the codebase" "You are a codebase investigation specialist."
    (Some ["read_file"; "grep"; "glob"; "list_dir"]) None (Some 1%Z).

(** A nested run started at clock 0 whose third event is received at
    clock 1500, after the deadline of clock 1000. *)
Definition slow_run : Subagent.NestedRun :=
  Subagent.mkNestedRun None 0
    [(5%Z, Subagent.AGENT_START "task");
     (400%Z, Subagent.TOOL_CALL_START "call_1" "grep");
     (1500%Z, Subagent.TOOL_CALL_COMPLETE "call_1" "grep")]
    None None.

(** A nested run that meets an agent error. *)
Definition failing_run : Subagent.NestedRun :=
  Subagent.mkNestedRun None 0
    [(5%Z, Subagent.AGENT_START "task");
     (90%Z, Subagent.AGENT_ERROR "API error: quota")]
    None None.

(** A nested run that reaches its goal. *)
Definition good_run : Subagent.NestedRun :=
  Subagent.mkNestedRun None 0
    [(5%Z, Subagent.AGENT_START "task");
     (40%Z, Subagent.TOOL_CALL_START "call_1" "grep");
     (60%Z, Subagent.TEXT_COMPLETE "found it");
     (61%Z, Subagent.AGENT_END (Some "found it"))]
    None None.

(** A working directory [/home/u] that holds the directory [src] and the
    file [README.md]. *)
Definition project_files : Builtin.FileSystem :=
  fun path =>
    if String.eqb path "/home/u/src" then Builtin.Directory
    else if String.eqb path "/home/u" then Builtin.Directory
    else if String.eqb path "/home/u/README.md" then Builtin.File "hello world"
    else Builtin.Absent.

(** The [edit] tool over these files; its text replacement and its
    [execute] play no part before the confirmation is built. *)
Definition edit_tool : Tools.Tool :=
  Builtin.EditFileTool project_files "/home/u"
    (fun _ old _ _ => old)
    (fun _ => Ok (Tools.successResult "edited" [] None)).

(** A read-only tool that answers with the text of [README.md]. *)
Definition read_tool : Tools.Tool :=
  Tools.mkTool "read_file" Tools.READ (fun _ => [])
    (fun _ => Tools.kindIsMutating Tools.READ)
    (Tools.baseGetConfirmation "read_file" (fun _ => Tools.kindIsMutating Tools.READ))
    (fun _ => Ok (Tools.successResult "hello world" [] None)).

Definition sample_registry : Registry.ToolRegistry :=
  Registry.register (Registry.register Registry.empty edit_tool false) read_tool false.

(** Arguments of an [edit] call that names the directory [src]. *)
Definition edit_src : Json.json :=
  Json.JObj [("path", Json.JStr "src"); ("oldString", Json.JStr "a");
             ("newString", Json.JStr "b")].

(** A tool result of [n] tokens, a user message, and a transcript of two
    user messages followed by seven tool results of 10,000 tokens each. *)
Definition tool_result (n : Z) : Context.MessageItem :=
  Context.mkMessageItem "tool" "output" (Some "call_1") [] (Some n) None.

Definition user_message : Context.MessageItem :=
  Context.mkMessageItem "user" "go on" None [] (Some 1%Z) None.

Definition context_of (ms : list Context.MessageItem) : Context.ContextManager :=
  Context.mkContextManager "system prompt" "gpt-4" ms Usage.zero Usage.zero.

Definition long_transcript : Context.ContextManager :=
  context_of ([user_message; user_message] ++ repeat (tool_result 10000) 7)%list.

(** The same tool results after a single user message. *)
Definition one_user_transcript : Context.ContextManager :=
  context_of ([user_message] ++ repeat (tool_result 10000) 7)%list.

(** The clock of the examples: the [k]-th reading is [1000 + k]. *)
Definition sample_clock (k : nat) : Z := (1000 + Z.of_nat k)%Z.

(** The argument text [{"path":"README.md"}] as it arrives in two deltas. *)
Definition arguments_begin : string :=
  "{" ++ String Json.dquote "path" ++ String Json.dquote ":".

Definition arguments_end : string :=
  String Json.dquote "README.md" ++ String Json.dquote "}".

(** A provider that answers the first [failures] attempts with a
    rate-limit error and then streams the text [hello]. *)
Definition rate_limited : Client.ApiError :=
  Client.mkApiError (Some 429%Z) None (Some "Too Many Requests") "Error: 429".

Definition hello_reply : Client.StreamReply :=
  Client.mkStreamReply
    [Client.mkChunk None
       (Some [Client.mkChoice (Some "stop") (Some "hello") None])]
    None.

Definition flaky_provider (failures : nat) (attempt : nat) : Client.StreamReply :=
  if (attempt <? failures)%nat then Client.mkStreamReply [] (Some rate_limited)
  else hello_reply.

End Samples.

(** ** Truncation to a token budget (src/utils/text.ts) *)
Module Truncate.
Import Text.
Local Open Scope Z_scope.

(** [s.split(sep)] for a one-character separator. *)
Fixpoint split_from (sep : ascii) (s : string) (cur : string) : list string :=
  match s with
  | EmptyString => [cur]
  | String c s' =>
      if Ascii.eqb c sep then cur :: split_from sep s' ""
      else split_from sep s' (cur ++ String c "")
  end.

Definition split (sep : ascii) (s : string) : list string := split_from sep s "".

Definition newline : ascii := ascii_of_nat 10.

Fixpoint trimStart (s : string) : string :=
  match s with
  | String c s' => if Regex.is_space c then trimStart s' else s
  | EmptyString => s
  end.

Definition reverse (s : string) : string :=
  string_of_list_ascii (rev (list_ascii_of_string s)).

(** [s.trim()] *)
Definition trim (s : string) : string :=
  reverse (trimStart (reverse (trimStart s))).

(** The [while (low < high)] loop of [truncateByChars]: the values of
    [low] and [high] when it is left, or when [fuel] iterations are done. *)
Fixpoint bisect (fits : nat -> bool) (fuel low high : nat) : nat * nat :=
  match fuel with
  | O => (low, high)
  | S fuel' =>
      if (low <? high)%nat then
        let mid := ((low + high + 1) / 2)%nat in
        if fits mid then bisect fits fuel' mid high
        else bisect fits fuel' low (mid - 1)%nat
      else (low, high)
  end.

(** Does the prefix of [mid] characters fit the target? *)
Definition prefixFits (text model : string) (targetTokens : Z) (mid : nat) : bool :=
  countTokens (String.substring 0 mid text) model <=? targetTokens.

Definition truncateByChars (text : string) (targetTokens : Z) (suffix model : string) : string :=
  let low := fst (bisect (prefixFits text model targetTokens)
                    (String.length text) 0 (String.length text)) in
  String.substring 0 low text ++ suffix.

(** The [for (const line of lines)] loop of [truncateByLines]:
    [resultLines], for the lines that remain and the tokens counted so far. *)
Fixpoint keepLines (model : string) (targetTokens : Z) (lines : list string)
    (currentTokens : Z) : list string :=
  match lines with
  | [] => []
  | line :: rest =>
      let lineTokens := countTokens (line ++ String newline "") model in
      if targetTokens <? currentTokens + lineTokens then []
      else line :: keepLines model targetTokens rest (currentTokens + lineTokens)
  end.

Definition truncateByLines (text : string) (targetTokens : Z) (suffix model : string) : string :=
  let resultLines := keepLines model targetTokens (split newline text) 0 in
  match resultLines with
  | [] => truncateByChars text targetTokens suffix model
  | _ :: _ => String.concat (String newline "") resultLines ++ suffix
  end.

(** The default suffix, a line feed followed by [... [truncated]]. *)
Definition defaultSuffix : string := String newline "... [truncated]".

Definition truncateText (text model : string) (maxTokens : Z) (suffix : string)
    (preserveLines : bool) : string :=
  let currentTokens := countTokens text model in
  if currentTokens <=? maxTokens then text
  else
    let suffixTokens := countTokens suffix model in
    let targetTokens := maxTokens - suffixTokens in
    if targetTokens <=? 0 then trim suffix
    else if preserveLines then truncateByLines text targetTokens suffix model
    else truncateByChars text targetTokens suffix model.

End Truncate.

(** ** The loop detector over a run of actions *)
Module LoopRun.
Import LoopDetector.

(** [recordAction] for each action of a list, in order. *)
Definition recordAll (d : LoopDetector) (actions : list (string * ActionDetails))
    : LoopDetector :=
  fold_left (fun d a => recordAction d (fst a) (snd a)) actions d.

Definition signatures (actions : list (string * ActionDetails)) : list string :=
  map (fun a => signature (fst a) (snd a)) actions.

End LoopRun.

(** ** The first words of the safe patterns *)
Module SafeVerbs.

(** The commands that [SAFE_PATTERNS] accepts as a first word on their own:
    the alternatives of the patterns of the form [/^(w1|w2|...)(\s|$)/]. *)
Definition safe_verbs : list string :=
  ["ls"; "dir"; "pwd"; "cd"; "echo"; "cat"; "head"; "tail"; "less"; "more"; "wc";
   "find"; "locate"; "which"; "whereis"; "file"; "stat";
   "grep"; "awk"; "sed"; "cut"; "sort"; "uniq"; "tr"; "diff"; "comm";
   "date"; "cal"; "uptime"; "whoami"; "id"; "groups"; "hostname"; "uname";
   "ps"; "top"; "htop"; "pgrep"].

End SafeVerbs.

(** ** The messages as they are sent to the provider *)
Module Transcript.
Import Context.
Local Open Scope Z_scope.

(** [MessageItem.toDict]: the keys in the order they are set. *)
Definition toDict (m : MessageItem) : list (string * Json.json) :=
  ([("role", Json.JStr (role m))]
   ++ (if truthy_opt_string (toolCallId m)
       then [("tool_call_id", Json.JStr (or_string (toolCallId m) ""))] else [])
   ++ (if (0 <? List.length (toolCalls m))%nat
       then [("tool_calls", Json.JArr (toolCalls m))] else [])
   ++ (if truthy_string (content m) then [("content", Json.JStr (content m))] else []))%list.

Definition getMessages (cm : ContextManager) : list (list (string * Json.json)) :=
  ((if truthy_string (systemPrompt cm)
    then [[("role", Json.JStr "system"); ("content", Json.JStr (systemPrompt cm))]]
    else [])
   ++ map toDict (messages cm))%list.

(** *** Vocabulary *)

(** An entry of [getMessages] without its [content] key. *)
Definition without_content (entry : list (string * Json.json)) : list (string * Json.json) :=
  List.filter (fun kv => negb (String.eqb (fst kv) "content")) entry.

(** The tokens that the stored messages count for. *)
Definition storedTokens (model : string) (ms : list MessageItem) : Z :=
  fold_right Z.add 0 (map (message_tokens model) ms).

End Transcript.

(** ** What a streamed reply carries *)
Module Assembly.
Import Json Client.

(** [chunk.choices[0]], when the chunk has choices. *)
Definition firstChoice (c : Chunk) : option Choice :=
  match choices c with
  | Some (choice :: _) => Some choice
  | _ => None
  end.

(** The text, the tool-call deltas, the finish reason and the usage that
    a chunk carries for [streamResponse]. *)
Definition chunkText (c : Chunk) : string :=
  match firstChoice c with
  | Some choice => or_string (delta_content choice) ""
  | None => ""
  end.

Definition chunkDeltas (c : Chunk) : list ToolCallChunk :=
  match firstChoice c with
  | Some choice => default [] (delta_tool_calls choice)
  | None => []
  end.

Definition chunkFinish (c : Chunk) : option string :=
  match firstChoice c with
  | Some choice =>
      if truthy_opt_string (finish_reason choice) then finish_reason choice else None
  | None => None
  end.

Definition chunkUsage (c : Chunk) : option Usage.TokenUsage :=
  option_map usage_of (chunk_usage c).

(** The last value that is present. *)
Fixpoint lastSome {A : Type} (l : list (option A)) : option A :=
  match l with
  | [] => None
  | x :: rest =>
      match lastSome rest with
      | Some y => Some y
      | None => x
      end
  end.

(** The text that a consumer puts together from the TEXT_DELTA events. *)
Definition textOf (evs : list StreamEvent) : string :=
  fold_right String.append ""
    (map (fun e => match type e with
                   | TEXT_DELTA => or_string (textDelta e) ""
                   | _ => ""
                   end) evs).

(** The deltas of one tool call, and what they add up to. *)
Definition forIndex (idx : Z) (ds : list ToolCallChunk) : list ToolCallChunk :=
  List.filter (fun d => Z.eqb (index d) idx) ds.

Definition argumentsFor (idx : Z) (ds : list ToolCallChunk) : string :=
  fold_right String.append ""
    (map (fun d => or_string (function_arguments d) "") (forIndex idx ds)).

Definition idFor (idx : Z) (ds : list ToolCallChunk) : string :=
  match forIndex idx ds with
  | d :: _ => or_string (chunk_id d) ""
  | [] => ""
  end.

Definition nameFor (idx : Z) (ds : list ToolCallChunk) : string :=
  match forIndex idx ds with
  | d :: _ => or_string (function_name d) ""
  | [] => ""
  end.

(** The indexes not in [seen], in the order of their first delta. *)
Fixpoint indices (seen : list Z) (ds : list ToolCallChunk) : list Z :=
  match ds with
  | [] => []
  | d :: rest =>
      if existsb (Z.eqb (index d)) seen then indices seen rest
      else index d :: indices (seen ++ [index d])%list rest
  end.

(** The events that close a stream. *)
Definition is_terminal (e : StreamEvent) : bool :=
  match type e with
  | MESSAGE_COMPLETE | ERROR => true
  | _ => false
  end.

(** A reply of which only [text] arrives before the connection is lost. *)
Definition cut_reply (text : string) : StreamReply :=
  mkStreamReply [mkChunk None (Some [mkChoice None (Some text) None])]
    (Some (mkApiError None (Some "connection_error") (Some "Connection error.") "Error")).

Definition whole_reply (text : string) : StreamReply :=
  mkStreamReply [mkChunk None (Some [mkChoice (Some "stop") (Some text) None])] None.

(** The first attempt is cut after [Hel], the second one goes through. *)
Definition cut_once (attempt : nat) : StreamReply :=
  match attempt with
  | O => cut_reply "Hel"
  | S _ => whole_reply "Hello"
  end.

End Assembly.

(** ** Discovered tools (src/tools/registry.ts) *)
Module Discovery.
Import Json Tools Approval Registry.

(** [reloadDiscoveredTools(newTools)]: every name under which a tool was
    discovered is deleted from [tools], the discovered tools are cleared,
    and the new tools are registered as discovered ones, in order. *)
Definition reloadDiscoveredTools (reg : ToolRegistry) (newTools : list Tool) : ToolRegistry :=
  let names := map fst (map_to_list (discoveredTools reg)) in
  fold_left (fun r tool => register r tool true) newTools
    (mkToolRegistry (foldr delete (tools reg) names) (mcpTools reg) ∅).

(** *** Vocabulary *)

(** The last of [newTools] registered under [nm]. *)
Definition lastNamed (nm : string) (newTools : list Tool) : option Tool :=
  last (List.filter (fun tool => String.eqb (name tool) nm) newTools).

(** What [invoke] builds for the approval engine from a confirmation. *)
Definition contextOf (tool : Tool) (nm : string) (params : json)
    (conf : ToolConfirmation) : ApprovalContext :=
  mkApprovalContext nm params (Tools.isMutating tool params)
    (conf_affectedPaths conf) (conf_command conf) (conf_isDangerous conf).

(** An [edit] call that creates a file outside the working directory. *)
Definition edit_outside : json :=
  JObj [("path", JStr "../notes.txt"); ("oldString", JStr "");
        ("newString", JStr "x")].

(** A plugin tool discovered under the name of the built-in [read_file]. *)
Definition plugin_tool : Tool :=
  mkTool "read_file" READ (fun _ => []) (fun _ => false)
    (fun _ => Ok None) (fun _ => Ok (successResult "plugin" [] None)).

End Discovery.

(** ** The shell tool's block list (src/tools/builtin/shell.ts) *)
Module Shell.
Import Tools.

Definition BLOCKED_COMMANDS : list string := [
  "rm -rf /";
  "rm -rf ~";
  "rm -rf /*";
  "dd if=/dev/zero";
  "dd if=/dev/random";
  "mkfs";
  "fdisk";
  "parted";
  ":(){ :|:& };:";
  "chmod 777 /";
  "chmod -R 777";
  "shutdown";
  "reboot";
  "halt";
  "poweroff";
  "init 0";
  "init 6"
].

(** [s.includes(sub)] *)
Fixpoint includes (s sub : string) : bool :=
  if String.prefix sub s then true
  else
    match s with
    | EmptyString => false
    | String _ s' => includes s' sub
    end.

(** [toLowerCase] on one code unit below 256: the letters [A-Z] and the
    capital letters of Latin-1. *)
Definition lower (c : ascii) : ascii :=
  let n := nat_of_ascii c in
  if ((65 <=? n) && (n <=? 90) || (192 <=? n) && (n <=? 222) && negb (n =? 215))%nat
  then ascii_of_nat (n + 32)
  else c.

Fixpoint toLowerCase (s : string) : string :=
  match s with
  | EmptyString => EmptyString
  | String c s' => String (lower c) (toLowerCase s')
  end.

(** [ShellTool.getConfirmation], for parameters that passed the schema:
    [command] is [params.command]. *)
Definition getConfirmation (params : Json.json) (command : string) : ToolConfirmation :=
  if existsb (includes command) BLOCKED_COMMANDS
  then mkToolConfirmation "shell" params ("Execute (BLOCKED): " ++ command)
         None [] (Some command) true
  else mkToolConfirmation "shell" params ("Execute: " ++ command)
         None [] (Some command) false.

(** The guard at the head of [ShellTool.execute]: the result returned
    before anything is run, if any. *)
Definition blockedResult (command : string) : option ToolResult :=
  let normal := Truncate.trim (toLowerCase command) in
  if existsb (includes normal) BLOCKED_COMMANDS
  then Some (errorResult ("Command blocked for safety: " ++ command) ""
               [("blocked", Json.JBool true)])
  else None.

End Shell.

(** ** Paths inside and outside the working directory *)
Module Containment.

(** Is the resolved path [t] the directory [f] or a path below it? *)
Fixpoint below (f t : list string) : bool :=
  match f, t with
  | [], _ => true
  | x :: f', y :: t' => String.eqb x y && below f' t'
  | _ :: _, [] => false
  end.

End Containment.

(** ** Compaction (src/context/compaction.ts) *)
Module Compaction.
Import Json Client Context Transcript.

Section WithParser.
Variable parse : string -> option json.

(** The body of [for await (const event of chatCompletion(...))] in
    [compress]: the locals [summary] and [usage]. *)
Definition collectStep (acc : string * option Usage.TokenUsage) (event : StreamEvent)
    : string * option Usage.TokenUsage :=
  if type_eqb (type event) MESSAGE_COMPLETE then
    (match textDelta event with
     | Some content => (fst acc ++ content)%string
     | None => fst acc
     end, usage event)
  else acc.

Definition collect (events : list StreamEvent) : string * option Usage.TokenUsage :=
  fold_left collectStep events ("", None).

(** [compress(contextManager)]: the pair returned. The request is not
    streamed; [provider] gives the reply of each attempt. *)
Definition compress (cm : ContextManager) (provider : nat -> Reply false)
    : option string * option Usage.TokenUsage :=
  if (List.length (getMessages cm) <? 3)%nat then (None, None)
  else
    let '(summary, usage) := collect (yields (chatCompletion parse false provider)) in
    if negb (truthy_string summary) || negb (is_some usage) then (None, None)
    else (Some summary, usage).

End WithParser.

(** A reply with a summary and its usage, after one rate-limit error. *)
Definition summary_provider (attempt : nat) : Reply false :=
  match attempt with
  | O => inr Samples.rate_limited
  | S _ => inl (mkWholeMessage (Some "Goal: fix the parser.") None (Some "stop")
                  (Some (mkChunkUsage 900 40 940 None)))
  end.

Definition three_messages : ContextManager :=
  addUserMessage (addAssistantMessage (addUserMessage
    (mkContextManager "" "gpt-4" [] Usage.zero Usage.zero) "fix the parser")
    (Some "On it.") None) "go on".

End Compaction.

(** * Properties *)

(** ** Token accounting *)
Module UsageProps.
Import Usage Context.
Local Open Scope Z_scope.

Lemma countTokens_pos text model : 1 <= Text.countTokens text model.
Proof. unfold Text.countTokens, Text.estimateTokens. lia. Qed.

Lemma add_comm a b : add a b = add b a.
Proof. unfold add. f_equal; lia. Qed.

Lemma add_zero_r a : add a zero = a.
Proof. destruct a. unfold add. simpl. f_equal; lia. Qed.

Lemma add_zero_l a : add zero a = a.
Proof. rewrite add_comm. apply add_zero_r. Qed.

Lemma add_assoc a b c : add (add a b) c = add a (add b c).
Proof. unfold add. simpl. f_equal; lia. Qed.

Lemma le_refl a : le a a.
Proof. unfold le. lia. Qed.

Lemma le_trans a b c : le a b -> le b c -> le a c.
Proof. unfold le. lia. Qed.

Lemma le_add a u : counts u -> le a (add a u).
Proof. unfold le, counts, add. simpl. lia. Qed.

Lemma addUsages_app cm us more :
  addUsages cm (us ++ more) = addUsages (addUsages cm us) more.
Proof. unfold addUsages. apply fold_left_app. Qed.

(** One more call never lowers a component of the running total. *)
Lemma addUsages_grows more : forall cm,
  Forall counts more -> le (totalUsage cm) (totalUsage (addUsages cm more)).
Proof.
  induction more as [|u more IH]; intros cm Hall.
  - apply le_refl.
  - inversion Hall as [|? ? Hu Hrest]; subst.
    change (addUsages cm (u :: more)) with (addUsages (addUsage cm u) more).
    eapply le_trans; [|apply IH; exact Hrest].
    simpl. apply le_add. exact Hu.
Qed.

(** The messages are not touched by usage accounting. *)
Lemma addUsages_messages us : forall cm, messages (addUsages cm us) = messages cm.
Proof.
  induction us as [|u us IH]; intros cm; [reflexivity|].
  change (addUsages cm (u :: us)) with (addUsages (addUsage cm u) us).
  now rewrite IH.
Qed.

(** C10: [TokenUsage.add] is commutative in every component and has the
    all-zero usage as identity; and under repeated [addUsage] calls with
    usage reports (token counts, none negative), the conversation's
    [totalUsage] after any number of calls is component-wise at most what
    it is after further calls. *)
Theorem token_usage_add_commutative_monotone
    (a b : TokenUsage) (cm : ContextManager) (us more : list TokenUsage)
    (Hcounts : Forall counts more) :
  add a b = add b a /\
  add a zero = a /\
  le (totalUsage (addUsages cm us)) (totalUsage (addUsages cm (us ++ more))).
Proof.
  split; [apply add_comm|]. split; [apply add_zero_r|].
  rewrite addUsages_app. apply addUsages_grows. exact Hcounts.
Qed.

Lemma token_usage_add_commutative_monotone_witness :
  let a := mkTokenUsage 120 30 150 100 in
  let b := mkTokenUsage 7 5 12 0 in
  let cm := mkContextManager "system" "gpt-4" [] zero zero in
  Forall counts [b] /\
  (add a b = add b a /\
   add a zero = a /\
   le (totalUsage (addUsages cm [a])) (totalUsage (addUsages cm ([a] ++ [b])))).
Proof.
  split.
  - repeat constructor; simpl; lia.
  - apply (token_usage_add_commutative_monotone
             (mkTokenUsage 120 30 150 100) (mkTokenUsage 7 5 12 0)
             (mkContextManager "system" "gpt-4" [] zero zero)
             [mkTokenUsage 120 30 150 100] [mkTokenUsage 7 5 12 0]).
    repeat constructor; simpl; lia.
Defined.

End UsageProps.

(** ** The approval policy engine *)
Module ApprovalProps.
Import Approval Samples.

Lemma policy_eqb_eq a b : policy_eqb a b = true <-> a = b.
Proof. destruct a, b; simpl; split; congruence. Qed.

Lemma truthy_string_nonempty s : truthy_string s = true <-> s <> "".
Proof. destruct s; simpl; split; congruence. Qed.

Lemma or_string_truthy s d : truthy_string s = true -> or_string (Some s) d = s.
Proof. intros H. unfold or_string. now rewrite H. Qed.

(** The classifier's verdict on a dangerous command. *)
Lemma assess_dangerous mgr cmd :
  isDangerousCommand cmd = true ->
  assessCommandSafety mgr cmd =
    if policy_eqb (approvalPolicy mgr) YOLO then APPROVED else REJECTED.
Proof.
  intros Hd. unfold assessCommandSafety. rewrite Hd.
  now destruct (policy_eqb (approvalPolicy mgr) YOLO).
Qed.

(** The classifier never answers REJECTED or NEEDS_CONFIRMATION under yolo. *)
Lemma assess_yolo mgr cmd :
  approvalPolicy mgr = YOLO -> assessCommandSafety mgr cmd = APPROVED.
Proof. intros H. unfold assessCommandSafety. now rewrite H. Qed.

Lemma checkPaths_spec mgr paths :
  checkPaths mgr paths =
    if existsb (escapes mgr) paths then Some NEEDS_CONFIRMATION else None.
Proof.
  induction paths as [|p rest IH]; simpl; [reflexivity|].
  destruct (escapes mgr p); simpl; [reflexivity|exact IH].
Qed.

(** A verdict of the command block other than NEEDS_CONFIRMATION is the
    decision. *)
Lemma checkApproval_command mgr ctx cmd :
  isMutating ctx = true ->
  command ctx = Some cmd ->
  truthy_string cmd = true ->
  assessCommandSafety mgr cmd <> NEEDS_CONFIRMATION ->
  checkApproval mgr ctx = assessCommandSafety mgr cmd.
Proof.
  intros Hm Hc Ht Hn. unfold checkApproval, commandVerdict.
  rewrite Hm, Hc. unfold truthy_opt_string, or_string. rewrite Ht. simpl.
  destruct (assessCommandSafety mgr cmd); simpl; congruence.
Qed.

(** The table of the approval classification, row by row, as the engine
    decides it. *)
Example table_on_request_ls :
  checkApproval (manager ON_REQUEST) (shell_ctx "ls -la" []) = APPROVED.
Proof. vm_compute. reflexivity. Qed.

Example table_on_request_rm :
  checkApproval (manager ON_REQUEST) (shell_ctx "rm -rf /" []) = REJECTED.
Proof. vm_compute. reflexivity. Qed.

(** [make build] under on-request: the classifier answers
    NEEDS_CONFIRMATION, which is not returned at once; with no affected
    path and no danger flag the decision falls through to APPROVED. *)
Example table_on_request_make :
  assessCommandSafety (manager ON_REQUEST) "make build" = NEEDS_CONFIRMATION /\
  checkApproval (manager ON_REQUEST) (shell_ctx "make build" []) = APPROVED.
Proof. vm_compute. split; reflexivity. Qed.

Example table_never_cat_make :
  checkApproval (manager NEVER) (shell_ctx "cat x" []) = APPROVED /\
  checkApproval (manager NEVER) (shell_ctx "make" []) = REJECTED.
Proof. vm_compute. split; reflexivity. Qed.

Example table_auto_edit_outside :
  checkApproval (manager AUTO_EDIT)
    (mkApprovalContext "write_file" (Json.JObj []) true ["/tmp/foo"] None false)
  = NEEDS_CONFIRMATION.
Proof. vm_compute. reflexivity. Qed.

(** C1, as stated, fails: with policy yolo the mutating command
    [rm -rf /], which matches a dangerous pattern, is APPROVED. *)
Lemma yolo_rm_rf_root_is_approved :
  approvalPolicy (manager YOLO) = YOLO /\
  isMutating (shell_ctx "rm -rf /" []) = true /\
  isDangerousCommand "rm -rf /" = true /\
  checkApproval (manager YOLO) (shell_ctx "rm -rf /" []) = APPROVED.
Proof. vm_compute. repeat split; reflexivity. Qed.

(** C1, amended: for every mutating approval context whose command matches
    a dangerous pattern, [checkApproval] returns APPROVED when the
    manager's policy is yolo (the classifier answers before it looks at the
    patterns) and REJECTED under every other policy. *)
Theorem dangerous_command_blocked_unless_yolo
    (mgr : ApprovalManager) (ctx : ApprovalContext) (cmd : string)
    (Hmut : isMutating ctx = true)
    (Hcmd : command ctx = Some cmd)
    (Hdanger : isDangerousCommand cmd = true) :
  (approvalPolicy mgr = YOLO -> checkApproval mgr ctx = APPROVED) /\
  (approvalPolicy mgr <> YOLO -> checkApproval mgr ctx = REJECTED).
Proof.
  assert (Ht : truthy_string cmd = true).
  { destruct cmd; [|reflexivity]. vm_compute in Hdanger. discriminate. }
  pose proof (assess_dangerous mgr cmd Hdanger) as Ha.
  assert (Hn : assessCommandSafety mgr cmd <> NEEDS_CONFIRMATION).
  { rewrite Ha. destruct (policy_eqb (approvalPolicy mgr) YOLO); discriminate. }
  rewrite (checkApproval_command mgr ctx cmd Hmut Hcmd Ht Hn), Ha.
  split; intros Hp.
  - rewrite Hp. reflexivity.
  - destruct (policy_eqb (approvalPolicy mgr) YOLO) eqn:E; [|reflexivity].
    apply policy_eqb_eq in E. contradiction.
Qed.

Lemma dangerous_command_blocked_unless_yolo_witness :
  (isMutating (shell_ctx "rm -rf /" []) = true /\
   command (shell_ctx "rm -rf /" []) = Some "rm -rf /" /\
   isDangerousCommand "rm -rf /" = true) /\
  ((approvalPolicy (manager ON_REQUEST) = YOLO ->
    checkApproval (manager ON_REQUEST) (shell_ctx "rm -rf /" []) = APPROVED) /\
   (approvalPolicy (manager ON_REQUEST) <> YOLO ->
    checkApproval (manager ON_REQUEST) (shell_ctx "rm -rf /" []) = REJECTED)).
Proof.
  split.
  - vm_compute. repeat split; reflexivity.
  - apply (dangerous_command_blocked_unless_yolo (manager ON_REQUEST)
             (shell_ctx "rm -rf /" []) "rm -rf /");
      vm_compute; reflexivity.
Defined.

(** C3, as stated, fails: under auto-edit a mutating context with the safe
    command [ls] is not rejected by the classifier, its affected path
    [/tmp/foo] escapes the cwd [/home/u], and the decision is APPROVED. *)
Lemma approved_command_skips_path_check :
  isMutating (shell_ctx "ls" ["/tmp/foo"]) = true /\
  assessCommandSafety (manager AUTO_EDIT) "ls" = APPROVED /\
  Paths.relative "/home/u" "/home/u" "/tmp/foo" = "../../tmp/foo" /\
  escapes (manager AUTO_EDIT) "/tmp/foo" = true /\
  checkApproval (manager AUTO_EDIT) (shell_ctx "ls" ["/tmp/foo"]) = APPROVED.
Proof. vm_compute. repeat split; reflexivity. Qed.

(** C3, amended: for every mutating approval context whose command is
    absent or empty, or is classified NEEDS_CONFIRMATION by the command
    classifier, if some path of [affectedPaths] has a relative path from
    cwd that begins with [..], then [checkApproval] returns
    NEEDS_CONFIRMATION. *)
Theorem escaping_path_needs_confirmation
    (mgr : ApprovalManager) (ctx : ApprovalContext) (path : string)
    (Hmut : isMutating ctx = true)
    (Hcls : forall cmd, command ctx = Some cmd -> truthy_string cmd = true ->
              assessCommandSafety mgr cmd = NEEDS_CONFIRMATION)
    (Hin : In path (affectedPaths ctx))
    (Hesc : Paths.startsWith (Paths.relative (pcwd mgr) (cwd mgr) path) ".." = true) :
  checkApproval mgr ctx = NEEDS_CONFIRMATION.
Proof.
  unfold checkApproval. rewrite Hmut. simpl.
  assert (Hv : commandVerdict mgr ctx = None).
  { unfold commandVerdict, truthy_opt_string, or_string.
    destruct (command ctx) as [cmd|] eqn:Hc; [|reflexivity].
    destruct (truthy_string cmd) eqn:Ht; [|reflexivity].
    rewrite (Hcls cmd eq_refl Ht). reflexivity. }
  rewrite Hv, checkPaths_spec.
  assert (He : existsb (escapes mgr) (affectedPaths ctx) = true).
  { apply existsb_exists. exists path. split; [exact Hin|exact Hesc]. }
  rewrite He. reflexivity.
Qed.

Lemma escaping_path_needs_confirmation_witness :
  checkApproval (manager AUTO_EDIT)
    (mkApprovalContext "write_file" (Json.JObj []) true ["/tmp/foo"] None false)
  = NEEDS_CONFIRMATION.
Proof.
  apply (escaping_path_needs_confirmation (manager AUTO_EDIT)
           (mkApprovalContext "write_file" (Json.JObj []) true ["/tmp/foo"] None false)
           "/tmp/foo").
  - reflexivity.
  - intros cmd Hc. discriminate Hc.
  - simpl. left. reflexivity.
  - vm_compute. reflexivity.
Defined.

End ApprovalProps.

(** ** The loop detector *)
Module LoopProps.
Import LoopDetector.
Local Open Scope list_scope.

Lemma slice_last_app {A} (n : nat) (pre suf : list A) :
  List.length suf = n -> slice_last n (pre ++ suf) = suf.
Proof.
  intros H. unfold slice_last. rewrite List.length_app, H.
  replace (List.length pre + n - n)%nat with (List.length pre) by lia.
  rewrite skipn_app, skipn_all, Nat.sub_diag. reflexivity.
Qed.

Lemma distinct_count_three x y z :
  distinct_count [x; y; z] = 1%nat <-> x = y /\ y = z.
Proof.
  unfold distinct_count. simpl.
  repeat (destruct (String.string_dec _ _)); subst; simpl;
    intuition (try congruence; try lia).
Qed.

Lemma messages_text :
  repeated_message = "Same action repeated 3 times" /\
  cycle_message 2 = "Detected repeating cycle of length 2" /\
  cycle_message 3 = "Detected repeating cycle of length 3".
Proof. repeat split; reflexivity. Qed.

(** Three identical signatures at the end are reported. *)
Lemma exact_repeat_detected pre x :
  checkForLoop (mkLoopDetector (pre ++ [x; x; x])) = Some repeated_message.
Proof.
  unfold checkForLoop. simpl history. unfold maxExactRepeats.
  assert (Hlen : List.length (pre ++ [x; x; x]) = (List.length pre + 3)%nat)
    by (rewrite List.length_app; reflexivity).
  rewrite Hlen, (slice_last_app 3 pre [x; x; x] eq_refl).
  replace (List.length pre + 3 <? 2)%nat with false by (symmetry; apply Nat.ltb_ge; lia).
  replace (3 <=? List.length pre + 3)%nat with true
    by (symmetry; apply Nat.leb_le; lia).
  assert (Hd : distinct_count [x; x; x] = 1%nat) by (apply distinct_count_three; auto).
  rewrite Hd. reflexivity.
Qed.

(** With fewer than six signatures no cycle is looked for. *)
Lemma short_history_no_cycle h :
  (List.length h < 6)%nat ->
  distinct_count (slice_last 3 h) <> 1%nat ->
  checkForLoop (mkLoopDetector h) = None.
Proof.
  intros Hlen Hd. unfold checkForLoop. simpl history.
  destruct (List.length h <? 2)%nat; [reflexivity|].
  apply Nat.eqb_neq in Hd. unfold maxExactRepeats. rewrite Hd, andb_false_r.
  replace (maxCycleLength * 2 <=? List.length h)%nat with false; [reflexivity|].
  symmetry. apply Nat.leb_gt. unfold maxCycleLength. lia.
Qed.

(** The steps of [checkForLoop] before the cycle search, for a history of
    six or more signatures whose last three are not all the same. *)
Lemma checkForLoop_long h :
  (6 <= List.length h)%nat ->
  distinct_count (slice_last 3 h) <> 1%nat ->
  checkForLoop (mkLoopDetector h) = cycleLoop 3 2 h.
Proof.
  intros Hlen Hd. unfold checkForLoop. simpl history.
  replace (List.length h <? 2)%nat with false by (symmetry; apply Nat.ltb_ge; lia).
  apply Nat.eqb_neq in Hd. unfold maxExactRepeats. rewrite Hd, andb_false_r.
  replace (maxCycleLength * 2 <=? List.length h)%nat with true; [reflexivity|].
  symmetry. apply Nat.leb_le. unfold maxCycleLength. lia.
Qed.

Lemma half_bound (h : list string) : (6 <= List.length h)%nat -> Nat.min maxCycleLength (List.length h / 2) = 3%nat.
Proof.
  intros H. unfold maxCycleLength.
  assert (3 <= List.length h / 2)%nat by (apply Nat.div_le_lower_bound; lia).
  lia.
Qed.

Lemma cycle_two_detected pre a b :
  (6 <= List.length (pre ++ [a; b; a; b]))%nat ->
  cycleLoop 3 2 (pre ++ [a; b; a; b]) = Some (cycle_message 2).
Proof.
  intros Hlen. cbn [cycleLoop]. rewrite (half_bound _ Hlen).
  change (2 * 2)%nat with 4%nat.
  rewrite (slice_last_app 4 pre [a; b; a; b] eq_refl).
  cbn [Nat.leb firstn skipn]. rewrite bool_decide_eq_true_2; reflexivity.
Qed.

Lemma cycle_three_detected pre a b c :
  ~ (a = b /\ b = c) ->
  cycleLoop 3 2 (pre ++ [a; b; c; a; b; c]) = Some (cycle_message 3).
Proof.
  intros Hne.
  assert (Hlen : (6 <= List.length (pre ++ [a; b; c; a; b; c]))%nat)
    by (rewrite List.length_app; simpl; lia).
  cbn [cycleLoop]. rewrite (half_bound _ Hlen).
  change (2 * 2)%nat with 4%nat. change (3 * 2)%nat with 6%nat.
  replace (pre ++ [a; b; c; a; b; c])%list with ((pre ++ [a; b]) ++ [c; a; b; c])%list
    by (rewrite <- app_assoc; reflexivity).
  rewrite (slice_last_app 4 (pre ++ [a; b]) [c; a; b; c] eq_refl).
  cbn [Nat.leb firstn skipn].
  rewrite bool_decide_eq_false_2.
  - rewrite <- app_assoc. cbn [app].
    rewrite (slice_last_app 6 pre [a; b; c; a; b; c] eq_refl).
    cbn [firstn skipn]. rewrite bool_decide_eq_true_2; reflexivity.
  - intros Heq. injection Heq as H1 H2. apply Hne. split; congruence.
Qed.

(** C4, as stated, fails: the four-entry history A B A B ends in two
    identical halves of length 2, its last three entries are not all the
    same, and [checkForLoop] returns null. *)
Lemma abab_alone_is_not_detected :
  slice_last 4 ["A"; "B"; "A"; "B"] = ["A"; "B"] ++ ["A"; "B"] /\
  distinct_count (slice_last 3 ["A"; "B"; "A"; "B"]) <> 1%nat /\
  checkForLoop (mkLoopDetector ["A"; "B"; "A"; "B"]) = None.
Proof. vm_compute. repeat split; try reflexivity. discriminate. Qed.

(** C4, amended: a history whose last 3 signatures are identical makes
    [checkForLoop] return "Same action repeated 3 times"; and for a cycle
    length L in {2, 3}, whenever the history holds at least 6 signatures,
    its last 2L signatures consist of two identical halves and its last
    three are not all the same, [checkForLoop] returns "Detected repeating
    cycle of length L". *)
Theorem loop_reasons_from_six_entries
    (pre half : list string) (x : string) (L : nat)
    (HL : L = 2%nat \/ L = 3%nat)
    (Hhalf : List.length half = L)
    (Hsix : (6 <= List.length (pre ++ half ++ half))%nat)
    (Hdiff : distinct_count (slice_last 3 (pre ++ half ++ half)) <> 1%nat) :
  checkForLoop (mkLoopDetector (pre ++ [x; x; x])) = Some "Same action repeated 3 times" /\
  slice_last (2 * L) (pre ++ half ++ half) = half ++ half /\
  checkForLoop (mkLoopDetector (pre ++ half ++ half)) = Some (cycle_message L) /\
  cycle_message 2 = "Detected repeating cycle of length 2" /\
  cycle_message 3 = "Detected repeating cycle of length 3".
Proof.
  split; [apply exact_repeat_detected|].
  split; [apply slice_last_app; rewrite List.length_app; lia|].
  split; [|split; reflexivity].
  rewrite (checkForLoop_long _ Hsix Hdiff).
  destruct HL as [-> | ->].
  - destruct half as [|a [|b [|? ?]]]; try discriminate Hhalf.
    apply cycle_two_detected. exact Hsix.
  - destruct half as [|a [|b [|c [|? ?]]]]; try discriminate Hhalf.
    apply cycle_three_detected.
    intros [-> ->]. apply Hdiff.
    replace (pre ++ [c; c; c] ++ [c; c; c])%list with ((pre ++ [c; c; c]) ++ [c; c; c])%list
      by (rewrite <- app_assoc; reflexivity).
    rewrite (slice_last_app 3 _ [c; c; c] eq_refl).
    apply distinct_count_three. auto.
Qed.

Lemma loop_reasons_from_six_entries_witness :
  checkForLoop (mkLoopDetector ([] ++ ["A"; "A"; "A"])) = Some "Same action repeated 3 times" /\
  slice_last (2 * 2) (["A"; "B"] ++ ["A"; "B"] ++ ["A"; "B"]) = ["A"; "B"] ++ ["A"; "B"] /\
  checkForLoop (mkLoopDetector (["A"; "B"] ++ ["A"; "B"] ++ ["A"; "B"]))
    = Some (cycle_message 2) /\
  cycle_message 2 = "Detected repeating cycle of length 2" /\
  cycle_message 3 = "Detected repeating cycle of length 3".
Proof.
  pose proof (loop_reasons_from_six_entries ["A"; "B"] ["A"; "B"] "A" 2) as H.
  assert (H1 : checkForLoop (mkLoopDetector ([] ++ ["A"; "A"; "A"]))
               = Some "Same action repeated 3 times") by reflexivity.
  destruct H as [_ H2].
  - left. reflexivity.
  - reflexivity.
  - simpl. lia.
  - vm_compute. discriminate.
  - split; [exact H1|exact H2].
Defined.

End LoopProps.

(** ** The LLM client: tool-call assembly and retry *)
Module ClientProps.
Import Json Client.
Local Open Scope list_scope.

Section Parser.
Variable parse : string -> option json.

Lemma stepToolCall_progress m d :
  Forall (fun e => is_progress e = true) (snd (stepToolCall m d)).
Proof.
  unfold stepToolCall.
  destruct (map_get (index d) m); destruct (truthy_opt_string (function_name d));
    destruct (truthy_opt_string (function_arguments d)); simpl;
    repeat constructor.
Qed.

Lemma stepToolCalls_progress ds : forall m,
  Forall (fun e => is_progress e = true) (snd (stepToolCalls m ds)).
Proof.
  induction ds as [|d rest IH]; intros m; simpl; [constructor|].
  pose proof (stepToolCall_progress m d) as H1.
  destruct (stepToolCall m d) as [m1 ev1]. specialize (IH m1).
  destruct (stepToolCalls m1 rest) as [m2 ev2]. simpl in *.
  apply Forall_app. split; assumption.
Qed.

Lemma stepChunk_progress st c :
  Forall (fun e => is_progress e = true) (snd (stepChunk st c)).
Proof.
  unfold stepChunk. destruct (choices c) as [[|choice rest]|]; simpl; try constructor.
  pose proof (stepToolCalls_progress (default [] (delta_tool_calls choice)) (st_toolCalls st)) as H.
  destruct (delta_tool_calls choice) as [ds|]; simpl in H.
  - destruct (stepToolCalls (st_toolCalls st) ds) as [m1 evs]. simpl in *.
    apply Forall_app. split; [|exact H].
    destruct (truthy_opt_string (delta_content choice)); repeat constructor.
  - simpl. apply Forall_app. split; [|constructor].
    destruct (truthy_opt_string (delta_content choice)); repeat constructor.
Qed.

Lemma stepChunks_progress cs : forall st,
  Forall (fun e => is_progress e = true) (snd (stepChunks st cs)).
Proof.
  induction cs as [|c rest IH]; intros st; simpl; [constructor|].
  pose proof (stepChunk_progress st c) as H1.
  destruct (stepChunk st c) as [st1 ev1]. specialize (IH st1).
  destruct (stepChunks st1 rest) as [st2 ev2]. simpl in *.
  apply Forall_app. split; assumption.
Qed.

(** Events that come from chunks are of none of the closing kinds. *)
Lemma progress_filtered ty evs :
  is_progress (mkStreamEvent ty None None None None None None) = false ->
  Forall (fun e => is_progress e = true) evs ->
  List.filter (has_type ty) evs = [].
Proof.
  intros Hty Hall. induction Hall as [|e evs He _ IH]; [reflexivity|].
  simpl. rewrite IH. unfold has_type, is_progress in *. simpl in Hty.
  destruct (type e), ty; simpl in *; congruence.
Qed.

Lemma completes_kept (m : list (Z * Assembled)) :
  List.filter (has_type TOOL_CALL_COMPLETE) (map (fun kv => completeEvent parse (snd kv)) m)
  = map (fun kv => completeEvent parse (snd kv)) m.
Proof. induction m as [|kv m IH]; simpl; [reflexivity|]. now rewrite IH. Qed.

Lemma completes_not_errors (m : list (Z * Assembled)) :
  List.filter (has_type ERROR) (map (fun kv => completeEvent parse (snd kv)) m) = [].
Proof. induction m as [|kv m IH]; simpl; [reflexivity|]. exact IH. Qed.

(** What [parseToolCallArguments] attaches, by the three kinds of argument
    string. *)
Lemma parse_arguments_cases s :
  (s = "" -> parseToolCallArguments parse s = JObj []) /\
  (s <> "" -> parse s = None ->
     parseToolCallArguments parse s = JObj [("raw_arguments", JStr s)]) /\
  (s <> "" -> forall v, parse s = Some v -> parseToolCallArguments parse s = v).
Proof.
  unfold parseToolCallArguments. destruct s as [|c s]; simpl.
  - repeat split; congruence.
  - repeat split; try congruence.
    + intros _ H. now rewrite H.
    + intros _ v H. now rewrite H.
Qed.

End Parser.

(** C7, as stated, fails on the empty argument string: it does not parse
    as JSON, and what is attached is the empty object, not the wrapper. A
    tool call streamed without arguments completes with [{}]. *)
Lemma empty_arguments_attach_empty_object :
  JSON_parse "" = None /\
  parseToolCallArguments JSON_parse "" = JObj [] /\
  JObj [] <> JObj [("raw_arguments", JStr "")] /\
  List.filter (has_type TOOL_CALL_COMPLETE)
    (fst (streamResponse JSON_parse
       (mkStreamReply
          [mkChunk None (Some [mkChoice (Some "tool_calls") None
             (Some [mkToolCallChunk 0 (Some "call_1") (Some "list_dir") None])])]
          None)))
  = [event_complete (mkToolCall "call_1" (Some "list_dir") (JObj []))].
Proof. vm_compute. repeat split; try reflexivity. discriminate. Qed.

(** C7, amended: at the end of a stream that did not break, the
    TOOL_CALL_COMPLETE events are, in order, one per assembled tool call;
    the arguments attached are the wrapper [{raw_arguments: s}] when the
    accumulated argument string [s] is not empty and fails to JSON-parse,
    the empty object when [s] is empty, and the parsed value, unchanged,
    when [s] is not empty and parses. *)
Theorem tool_call_complete_arguments
    (parse : string -> option json) (reply : StreamReply)
    (Hended : broken reply = None) :
  let assembled := map snd (st_toolCalls (fst (stepChunks initialState (chunks reply)))) in
  List.filter (has_type TOOL_CALL_COMPLETE) (fst (streamResponse parse reply))
    = map (fun tc => event_complete (mkToolCall (asm_id tc) (Some (asm_name tc))
                                       (parseToolCallArguments parse (asm_arguments tc))))
          assembled /\
  forall tc, In tc assembled ->
    let s := asm_arguments tc in
    (s = "" -> parseToolCallArguments parse s = JObj []) /\
    (s <> "" -> parse s = None ->
       parseToolCallArguments parse s = JObj [("raw_arguments", JStr s)]) /\
    (s <> "" -> forall v, parse s = Some v -> parseToolCallArguments parse s = v).
Proof.
  intros assembled. split.
  - subst assembled. unfold streamResponse.
    pose proof (stepChunks_progress (chunks reply) initialState) as Hp.
    destruct (stepChunks initialState (chunks reply)) as [st evs]. rewrite Hended.
    simpl in *. rewrite !List.filter_app, (progress_filtered TOOL_CALL_COMPLETE evs eq_refl Hp).
    rewrite completes_kept. simpl. rewrite app_nil_r, map_map. reflexivity.
  - intros tc _. apply parse_arguments_cases.
Qed.

Lemma tool_call_complete_arguments_witness :
  List.filter (has_type TOOL_CALL_COMPLETE)
    (fst (streamResponse JSON_parse
       (mkStreamReply
          [mkChunk None (Some [mkChoice None None
             (Some [mkToolCallChunk 0 (Some "call_1") (Some "read_file")
                      (Some Samples.arguments_begin)])]);
           mkChunk None (Some [mkChoice (Some "tool_calls") None
             (Some [mkToolCallChunk 0 None None (Some Samples.arguments_end);
                    mkToolCallChunk 1 (Some "call_2") (Some "grep") (Some "{oops")])])]
          None)))
  = [event_complete (mkToolCall "call_1" (Some "read_file")
                       (JObj [("path", JStr "README.md")]));
     event_complete (mkToolCall "call_2" (Some "grep")
                       (JObj [("raw_arguments", JStr "{oops")]))].
Proof.
  pose proof (tool_call_complete_arguments JSON_parse
    (mkStreamReply
          [mkChunk None (Some [mkChoice None None
             (Some [mkToolCallChunk 0 (Some "call_1") (Some "read_file")
                      (Some Samples.arguments_begin)])]);
           mkChunk None (Some [mkChoice (Some "tool_calls") None
             (Some [mkToolCallChunk 0 None None (Some Samples.arguments_end);
                    mkToolCallChunk 1 (Some "call_2") (Some "grep") (Some "{oops")])])]
          None) eq_refl) as [H _].
  rewrite H. vm_compute. reflexivity.
Defined.

Section Retry.
Variable parse : string -> option json.
Variable stream : bool.
Variable provider : nat -> Reply stream.

Lemma sleeps_app a b : sleeps (a ++ b) = sleeps a ++ sleeps b.
Proof. unfold sleeps. apply flat_map_app. Qed.

Lemma yields_app a b : yields (a ++ b) = yields a ++ yields b.
Proof. unfold yields. apply flat_map_app. Qed.

Lemma errorsOf_app a b : errorsOf (a ++ b) = errorsOf a ++ errorsOf b.
Proof. unfold errorsOf. now rewrite yields_app, List.filter_app. Qed.

Lemma sleeps_yielded evs : sleeps (map Yield evs) = [].
Proof. induction evs as [|e evs IH]; simpl; [reflexivity|exact IH]. Qed.

Lemma yields_yielded evs : yields (map Yield evs) = evs.
Proof. induction evs as [|e evs IH]; simpl; [reflexivity|now rewrite IH]. Qed.

(** No attempt yields an ERROR event by itself. *)
Lemma tryBody_no_error (reply : Reply stream) :
  errorsOf (map Yield (fst (tryBody parse stream reply))) = [].
Proof.
  unfold errorsOf. rewrite yields_yielded. clear provider.
  destruct stream; simpl in *.
  - unfold streamResponse.
    pose proof (stepChunks_progress (chunks reply) initialState) as Hp.
    destruct (stepChunks initialState (chunks reply)) as [st evs].
    simpl in Hp. pose proof (progress_filtered ERROR evs eq_refl Hp) as He.
    destruct (broken reply); simpl; [exact He|].
    rewrite !List.filter_app, He, completes_not_errors. reflexivity.
  - destruct reply; reflexivity.
Qed.

(** One iteration of the retry loop. *)
Lemma retryLoop_step fuel attempt :
  (attempt <= 3)%nat ->
  retryLoop parse stream provider (S fuel) attempt =
    map Yield (fst (tryBody parse stream (provider attempt))) ++
    match thrownAt parse stream provider attempt with
    | None => []
    | Some e =>
        if retryable e && (attempt <? 3)%nat
        then Sleep (2 ^ Z.of_nat attempt * 1000)
               :: retryLoop parse stream provider fuel (S attempt)
        else [Yield (event_error (errorText e))]
    end.
Proof.
  intros Hle. cbn [retryLoop]. unfold maxRetries, thrownAt, retryable.
  apply Nat.leb_le in Hle. rewrite Hle.
  destruct (tryBody parse stream (provider attempt)) as [evs [e|]]; simpl; [|reflexivity].
  destruct (isRateLimit e), (isConnectionError e), (attempt <? 3)%nat; reflexivity.
Qed.

Lemma errorsOf_sleep ms tr : errorsOf (Sleep ms :: tr) = errorsOf tr.
Proof. reflexivity. Qed.

Lemma sleeps_sleep ms tr : sleeps (Sleep ms :: tr) = ms :: sleeps tr.
Proof. reflexivity. Qed.

(** Traces that end in one ERROR event and hold no other. *)
Lemma ends_in_error_base e :
  exists pre, [Yield (event_error e)] = pre ++ [Yield (event_error e)] /\ errorsOf pre = [].
Proof. exists []. split; reflexivity. Qed.

Lemma ends_in_error_app e a tr :
  errorsOf a = [] ->
  (exists pre, tr = pre ++ [Yield (event_error e)] /\ errorsOf pre = []) ->
  exists pre, a ++ tr = pre ++ [Yield (event_error e)] /\ errorsOf pre = [].
Proof.
  intros Ha [pre [-> Hpre]]. exists (a ++ pre). split.
  - apply app_assoc.
  - rewrite errorsOf_app, Ha, Hpre. reflexivity.
Qed.

Lemma ends_in_error_sleep e ms tr :
  (exists pre, tr = pre ++ [Yield (event_error e)] /\ errorsOf pre = []) ->
  exists pre, Sleep ms :: tr = pre ++ [Yield (event_error e)] /\ errorsOf pre = [].
Proof.
  intros [pre [-> Hpre]]. exists (Sleep ms :: pre). split; [reflexivity|exact Hpre].
Qed.

End Retry.

(** One more attempt: it succeeded, failed for good, or is retried. *)
Ltac next_attempt parse stream provider i :=
  rewrite (retryLoop_step parse stream provider _ i) by lia;
  let e := fresh "e" in let T := fresh "T" in let R := fresh "R" in
  destruct (thrownAt parse stream provider i) as [e|] eqn:T;
    [destruct (retryable e) eqn:R|]; cbn [andb Nat.ltb Nat.leb].

Ltac earlier_failed :=
  let i := fresh "i" in let Hi := fresh "Hi" in
  intros i Hi;
  repeat (destruct i as [|i]; [eexists; split; [eassumption|assumption]|]); lia.

Ltac settle Hne :=
  split; [lia|];
  split; [earlier_failed|];
  split; [repeat (rewrite ?sleeps_app, ?sleeps_yielded, ?sleeps_sleep; cbn [app]); reflexivity|];
  repeat match goal with
         | H : thrownAt _ _ _ ?i = _ |- context [thrownAt _ _ _ ?i] => rewrite H
         end;
  first
    [ split;
      [first [left; assumption | right; reflexivity]|
       repeat first
         [ apply ends_in_error_base
         | apply ends_in_error_sleep
         | apply ends_in_error_app; [apply Hne|] ]]
    | repeat (rewrite ?errorsOf_app, ?errorsOf_sleep, ?Hne; cbn [app]); reflexivity ].

(** C8: the attempts before the last one, [k] of them and at most 3, all
    failed with a rate-limit or connection error and were each followed by
    a wait: 1 s, 2 s and 4 s in this order; when the last attempt fails
    (with an error that is not retried, or as the fourth attempt), the
    trace ends with one ERROR event and holds no other; when it succeeds,
    no ERROR event is yielded. *)
Theorem retry_policy
    (parse : string -> option json) (stream : bool) (provider : nat -> Reply stream) :
  let thrown := thrownAt parse stream provider in
  let k := finalAttempt thrown maxRetries 0 in
  let tr := chatCompletion parse stream provider in
  (k <= 3)%nat /\
  (forall i, (i < k)%nat -> exists e, thrown i = Some e /\ retryable e = true) /\
  sleeps tr = firstn k [1000; 2000; 4000]%Z /\
  match thrown k with
  | None => errorsOf tr = []
  | Some e =>
      (retryable e = false \/ k = 3%nat) /\
      exists pre, tr = pre ++ [Yield (event_error (errorText e))] /\ errorsOf pre = []
  end.
Proof.
  intros thrown k tr. subst thrown k tr. unfold chatCompletion, maxRetries.
  pose proof (tryBody_no_error parse stream) as Hne.
  cbn [finalAttempt].
  next_attempt parse stream provider 0%nat; [|settle Hne..].
  next_attempt parse stream provider 1%nat; [|settle Hne..].
  next_attempt parse stream provider 2%nat; [|settle Hne..].
  next_attempt parse stream provider 3%nat; settle Hne.
Qed.

(** Three rate-limit errors and then an answer: waits of 1, 2 and 4
    seconds and no ERROR event; a fourth error in a row ends the stream
    with the ERROR event alone. *)
Example three_retries_then_answer :
  sleeps (chatCompletion JSON_parse true (Samples.flaky_provider 3)) = [1000; 2000; 4000]%Z /\
  map type (yields (chatCompletion JSON_parse true (Samples.flaky_provider 3)))
    = [TEXT_DELTA; MESSAGE_COMPLETE] /\
  sleeps (chatCompletion JSON_parse true (Samples.flaky_provider 4)) = [1000; 2000; 4000]%Z /\
  yields (chatCompletion JSON_parse true (Samples.flaky_provider 4))
    = [event_error "API error: Too Many Requests"].
Proof. vm_compute. repeat split; reflexivity. Qed.

End ClientProps.

(** ** The sub-agent tool *)
Module SubagentProps.
Import Tools Subagent Samples.
Local Open Scope Z_scope.

(** The result is a success exactly when the goal is given and the
    [error] local is not set at the end. *)
Lemma execute_success def goal run :
  success (execute def goal run) =
    truthy_string goal && negb (truthy_opt_string (error (supervise def run))).
Proof.
  unfold execute. destruct (truthy_string goal); simpl; [|reflexivity].
  destruct (truthy_opt_string (error (supervise def run))); reflexivity.
Qed.

(** Leaving the loop on the deadline does not set [error]. *)
Lemma watch_timeout_keeps_error deadline events : forall st,
  terminateResponse st <> "timeout" ->
  terminateResponse (fst (watch deadline events st)) = "timeout" ->
  error (fst (watch deadline events st)) = error st.
Proof.
  induction events as [|[now event] rest IH]; intros st Hst Hend; simpl in *.
  - contradiction.
  - destruct (deadline <? now); simpl in *; [reflexivity|].
    destruct event; simpl in *; try (now apply IH); try discriminate.
    + rewrite IH; [reflexivity|exact Hst|exact Hend].
    + rewrite IH; [reflexivity|exact Hst|exact Hend].
    + destruct (finalResponse st); [now apply IH|].
      rewrite IH; [reflexivity|exact Hst|exact Hend].
Qed.

(** Whenever the run ends on the deadline, the result is a success. *)
Lemma timeout_is_success def goal run :
  truthy_string goal = true ->
  terminateResponse (supervise def run) = "timeout" ->
  success (execute def goal run) = true.
Proof.
  intros Hg Ht. rewrite execute_success, Hg. simpl.
  unfold supervise in *. destruct (startup run); [discriminate Ht|].
  pose proof (watch_timeout_keeps_error
                (started run + or_number (timeoutSeconds def) 600 * 1000)
                (arrivals run) initialLocals) as Hw.
  destruct (watch _ (arrivals run) initialLocals) as [st broke]. simpl in *.
  destruct (close_failure run); [discriminate Ht|].
  destruct (if broke then None else stream_failure run); [discriminate Ht|].
  rewrite Hw; [reflexivity|discriminate|exact Ht].
Qed.

(** When an agent error ends the run, or a nested run fails with an error
    that has a text, the result is a failure that names the reason. *)
Example error_run_fails :
  terminateResponse (supervise investigator failing_run) = "error" /\
  success (execute investigator "find the parser" failing_run) = false.
Proof. vm_compute. split; reflexivity. Qed.

Example goal_run_succeeds :
  terminateResponse (supervise investigator good_run) = "goal" /\
  success (execute investigator "find the parser" good_run) = true.
Proof. vm_compute. split; reflexivity. Qed.

(** C2 at the failing input: the sub-agent's third event arrives after the
    deadline, the termination reason is "timeout", the text reports it, and
    the result has [success = true] where the specification (and the project's own
    description of the tool) has [success = false]. *)
Theorem timeout_run_reports_success :
  terminateResponse (supervise investigator slow_run) = "timeout" /\
  execute investigator "find the parser" slow_run =
    successResult
      ("Sub-agent 'codebase_investigator' completed." ++ nl ++
       "Termination: timeout" ++ nl ++
       "Tools called: grep" ++ nl ++ nl ++
       "Result:" ++ nl ++ "Sub-agent timed out" ++ nl) [] None /\
  success (execute investigator "find the parser" slow_run) = true.
Proof. vm_compute. repeat split; reflexivity. Qed.

End SubagentProps.

(** ** The invocation pipeline of the registry *)
Module RegistryProps.
Import Json Tools Approval Registry Samples.
Local Open Scope list_scope.

Lemma bind_ok {A B} (t : list Effect) (a : A) (f : A -> M B) :
  bind (t, Ok a) f = (t ++ fst (f a), snd (f a)).
Proof. simpl. destruct (f a). reflexivity. Qed.

Lemma finish_trace nm params result :
  finish nm params result = ([AfterTool nm params result], Ok result).
Proof. reflexivity. Qed.

(** An unknown tool and invalid parameters: [afterTool] alone fires. *)
Lemma invoke_unknown reg nm params cwd am :
  get reg nm = None ->
  exists result,
    invoke reg nm params cwd am = ([AfterTool nm params result], Ok result) /\
    success result = false.
Proof. intros H. unfold invoke. rewrite H. eexists. split; reflexivity. Qed.

Lemma invoke_invalid reg nm params cwd am tool :
  get reg nm = Some tool ->
  validateParams tool params <> [] ->
  exists result,
    invoke reg nm params cwd am = ([AfterTool nm params result], Ok result) /\
    success result = false.
Proof.
  intros H Hv. unfold invoke. rewrite H.
  destruct (validateParams tool params) as [|err errs]; [contradiction|].
  simpl. eexists. split; reflexivity.
Qed.

(** The approval block, when neither the tool's confirmation nor the
    confirmation callback throws: it fires [afterTool] once when it
    returns early and nothing otherwise. *)
Lemma approvalGate_total tool nm params inv am :
  (forall e, getConfirmation tool inv <> Threw e) ->
  (forall mgr conf e, am = Some mgr -> requestConfirmation mgr conf <> Threw e) ->
  (exists result,
     approvalGate tool nm params inv am = ([AfterTool nm params result], Ok (Some result)) /\
     success result = false) \/
  approvalGate tool nm params inv am = ([], Ok None).
Proof.
  intros Hconf Hcb. unfold approvalGate. destruct am as [mgr|]; [|right; reflexivity].
  destruct (getConfirmation tool inv) as [[conf|]|e] eqn:Hg;
    [| right; reflexivity | exfalso; apply (Hconf e); reflexivity].
  unfold await. rewrite bind_ok. cbn [fst snd app].
  destruct (checkApproval mgr _).
  - right. reflexivity.
  - left. eexists. split; reflexivity.
  - destruct (requestConfirmation mgr conf) as [[|]|e] eqn:Hr.
    + right. reflexivity.
    + left. eexists. split; reflexivity.
    + exfalso. apply (Hcb mgr conf e); [reflexivity|exact Hr].
Qed.

(** Hook pairing, for calls in which the confirmation step does not throw:
    [invoke] returns a result; [beforeTool] fires exactly when lookup and
    validation succeed, and then first; [afterTool] fires once, last, with
    the result returned; [execute] runs between them unless approval
    refused the call. *)
Lemma invoke_hooks_paired reg nm params cwd am :
  (forall tool e, get reg nm = Some tool ->
     getConfirmation tool (mkToolInvocation params cwd) <> Threw e) ->
  (forall mgr conf e, am = Some mgr -> requestConfirmation mgr conf <> Threw e) ->
  exists result,
    snd (invoke reg nm params cwd am) = Ok result /\
    let passed := match get reg nm with
                  | Some tool => Nat.eqb (List.length (validateParams tool params)) 0
                  | None => false
                  end in
    if passed then
      fst (invoke reg nm params cwd am) = [BeforeTool nm params; AfterTool nm params result] \/
      fst (invoke reg nm params cwd am) =
        [BeforeTool nm params; Execute nm (mkToolInvocation params cwd);
         AfterTool nm params result]
    else fst (invoke reg nm params cwd am) = [AfterTool nm params result].
Proof.
  intros Hconf Hcb. unfold invoke.
  destruct (get reg nm) as [tool|] eqn:Hget; [|eexists; split; reflexivity].
  destruct (validateParams tool params) as [|err errs] eqn:Hval;
    [|eexists; split; reflexivity].
  cbn [List.length Nat.ltb Nat.leb Nat.eqb]. unfold fire. rewrite bind_ok.
  destruct (approvalGate_total tool nm params (mkToolInvocation params cwd) am
              (fun e => Hconf tool e eq_refl) Hcb) as [[result [Hgate _]]|Hgate];
    rewrite Hgate, bind_ok; cbn [fst snd app ret].
  - exists result. split; [reflexivity|]. left. reflexivity.
  - rewrite bind_ok.
    destruct (execute tool (mkToolInvocation params cwd)) as [result|e];
      rewrite finish_trace; cbn [fst snd app];
      eexists; (split; [reflexivity|]); right; reflexivity.
Qed.

(** C6 at the failing input: an [edit] call on a path that is a directory
    passes lookup and validation, [beforeTool] fires, the tool's
    [getConfirmation] throws while reading the path, and [invoke] throws
    in turn: no [afterTool] fires and no result is returned. *)
Theorem edit_of_directory_skips_afterTool :
  is_some (get sample_registry "edit") = true /\
  Builtin.validateEdit edit_src = [] /\
  invoke sample_registry "edit" edit_src "/home/u" (Some (manager ON_REQUEST)) =
    ([BeforeTool "edit" edit_src],
     Threw "EISDIR: illegal operation on a directory, read").
Proof. vm_compute. repeat split; reflexivity. Qed.

(** A read-only tool call: [beforeTool], [execute], [afterTool], in this
    order, and the tool's result is returned. *)
Example read_file_call_is_bracketed :
  invoke sample_registry "read_file" (JObj [("path", JStr "README.md")]) "/home/u"
    (Some (manager ON_REQUEST))
  = ([BeforeTool "read_file" (JObj [("path", JStr "README.md")]);
      Execute "read_file"
        (mkToolInvocation (JObj [("path", JStr "README.md")]) "/home/u");
      AfterTool "read_file" (JObj [("path", JStr "README.md")])
        (successResult "hello world" [] None)],
     Ok (successResult "hello world" [] None)).
Proof. vm_compute. reflexivity. Qed.

(** An unknown tool: [afterTool] alone, with the error result. *)
Example unknown_tool_call :
  fst (invoke sample_registry "nope" (JObj []) "/home/u" None)
  = [AfterTool "nope" (JObj [])
       (errorResult "Unknown tool: nope" "" [("tool_name", JStr "nope")])].
Proof. vm_compute. reflexivity. Qed.

End RegistryProps.

(** ** The context manager: pruning of tool outputs *)
Module ContextProps.
Import Context.
Local Open Scope Z_scope.
Local Open Scope list_scope.

Section Pruning.
Variable model : string.
Variable ms : list MessageItem.

Lemma userCount_filter : List.length (filter (fun m => is_user m = true) ms) = userCount ms.
Proof.
  unfold userCount. induction ms as [|m l IH]; [reflexivity|].
  rewrite filter_cons. simpl. destruct (is_user m) eqn:E.
  - rewrite decide_True by reflexivity. simpl. now rewrite IH.
  - rewrite decide_False by discriminate. exact IH.
Qed.

Lemma reached_step i msg :
  ms !! i = Some msg ->
  reached ms i = negb (is_pruned_tool msg) && reached ms (S i).
Proof.
  intros H. unfold reached. rewrite (drop_S _ _ _ H). simpl.
  now rewrite negb_orb.
Qed.

Lemma accumulated_step i msg :
  ms !! i = Some msg ->
  accumulated model ms i = tool_tokens model msg + accumulated model ms (S i).
Proof. intros H. unfold accumulated. now rewrite (drop_S _ _ _ H). Qed.

Lemma reached_end : reached ms (List.length ms) = true.
Proof. unfold reached. now rewrite drop_all. Qed.

Lemma accumulated_end : accumulated model ms (List.length ms) = 0.
Proof. unfold accumulated. now rewrite drop_all. Qed.

(** Once the scan has stopped, it reaches no older position. *)
Lemma not_reached_below i j :
  reached ms i = false -> (j <= i)%nat -> reached ms j = false.
Proof.
  unfold reached. intros Hi Hj.
  rewrite <- (take_drop (i - j) (drop j ms)), drop_drop.
  replace (j + (i - j))%nat with i by lia.
  rewrite existsb_app. apply negb_false_iff in Hi. rewrite Hi, orb_true_r. reflexivity.
Qed.

Lemma candidate_not_reached i : reached ms i = false -> candidate model ms i = false.
Proof.
  intros H. unfold candidate. destruct (ms !! i); [|reflexivity].
  rewrite H, andb_false_r. reflexivity.
Qed.

Lemma candidates_below_S n :
  candidates_below model ms (S n) =
    if candidate model ms n then n :: candidates_below model ms n
    else candidates_below model ms n.
Proof.
  unfold candidates_below. rewrite seq_S, rev_app_distr. reflexivity.
Qed.

Lemma candidates_below_stopped n :
  reached ms n = false -> candidates_below model ms (S n) = [].
Proof.
  intros H. induction n as [|n IH].
  - rewrite candidates_below_S, (candidate_not_reached _ H). reflexivity.
  - rewrite candidates_below_S, (candidate_not_reached _ H).
    apply IH. apply (not_reached_below (S n)); [exact H|lia].
Qed.

Lemma sum_tokens_cons i l :
  sum_tokens model ms (i :: l) = tokens_at model ms i + sum_tokens model ms l.
Proof. reflexivity. Qed.

(** The scanning loop, from a position the scan has reached: it adds the
    candidates below that position, newest first, with their tokens. *)
Lemma scanMessages_spec n : forall st,
  (n <= List.length ms)%nat ->
  reached ms n = true ->
  totalTokens st = accumulated model ms n ->
  toPrune (scanMessages model ms n st) = toPrune st ++ candidates_below model ms n /\
  prunedTokens (scanMessages model ms n st) =
    prunedTokens st + sum_tokens model ms (candidates_below model ms n).
Proof.
  induction n as [|i IH]; intros st Hlen Hreach Htotal.
  - simpl. rewrite app_nil_r. unfold candidates_below, sum_tokens. simpl. split; [reflexivity|lia].
  - destruct (lookup_lt_is_Some_2 ms i ltac:(lia)) as [msg Hmsg].
    cbn [scanMessages]. rewrite Hmsg.
    pose proof (reached_step i msg Hmsg) as Hr.
    pose proof (accumulated_step i msg Hmsg) as Ha.
    unfold is_pruned_tool, tool_tokens in *.
    destruct (is_tool_result msg) eqn:Htool.
    + destruct (is_some (prunedAt msg)) eqn:Hp.
      * cbn [negb andb] in Hr. rewrite (candidates_below_stopped i Hr), app_nil_r.
        unfold sum_tokens. simpl. split; [reflexivity|lia].
      * cbn [negb andb] in Hr.
        assert (Hc : candidate model ms i =
                     (PRUNE_PROTECT_TOKENS <? totalTokens st + message_tokens model msg)).
        { unfold candidate. rewrite Hmsg, Htool, Hr, Hreach, Ha, Htotal. simpl.
          f_equal. lia. }
        rewrite candidates_below_S, Hc.
        assert (Hi : (i <= List.length ms)%nat) by lia.
        assert (Hri : reached ms i = true) by (now rewrite Hr).
        destruct (PRUNE_PROTECT_TOKENS <? totalTokens st + message_tokens model msg).
        -- destruct (IH (mkPruneScan (totalTokens st + message_tokens model msg)
                           (prunedTokens st + message_tokens model msg)
                           (toPrune st ++ [i])) Hi Hri) as [H1 H2].
           { cbn [totalTokens]. rewrite Htotal, Ha. lia. }
           rewrite H1, H2. cbn [toPrune prunedTokens].
           rewrite <- app_assoc. split; [reflexivity|].
           rewrite sum_tokens_cons. unfold tokens_at at 1. rewrite Hmsg. lia.
        -- destruct (IH (mkPruneScan (totalTokens st + message_tokens model msg)
                           (prunedTokens st) (toPrune st)) Hi Hri) as [H1 H2].
           { cbn [totalTokens]. rewrite Htotal, Ha. lia. }
           rewrite H1, H2. split; reflexivity.
    + cbn [negb andb] in Hr.
      assert (Hc : candidate model ms i = false)
        by (unfold candidate; now rewrite Hmsg, Htool).
      rewrite candidates_below_S, Hc.
      apply IH; [lia|now rewrite Hr|rewrite Htotal, Ha; lia].
Qed.

End Pruning.

Section Clearing.
Variable model : string.
Variable clock : nat -> Z.

(** The clearing loop over distinct positions: the messages at these
    positions are cleared, each once, and every other one is kept. *)
Lemma clearAll_spec positions : forall count l,
  List.NoDup positions ->
  snd (clearAll model clock count positions l) = (count + List.length positions)%nat /\
  List.length (fst (clearAll model clock count positions l)) = List.length l /\
  forall i msg, l !! i = Some msg ->
    (~ In i positions -> fst (clearAll model clock count positions l) !! i = Some msg) /\
    (In i positions ->
       exists k, (k < List.length positions)%nat /\
         fst (clearAll model clock count positions l) !! i
           = Some (clearMessage model (clock (count + k)%nat) msg)).
Proof.
  induction positions as [|p rest IH]; intros count l Hnd.
  - simpl. repeat split; try lia; intros; try tauto; try contradiction.
  - inversion Hnd as [|? ? Hp Hrest]; subst.
    cbn [clearAll].
    destruct (IH (S count) (alter (clearMessage model (clock count)) p l) Hrest)
      as [Hn [Hlen Hat]].
    split; [rewrite Hn; simpl; lia|].
    split; [rewrite Hlen; apply length_alter|].
    intros i msg Hi. split.
    + intros Hnot. apply Hat; [|intros Hin'; apply Hnot; right; exact Hin'].
      rewrite list_lookup_alter_ne; [exact Hi|].
      intros ->. apply Hnot. left. reflexivity.
    + intros [->|Hin].
      * exists 0%nat. split; [simpl; lia|]. rewrite Nat.add_0_r.
        apply Hat; [|exact Hp]. rewrite list_lookup_alter_eq, Hi. reflexivity.
      * assert (Hne : p <> i) by (intros ->; contradiction).
        destruct (Hat i msg) as [_ Hcl]; [rewrite list_lookup_alter_ne; assumption|].
        destruct (Hcl Hin) as [k [Hk Hres]]. exists (S k). split; [simpl; lia|].
        rewrite Hres. do 3 f_equal. lia.
Qed.

End Clearing.

Lemma candidates_below_NoDup model ms n : List.NoDup (candidates_below model ms n).
Proof.
  unfold candidates_below. apply List.NoDup_filter, List.NoDup_rev, List.seq_NoDup.
Qed.

Lemma candidates_In model ms i :
  In i (candidates model ms) <-> candidate model ms i = true.
Proof.
  unfold candidates, candidates_below. rewrite filter_In, <- in_rev, in_seq.
  split; [tauto|]. intros H. split; [|exact H].
  unfold candidate in H. destruct (ms !! i) eqn:E; [|discriminate].
  apply lookup_lt_Some in E. lia.
Qed.

Lemma with_messages_same cm : with_messages cm (messages cm) = cm.
Proof. destruct cm. reflexivity. Qed.

(** What the scan collects over the whole list. *)
Lemma scan_collects model ms :
  toPrune (scanMessages model ms (List.length ms) (mkPruneScan 0 0 [])) = candidates model ms /\
  prunedTokens (scanMessages model ms (List.length ms) (mkPruneScan 0 0 []))
    = candidate_total model ms.
Proof.
  destruct (scanMessages_spec model ms (List.length ms) (mkPruneScan 0 0 []))
    as [H1 H2]; [lia|apply reached_end|symmetry; apply accumulated_end|].
  rewrite H1, H2. split; reflexivity.
Qed.


(** The three assignments to a pruned message, field by field. *)
Lemma clearMessage_fields model now msg :
  content (clearMessage model now msg) = "[Old tool result content cleared]" /\
  tokenCount (clearMessage model now msg) = Some 8 /\
  prunedAt (clearMessage model now msg) = Some now /\
  role (clearMessage model now msg) = role msg /\
  toolCallId (clearMessage model now msg) = toolCallId msg /\
  toolCalls (clearMessage model now msg) = toolCalls msg.
Proof. repeat split; reflexivity. Qed.

(** The outcome of a call that goes past the user-message guard. *)
Lemma prune_with_two_users clock cm :
  (2 <= userCount (messages cm))%nat ->
  pruneToolOutputs clock cm =
    if candidate_total (modelName cm) (messages cm) <? PRUNE_MINIMUM_TOKENS
    then (cm, 0%nat)
    else (with_messages cm
            (fst (clearAll (modelName cm) clock 0 (candidates (modelName cm) (messages cm))
                    (messages cm))),
          snd (clearAll (modelName cm) clock 0 (candidates (modelName cm) (messages cm))
                 (messages cm))).
Proof.
  intros Hu. unfold pruneToolOutputs. rewrite userCount_filter.
  replace (userCount (messages cm) <? 2)%nat with false
    by (symmetry; apply Nat.ltb_ge; exact Hu).
  destruct (scan_collects (modelName cm) (messages cm)) as [H1 H2].
  rewrite H1, H2.
  destruct (candidate_total (modelName cm) (messages cm) <? PRUNE_MINIMUM_TOKENS);
    [reflexivity|].
  destruct (clearAll _ _ _ _ _). reflexivity.
Qed.

(** C5: [pruneToolOutputs] scans the tool messages newest first up to the
    first one pruned before; its candidates are exactly the tool messages
    it reaches whose accumulated tokens exceed the protected 40,000-token
    tail. It prunes only when the candidates total at least 20,000 tokens
    (and, the guard of C9 apart, whenever they do); pruning clears exactly
    the candidates: content "[Old tool result content cleared]", token
    count recounted, [prunedAt] stamped; every other message, the number
    of messages and the rest of the state are unchanged. *)
Theorem prune_clears_exactly_the_candidates (clock : nat -> Z) (cm : ContextManager) :
  let model := modelName cm in
  let ms := messages cm in
  let after := fst (pruneToolOutputs clock cm) in
  let count := snd (pruneToolOutputs clock cm) in
  after = with_messages cm (messages after) /\
  List.length (messages after) = List.length ms /\
  (count <> 0%nat -> PRUNE_MINIMUM_TOKENS <= candidate_total model ms) /\
  (if (2 <=? userCount ms)%nat && (PRUNE_MINIMUM_TOKENS <=? candidate_total model ms)
   then
     count = List.length (candidates model ms) /\
     forall i msg, ms !! i = Some msg ->
       if candidate model ms i
       then exists k, (k < count)%nat /\
              messages after !! i = Some (clearMessage model (clock k) msg)
       else messages after !! i = Some msg
   else after = cm /\ count = 0%nat) /\
  (forall now msg,
     content (clearMessage model now msg) = "[Old tool result content cleared]" /\
     tokenCount (clearMessage model now msg) = Some (Text.countTokens CLEARED model) /\
     prunedAt (clearMessage model now msg) = Some now).
Proof.
  intros model ms after count. subst model ms after count.
  destruct (Nat.leb_spec 2 (userCount (messages cm))) as [Hu|Hu].
  - rewrite (prune_with_two_users clock cm Hu).
    destruct (clearAll_spec (modelName cm) clock
                (candidates (modelName cm) (messages cm)) 0%nat (messages cm)
                (candidates_below_NoDup _ _ _)) as [Hn [Hlen Hat]].
    destruct (Z.ltb_spec (candidate_total (modelName cm) (messages cm)) PRUNE_MINIMUM_TOKENS)
      as [Hlt|Hge].
    + replace (PRUNE_MINIMUM_TOKENS <=? candidate_total (modelName cm) (messages cm))
        with false by (symmetry; apply Z.leb_gt; exact Hlt).
      cbn [fst snd andb]. rewrite with_messages_same.
      repeat split; try reflexivity. intros H. contradiction.
    + replace (PRUNE_MINIMUM_TOKENS <=? candidate_total (modelName cm) (messages cm))
        with true by (symmetry; apply Z.leb_le; exact Hge).
      cbn [fst snd andb messages with_messages].
      split; [reflexivity|]. split; [exact Hlen|]. split; [intros _; exact Hge|].
      split; [|intros; repeat split; reflexivity].
      split; [rewrite Hn; reflexivity|].
      intros i msg Hi. destruct (Hat i msg Hi) as [Hkeep Hclear].
      destruct (candidate (modelName cm) (messages cm) i) eqn:Hc.
      * apply candidates_In in Hc. destruct (Hclear Hc) as [k [Hk Hres]].
        exists k. split; [rewrite Hn; simpl; exact Hk|exact Hres].
      * apply Hkeep. rewrite candidates_In, Hc. discriminate.
  - unfold pruneToolOutputs. rewrite userCount_filter.
    replace (userCount (messages cm) <? 2)%nat with true
      by (symmetry; apply Nat.ltb_lt; exact Hu).
    cbn [fst snd andb]. rewrite with_messages_same.
    repeat split; try reflexivity. intros H. contradiction.
Qed.

(** The transcript of the pruning-threshold test: of seven tool results of
    10,000 tokens after two user messages, the three oldest are cleared. *)
Example seven_tool_results_three_cleared :
  candidates "gpt-4" (messages Samples.long_transcript) = [4; 3; 2]%nat /\
  snd (pruneToolOutputs Samples.sample_clock Samples.long_transcript) = 3%nat /\
  map prunedAt (messages (fst (pruneToolOutputs Samples.sample_clock Samples.long_transcript)))
    = [None; None; Some 1002; Some 1001; Some 1000; None; None; None; None].
Proof. vm_compute. repeat split; reflexivity. Qed.

(** C9: with fewer than two user-role messages, [pruneToolOutputs] returns
    0 and leaves the manager, and with it every stored message (content,
    token count and [prunedAt]), as it was, whatever tool output is
    present. *)
Theorem prune_needs_two_user_messages (clock : nat -> Z) (cm : ContextManager)
    (Hfew : (userCount (messages cm) < 2)%nat) :
  pruneToolOutputs clock cm = (cm, 0%nat) /\
  messages (fst (pruneToolOutputs clock cm)) = messages cm.
Proof.
  unfold pruneToolOutputs. rewrite userCount_filter.
  replace (userCount (messages cm) <? 2)%nat with true
    by (symmetry; apply Nat.ltb_lt; exact Hfew).
  split; reflexivity.
Qed.

Lemma prune_needs_two_user_messages_witness :
  (userCount (messages Samples.one_user_transcript) < 2)%nat /\
  PRUNE_MINIMUM_TOKENS <= candidate_total "gpt-4" (messages Samples.one_user_transcript) /\
  pruneToolOutputs Samples.sample_clock Samples.one_user_transcript
    = (Samples.one_user_transcript, 0%nat) /\
  messages (fst (pruneToolOutputs Samples.sample_clock Samples.one_user_transcript))
    = messages Samples.one_user_transcript.
Proof.
  split; [vm_compute; lia|].
  split; [vm_compute; discriminate|].
  apply (prune_needs_two_user_messages Samples.sample_clock Samples.one_user_transcript).
  vm_compute. lia.
Defined.

End ContextProps.

(** ** Truncation to a token budget *)
Module TruncateProps.
Import Text Truncate UsageProps.
Local Open Scope Z_scope.

Lemma length_app_string (a b : string) :
  String.length (a ++ b) = (String.length a + String.length b)%nat.
Proof. induction a as [|c a IH]; simpl; [reflexivity|now rewrite IH]. Qed.

Lemma length_substring0 (s : string) : forall m,
  (m <= String.length s)%nat -> String.length (String.substring 0 m s) = m.
Proof.
  induction s as [|c s IH]; intros [|m] H; simpl in *; try reflexivity; try lia.
  rewrite IH; [reflexivity|lia].
Qed.

(** A prefix followed by the rest. *)
Lemma substring0_app (s : string) : forall m,
  exists rest, s = String.substring 0 m s ++ rest.
Proof.
  induction s as [|c s IH]; intros [|m]; simpl.
  - exists "". reflexivity.
  - exists "". reflexivity.
  - exists (String c s). reflexivity.
  - destruct (IH m) as [rest Hr]. exists rest.
    change (String c s = String c (String.substring 0 m s ++ rest)). f_equal. exact Hr.
Qed.

(** The estimate of a text of [m] characters fits [target] exactly when
    [m <= 4 * target + 3], for a target of at least one token. *)
Lemma estimate_fits (s : string) (target : Z) :
  1 <= target ->
  (estimateTokens s <=? target) = (String.length s <=? Z.to_nat (4 * target + 3))%nat.
Proof.
  intros Ht. unfold estimateTokens.
  destruct (Nat.leb_spec (String.length s) (Z.to_nat (4 * target + 3))) as [H|H].
  - apply Z.leb_le. apply Z.max_lub; [exact Ht|].
    apply Z.lt_succ_r, Z.div_lt_upper_bound; lia.
  - apply Z.leb_gt. apply Z.lt_le_trans with (Z.of_nat (String.length s) / 4); [|lia].
    apply Z.lt_le_trans with (target + 1); [lia|].
    apply Z.div_le_lower_bound; lia.
Qed.

(** Bisection over a threshold: it ends with [low = high] at the largest
    position that fits. *)
Lemma bisect_threshold (fits : nat -> bool) (T bound : nat) :
  (forall m, (m <= bound)%nat -> fits m = (m <=? T)%nat) ->
  forall fuel low high,
    (low <= high)%nat -> (high <= bound)%nat -> (low <= T)%nat ->
    (high - low <= fuel)%nat ->
    bisect fits fuel low high = (Nat.min high T, Nat.min high T).
Proof.
  intros Hfits. induction fuel as [|fuel IH]; intros low high Hlh Hb HT Hf.
  - simpl. assert (low = high) by lia. subst. rewrite Nat.min_l by lia. reflexivity.
  - cbn [bisect]. destruct (Nat.ltb_spec low high) as [Hlt|Hge].
    + assert (Hmid : (low < (low + high + 1) / 2 <= high)%nat).
      { split.
        - apply Nat.div_le_lower_bound; lia.
        - apply Nat.Div0.div_le_upper_bound; lia. }
      rewrite Hfits by lia.
      destruct (Nat.leb_spec ((low + high + 1) / 2) T) as [Hm|Hm].
      * apply IH; lia.
      * rewrite IH by lia. f_equal; lia.
    + assert (low = high) by lia. subst. rewrite Nat.min_l by lia. reflexivity.
Qed.

(** X1: [truncateByChars] keeps the longest prefix whose estimate fits the
    target: its bisection ends with [low = high] at
    [min(text.length, 4 * target + 3)] characters, the prefix kept fits,
    and no longer prefix does. *)
Theorem truncateByChars_longest_prefix
    (text suffix model : string) (targetTokens : Z) (Htarget : 1 <= targetTokens) :
  let k := Nat.min (String.length text) (Z.to_nat (4 * targetTokens + 3)) in
  bisect (prefixFits text model targetTokens) (String.length text) 0 (String.length text)
    = (k, k) /\
  truncateByChars text targetTokens suffix model = String.substring 0 k text ++ suffix /\
  countTokens (String.substring 0 k text) model <= targetTokens /\
  (forall m, (k < m <= String.length text)%nat ->
     targetTokens < countTokens (String.substring 0 m text) model).
Proof.
  intros k.
  assert (Hfits : forall m, (m <= String.length text)%nat ->
            prefixFits text model targetTokens m = (m <=? Z.to_nat (4 * targetTokens + 3))%nat).
  { intros m Hm. unfold prefixFits, countTokens.
    rewrite (estimate_fits _ _ Htarget), (length_substring0 _ _ Hm). reflexivity. }
  assert (Hb : bisect (prefixFits text model targetTokens) (String.length text) 0
                 (String.length text) = (k, k)).
  { apply (bisect_threshold _ _ (String.length text) Hfits); lia. }
  split; [exact Hb|]. split; [unfold truncateByChars; now rewrite Hb|].
  split.
  - assert (Hk : prefixFits text model targetTokens k = true).
    { rewrite Hfits by (subst k; lia). apply Nat.leb_le. subst k. lia. }
    unfold prefixFits in Hk. apply Z.leb_le in Hk. exact Hk.
  - intros m Hm.
    assert (Hk : prefixFits text model targetTokens m = false).
    { rewrite Hfits by lia. apply Nat.leb_gt. subst k. lia. }
    unfold prefixFits in Hk. apply Z.leb_gt in Hk. exact Hk.
Qed.

Lemma truncateByChars_longest_prefix_witness :
  truncateByChars "abcdefghijklmnopqrstuvwxyz0123456789" 2 defaultSuffix "gpt-4"
  = "abcdefghijk" ++ defaultSuffix.
Proof.
  destruct (truncateByChars_longest_prefix "abcdefghijklmnopqrstuvwxyz0123456789"
              defaultSuffix "gpt-4" 2 ltac:(lia)) as [_ [H _]].
  rewrite H. reflexivity.
Defined.

Lemma truncateByChars_closed (text suffix model : string) (targetTokens : Z) :
  1 <= targetTokens ->
  truncateByChars text targetTokens suffix model =
    String.substring 0 (Nat.min (String.length text) (Z.to_nat (4 * targetTokens + 3))) text
    ++ suffix.
Proof.
  intros Ht. unfold truncateByChars.
  rewrite (bisect_threshold _ (Z.to_nat (4 * targetTokens + 3)) (String.length text));
    try lia; [reflexivity|].
  intros m Hm. unfold prefixFits, countTokens.
  rewrite (estimate_fits _ _ Ht), (length_substring0 _ _ Hm). reflexivity.
Qed.

(** X2: in character mode, with room for the suffix, [truncateText] returns
    the text itself or a proper prefix of it followed by the suffix, and
    the estimate of what it returns exceeds [maxTokens] by at most one
    token; by none when the suffix length is a multiple of 4, as the
    default suffix is. *)
Theorem truncateText_chars_overshoot
    (text model suffix : string) (maxTokens : Z)
    (Hroom : countTokens suffix model < maxTokens) :
  let r := truncateText text model maxTokens suffix false in
  (r = text \/
   exists k, (k < String.length text)%nat /\ r = String.substring 0 k text ++ suffix) /\
  countTokens r model <= maxTokens + 1 /\
  ((String.length suffix mod 4 = 0)%nat -> countTokens r model <= maxTokens).
Proof.
  intros r. subst r. unfold truncateText.
  destruct (Z.leb_spec (countTokens text model) maxTokens) as [Hfit|Hbig].
  - split; [left; reflexivity|]. split; [lia|intros _; exact Hfit].
  - replace (maxTokens - countTokens suffix model <=? 0) with false
      by (symmetry; apply Z.leb_gt; lia).
    rewrite truncateByChars_closed by lia.
    set (t := maxTokens - countTokens suffix model).
    assert (Hlen : (Z.to_nat (4 * t + 3) < String.length text)%nat).
    { unfold countTokens, estimateTokens in Hbig.
      pose proof (countTokens_pos suffix model) as Hs.
      assert (maxTokens < Z.of_nat (String.length text) / 4) by lia.
      assert (Z.of_nat (String.length text) / 4 <= Z.of_nat (String.length text) / 4) by lia.
      assert (4 * (maxTokens + 1) <= Z.of_nat (String.length text)).
      { pose proof (Z.mul_div_le (Z.of_nat (String.length text)) 4 ltac:(lia)). lia. }
      subst t. lia. }
    rewrite Nat.min_r by lia.
    split; [right; exists (Z.to_nat (4 * t + 3)); split; [exact Hlen|reflexivity]|].
    unfold countTokens, estimateTokens in *.
    rewrite length_app_string, length_substring0 by lia.
    pose proof (Z.mul_div_le (Z.of_nat (String.length suffix)) 4 ltac:(lia)) as Hd.
    assert (Hsuf : Z.of_nat (String.length suffix) / 4 <= maxTokens - t) by (subst t; lia).
    split.
    + apply Z.max_lub; [lia|]. apply Z.lt_succ_r, Z.div_lt_upper_bound; [lia|].
      pose proof (Z.mod_pos_bound (Z.of_nat (String.length suffix)) 4 ltac:(lia)) as Hm.
      pose proof (Z.div_mod (Z.of_nat (String.length suffix)) 4 ltac:(lia)). lia.
    + intros Hmod. apply Z.max_lub; [lia|]. apply Z.lt_succ_r, Z.div_lt_upper_bound; [lia|].
      assert (Hz : Z.of_nat (String.length suffix) mod 4 = 0).
      { change 4 with (Z.of_nat 4). rewrite <- Nat2Z.inj_mod, Hmod. reflexivity. }
      pose proof (Z.div_mod (Z.of_nat (String.length suffix)) 4 ltac:(lia)). lia.
Qed.

Lemma truncateText_chars_overshoot_witness :
  countTokens "....." "gpt-4" < 3 /\
  countTokens (truncateText "abcdefghijklmnopqrstuvwxyz" "gpt-4" 3 "....." false) "gpt-4"
    <= 3 + 1.
Proof.
  split; [vm_compute; reflexivity|].
  apply (truncateText_chars_overshoot "abcdefghijklmnopqrstuvwxyz" "gpt-4" "....." 3).
  vm_compute. reflexivity.
Defined.

Lemma append_assoc_string (a b c : string) : (a ++ b) ++ c = a ++ (b ++ c).
Proof.
  induction a as [|x a IH]; [reflexivity|].
  change (String x ((a ++ b) ++ c) = String x (a ++ (b ++ c))). f_equal. exact IH.
Qed.

Lemma append_empty_r (a : string) : a ++ "" = a.
Proof.
  induction a as [|x a IH]; [reflexivity|].
  change (String x (a ++ "") = String x a). f_equal. exact IH.
Qed.

Lemma split_from_nonempty sep s : forall cur, split_from sep s cur <> [].
Proof.
  induction s as [|c s IH]; intros cur; simpl; [discriminate|].
  destruct (Ascii.eqb c sep); [discriminate|apply IH].
Qed.

(** Joining the pieces of a split gives the text back. *)
Lemma join_split_from sep s : forall cur,
  String.concat (String sep "") (split_from sep s cur) = cur ++ s.
Proof.
  induction s as [|c s IH]; intros cur; simpl.
  - symmetry. apply append_empty_r.
  - destruct (Ascii.eqb_spec c sep) as [->|Hne].
    + pose proof (split_from_nonempty sep s "") as Hn. specialize (IH "").
      destruct (split_from sep s "") as [|x xs]; [contradiction|].
      change (String.concat (String sep "") (cur :: x :: xs))
        with (cur ++ String sep "" ++ String.concat (String sep "") (x :: xs)).
      rewrite IH. reflexivity.
    + rewrite IH, append_assoc_string. reflexivity.
Qed.

Lemma join_split sep s : String.concat (String sep "") (split sep s) = s.
Proof. unfold split. now rewrite join_split_from. Qed.

(** The lines kept are the first lines. *)
Lemma keepLines_prefix model target lines : forall current,
  exists rest, lines = (keepLines model target lines current ++ rest)%list.
Proof.
  induction lines as [|l lines IH]; intros current; simpl.
  - exists []. reflexivity.
  - destruct (target <? current + countTokens (l ++ String newline "") model).
    + exists (l :: lines). reflexivity.
    + destruct (IH (current + countTokens (l ++ String newline "") model)) as [rest Hr].
      exists rest. simpl. f_equal. exact Hr.
Qed.

(** The characters of the lines kept, one separator per line counted:
    at most 7 per token of the budget that is left. *)
Lemma keepLines_chars model target lines : forall current,
  fold_right (fun l n => Z.of_nat (String.length l) + 1 + n) 0
    (keepLines model target lines current) <= Z.max 0 (7 * (target - current)).
Proof.
  induction lines as [|l lines IH]; intros current; simpl; [lia|].
  destruct (Z.ltb_spec target (current + countTokens (l ++ String newline "") model))
    as [Hlt|Hge]; simpl; [lia|].
  specialize (IH (current + countTokens (l ++ String newline "") model)).
  unfold countTokens, estimateTokens in *.
  rewrite length_app_string in *. simpl String.length in *.
  set (n := String.length l) in *.
  assert (Hdiv : Z.of_nat (n + 1) < 4 * (Z.of_nat (n + 1) / 4 + 1)).
  { pose proof (Z.div_mod (Z.of_nat (n + 1)) 4 ltac:(lia)).
    pose proof (Z.mod_pos_bound (Z.of_nat (n + 1)) 4 ltac:(lia)). lia. }
  lia.
Qed.

Lemma join_length sep lines :
  lines <> [] ->
  Z.of_nat (String.length (String.concat (String sep "") lines)) + 1
  = fold_right (fun l n => Z.of_nat (String.length l) + 1 + n) 0 lines.
Proof.
  induction lines as [|l lines IH]; intros Hne; [contradiction|].
  destruct lines as [|l' lines'].
  - simpl. lia.
  - assert (IH' := IH ltac:(discriminate)). clear IH.
    remember (l' :: lines') as tl eqn:Etl.
    assert (Hc : String.concat (String sep "") (l :: tl)
                 = l ++ String sep "" ++ String.concat (String sep "") tl)
      by (subst tl; reflexivity).
    rewrite Hc, !length_app_string. simpl String.length.
    cbn [fold_right]. rewrite <- IH'. lia.
Qed.

Lemma join_prefix sep (kept rest : list string) :
  kept <> [] ->
  exists tail,
    String.concat (String sep "") (kept ++ rest)%list = String.concat (String sep "") kept ++ tail.
Proof.
  induction kept as [|l kept IH]; intros Hne; [contradiction|].
  destruct kept as [|l' kept'].
  - destruct rest as [|r rest'].
    + exists "". simpl. symmetry. apply append_empty_r.
    + exists (String sep "" ++ String.concat (String sep "") (r :: rest')). reflexivity.
  - destruct (IH ltac:(discriminate)) as [tail Ht]. exists tail.
    change (String.concat (String sep "") ((l :: l' :: kept') ++ rest)%list)
      with (l ++ String sep "" ++ String.concat (String sep "") ((l' :: kept') ++ rest)%list).
    change (String.concat (String sep "") (l :: l' :: kept'))
      with (l ++ String sep "" ++ String.concat (String sep "") (l' :: kept')).
    rewrite Ht, !append_assoc_string. reflexivity.
Qed.

(** X3: when some line fits, [truncateByLines] returns whole lines: the
    first lines of the text, joined as they were, followed by the suffix;
    what it keeps is a prefix of the text, of fewer than 7 characters per
    token of the target (the per-line estimates round down, so the text
    kept may hold up to 7/4 of the target by the estimate of the whole). *)
Theorem truncateByLines_keeps_whole_lines
    (text suffix model : string) (targetTokens : Z)
    (Hkept : keepLines model targetTokens (split newline text) 0 <> []) :
  let kept := keepLines model targetTokens (split newline text) 0 in
  truncateByLines text targetTokens suffix model
    = String.concat (String newline "") kept ++ suffix /\
  (exists rest, split newline text = (kept ++ rest)%list) /\
  (exists tail, text = String.concat (String newline "") kept ++ tail) /\
  Z.of_nat (String.length (String.concat (String newline "") kept)) < 7 * targetTokens.
Proof.
  intros kept. subst kept.
  destruct (keepLines_prefix model targetTokens (split newline text) 0) as [rest Hrest].
  split.
  - unfold truncateByLines.
    destruct (keepLines model targetTokens (split newline text) 0); [contradiction|reflexivity].
  - split; [exists rest; exact Hrest|]. split.
    + destruct (join_prefix newline _ rest Hkept) as [tail Ht]. exists tail.
      rewrite <- Ht, <- Hrest. symmetry. apply join_split.
    + pose proof (keepLines_chars model targetTokens (split newline text) 0) as Hc.
      rewrite <- (join_length newline _ Hkept) in Hc. lia.
Qed.

Lemma truncateByLines_keeps_whole_lines_witness :
  truncateByLines ("abcdef" ++ String newline "ghijkl" ++ String newline "mnopqrstuvwxyz")
    2 defaultSuffix "gpt-4"
  = ("abcdef" ++ String newline "ghijkl") ++ defaultSuffix.
Proof.
  destruct (truncateByLines_keeps_whole_lines
              ("abcdef" ++ String newline "ghijkl" ++ String newline "mnopqrstuvwxyz")
              defaultSuffix "gpt-4" 2) as [H _].
  - vm_compute. discriminate.
  - rewrite H. vm_compute. reflexivity.
Defined.

End TruncateProps.

(** ** The loop detector: history and soundness *)
Module LoopRunProps.
Import LoopDetector LoopRun.
Local Open Scope list_scope.

Lemma slice_last_length {A} (n : nat) (l : list A) :
  List.length (slice_last n l) = Nat.min n (List.length l).
Proof. unfold slice_last. rewrite List.length_skipn. lia. Qed.

Lemma slice_last_all {A} (n : nat) (l : list A) :
  (List.length l <= n)%nat -> slice_last n l = l.
Proof.
  intros H. unfold slice_last. replace (List.length l - n)%nat with 0%nat by lia.
  reflexivity.
Qed.

(** The last [n] entries, split off. *)
Lemma slice_last_split {A} (n : nat) (l : list A) :
  l = firstn (List.length l - n) l ++ slice_last n l.
Proof. unfold slice_last. symmetry. apply firstn_skipn. Qed.

Lemma slice_last_app_long {A} (n : nat) (pre suf : list A) :
  (n <= List.length suf)%nat -> slice_last n (pre ++ suf) = slice_last n suf.
Proof.
  intros H. unfold slice_last. rewrite List.length_app, skipn_app.
  replace (List.length pre + List.length suf - n - List.length pre)%nat
    with (List.length suf - n)%nat by lia.
  rewrite skipn_all2 by lia. reflexivity.
Qed.

Lemma slice_last_idem_app {A} (n : nat) (l more : list A) :
  slice_last n (slice_last n l ++ more) = slice_last n (l ++ more).
Proof.
  destruct (Nat.le_gt_cases (List.length l) n) as [Hle|Hgt].
  - rewrite (slice_last_all n l Hle). reflexivity.
  - rewrite (slice_last_split n l) at 2. rewrite <- app_assoc.
    symmetry. apply slice_last_app_long.
    rewrite List.length_app, slice_last_length. lia.
Qed.

(** One recording keeps the last 20 signatures. *)
Lemma recordAction_history d actionType details :
  (List.length (history d) <= maxHistorySize)%nat ->
  history (recordAction d actionType details)
    = slice_last maxHistorySize (history d ++ [signature actionType details]).
Proof.
  intros Hlen. unfold recordAction, maxHistorySize in *.
  set (pushed := history d ++ [signature actionType details]).
  assert (Hp : List.length pushed = S (List.length (history d)))
    by (unfold pushed; rewrite List.length_app; simpl; lia).
  destruct (Nat.ltb_spec 20 (List.length pushed)) as [Hbig|Hsmall]; simpl.
  - unfold slice_last. replace (List.length pushed - 20)%nat with 1%nat by lia.
    destruct pushed; reflexivity.
  - symmetry. apply slice_last_all. exact Hsmall.
Qed.

(** X4: the history is a window: after any run of [recordAction] calls
    on a detector that holds at most 20 signatures, it holds the last 20 of
    the signatures it held and those recorded since, oldest first, and
    never more than 20. *)
Theorem history_is_last_twenty
    (d : LoopDetector) (actions : list (string * ActionDetails))
    (Hstart : (List.length (history d) <= maxHistorySize)%nat) :
  history (recordAll d actions)
    = slice_last maxHistorySize (history d ++ signatures actions) /\
  (List.length (history (recordAll d actions)) <= maxHistorySize)%nat.
Proof.
  revert d Hstart. induction actions as [|a actions IH]; intros d Hstart.
  - simpl. rewrite app_nil_r. split; [symmetry; now apply slice_last_all|exact Hstart].
  - change (recordAll d (a :: actions))
      with (recordAll (recordAction d (fst a) (snd a)) actions).
    pose proof (recordAction_history d (fst a) (snd a) Hstart) as Hstep.
    assert (Hnext : (List.length (history (recordAction d (fst a) (snd a)))
                     <= maxHistorySize)%nat).
    { rewrite Hstep, slice_last_length. lia. }
    destruct (IH _ Hnext) as [H1 H2]. split; [|exact H2].
    rewrite H1, Hstep, slice_last_idem_app, <- app_assoc. reflexivity.
Qed.

Lemma history_is_last_twenty_witness :
  history (recordAll (mkLoopDetector [])
             (repeat ("response", mkActionDetails None None (Some "hi")) 25))
  = repeat "response|hi" 20.
Proof.
  destruct (history_is_last_twenty (mkLoopDetector [])
              (repeat ("response", mkActionDetails None None (Some "hi")) 25))
    as [H _].
  - simpl. unfold maxHistorySize. lia.
  - rewrite H. vm_compute. reflexivity.
Defined.

Lemma three_entries {A} (l : list A) :
  List.length l = 3%nat -> exists x y z, l = [x; y; z].
Proof.
  destruct l as [|x [|y [|z [|? ?]]]]; simpl; intros H; try discriminate.
  exists x, y, z. reflexivity.
Qed.

(** A window of [2 * L] entries whose halves agree is a half, twice. *)
Lemma equal_halves (L : nat) (h : list string) :
  (2 * L <= List.length h)%nat ->
  firstn L (slice_last (L * 2) h) = skipn L (slice_last (L * 2) h) ->
  exists pre half, List.length half = L /\ h = pre ++ half ++ half.
Proof.
  intros Hlen Heq.
  exists (firstn (List.length h - L * 2) h), (firstn L (slice_last (L * 2) h)).
  split.
  - rewrite List.length_firstn, slice_last_length. lia.
  - rewrite Heq at 2. rewrite firstn_skipn. apply slice_last_split.
Qed.

(** X5: [checkForLoop] reports only what the history shows, and never on
    fewer than three actions: "Same action repeated 3 times" means the last
    three signatures are one and the same; "Detected repeating cycle of
    length L" means L is 2 or 3, the history holds at least 6 signatures
    and ends in some L signatures written twice. *)
Theorem checkForLoop_reports_only_real_loops
    (d : LoopDetector) (reason : string)
    (Hreason : checkForLoop d = Some reason) :
  (3 <= List.length (history d))%nat /\
  ((reason = "Same action repeated 3 times" /\
    exists pre x, history d = pre ++ [x; x; x]) \/
   (exists L pre half,
      (L = 2%nat \/ L = 3%nat) /\ reason = cycle_message L /\
      List.length half = L /\ (6 <= List.length (history d))%nat /\
      history d = pre ++ half ++ half)).
Proof.
  unfold checkForLoop in Hreason. set (h := history d) in *.
  destruct (Nat.ltb_spec (List.length h) 2) as [|H2]; [discriminate|].
  unfold maxExactRepeats, maxCycleLength in Hreason.
  destruct (Nat.leb_spec 3 (List.length h)) as [H3|H3]; cbn [andb] in Hreason.
  - split; [exact H3|].
    destruct (Nat.eqb_spec (distinct_count (slice_last 3 h)) 1) as [Hd|Hd].
    + left. injection Hreason as <-. split; [reflexivity|].
      destruct (three_entries (slice_last 3 h)) as [x [y [z Hxyz]]];
        [rewrite slice_last_length; lia|].
      rewrite Hxyz in Hd. apply LoopProps.distinct_count_three in Hd.
      destruct Hd as [-> ->]. exists (firstn (List.length h - 3) h), z.
      rewrite <- Hxyz. apply slice_last_split.
    + right. destruct (Nat.leb_spec (3 * 2) (List.length h)) as [H6|H6]; [|discriminate].
      simpl in H6. cbn [cycleLoop] in Hreason.
      rewrite (LoopProps.half_bound h H6) in Hreason. cbn [Nat.leb] in Hreason.
      destruct (bool_decide (firstn 2 (slice_last (2 * 2) h) = skipn 2 (slice_last (2 * 2) h)))
        eqn:Hc2.
      * injection Hreason as <-. apply bool_decide_eq_true in Hc2.
        destruct (equal_halves 2 h ltac:(lia) Hc2) as [pre [half [Hl Hh]]].
        exists 2%nat, pre, half. repeat split; auto.
      * destruct (bool_decide (firstn 3 (slice_last (3 * 2) h) = skipn 3 (slice_last (3 * 2) h)))
          eqn:Hc3; [|discriminate].
        injection Hreason as <-. apply bool_decide_eq_true in Hc3.
        destruct (equal_halves 3 h ltac:(lia) Hc3) as [pre [half [Hl Hh]]].
        exists 3%nat, pre, half. repeat split; auto.
  - exfalso.
    destruct (Nat.leb_spec (3 * 2) (List.length h)) as [H6|H6]; [simpl in H6; lia|discriminate].
Qed.

Lemma checkForLoop_reports_only_real_loops_witness :
  (3 <= List.length (history (mkLoopDetector ["A"; "B"; "C"; "A"; "B"; "C"])))%nat /\
  ((cycle_message 3 = "Same action repeated 3 times" /\
    exists pre x, history (mkLoopDetector ["A"; "B"; "C"; "A"; "B"; "C"]) = pre ++ [x; x; x]) \/
   (exists L pre half,
      (L = 2%nat \/ L = 3%nat) /\ cycle_message 3 = cycle_message L /\
      List.length half = L /\
      (6 <= List.length (history (mkLoopDetector ["A"; "B"; "C"; "A"; "B"; "C"])))%nat /\
      history (mkLoopDetector ["A"; "B"; "C"; "A"; "B"; "C"]) = pre ++ half ++ half)).
Proof.
  apply (checkForLoop_reports_only_real_loops
           (mkLoopDetector ["A"; "B"; "C"; "A"; "B"; "C"]) (cycle_message 3)).
  vm_compute. reflexivity.
Defined.

(** *** Signatures do not depend on the order of the argument keys *)

Lemma ascii_compare_refl (a : ascii) : Ascii.compare a a = Eq.
Proof. unfold Ascii.compare. apply N.compare_refl. Qed.

Lemma string_leb_trans (a : string) : forall b c,
  String.leb a b = true -> String.leb b c = true -> String.leb a c = true.
Proof.
  unfold String.leb.
  induction a as [|x a IH]; intros [|y b] [|z c]; simpl; try congruence.
  destruct (Ascii.compare x y) eqn:Exy; try congruence.
  - apply Ascii.compare_eq_iff in Exy. subst y.
    destruct (Ascii.compare x z) eqn:Exz; try congruence. apply IH.
  - destruct (Ascii.compare y z) eqn:Eyz; try congruence.
    + apply Ascii.compare_eq_iff in Eyz. subst z. rewrite Exy. congruence.
    + unfold Ascii.compare in *. rewrite N.compare_lt_iff in *.
      assert (Hxz : (N_of_ascii x < N_of_ascii z)%N) by lia.
      apply N.compare_lt_iff in Hxz. rewrite Hxz. congruence.
Qed.

Lemma string_leb_false (a b : string) : String.leb a b = false -> String.leb b a = true.
Proof. intros H. destruct (String.leb_total a b) as [E|E]; congruence. Qed.

(** Every entry of [l] is at or above [k]. *)
Lemma insert_sorted_head (k : string) (l : list string) :
  Forall (fun x => String.leb k x = true) l -> insert_sorted k l = k :: l.
Proof. intros H. destruct l as [|x l]; [reflexivity|]. inversion H; subst. simpl. now rewrite H2. Qed.

Lemma insert_sorted_swap (a b : string) (l : list string) :
  insert_sorted a (insert_sorted b l) = insert_sorted b (insert_sorted a l).
Proof.
  induction l as [|x l IH]; simpl.
  - destruct (String.leb a b) eqn:Eab, (String.leb b a) eqn:Eba; try reflexivity.
    + rewrite (String.leb_antisym a b Eab Eba). reflexivity.
    + apply string_leb_false in Eab. congruence.
  - destruct (String.leb b x) eqn:Ebx, (String.leb a x) eqn:Eax;
      destruct (String.leb a b) eqn:Eab, (String.leb b a) eqn:Eba;
      simpl; rewrite ?Ebx, ?Eax, ?Eab, ?Eba; simpl; rewrite ?Ebx, ?Eax, ?Eab, ?Eba;
      try reflexivity;
      try (rewrite IH; reflexivity);
      try (rewrite (String.leb_antisym a b Eab Eba); reflexivity);
      try (apply string_leb_false in Eab; congruence);
      try (rewrite (string_leb_trans a b x Eab Ebx) in Eax; discriminate);
      try (rewrite (string_leb_trans b a x Eba Eax) in Ebx; discriminate).
Qed.

(** [sort()] gives the same list for every order of the same keys. *)
Lemma sort_keys_permutation (l l' : list string) :
  Permutation l l' -> sort_keys l = sort_keys l'.
Proof.
  intros H. induction H as [|x l l' _ IH|x y l|l l' l'' _ IH1 _ IH2].
  - reflexivity.
  - unfold sort_keys in *. cbn [fold_right]. now rewrite IH.
  - unfold sort_keys. cbn [fold_right]. apply insert_sorted_swap.
  - congruence.
Qed.

Lemma lookup_arg_permutation (kvs kvs' : list (string * string)) :
  Permutation kvs kvs' -> List.NoDup (map fst kvs) ->
  forall k, lookup_arg kvs k = lookup_arg kvs' k.
Proof.
  intros H. induction H as [|[k0 v0] l l' Hp IH|[k1 v1] [k2 v2] l|l l' l'' H1 IH1 H2 IH2];
    intros Hnd k.
  - reflexivity.
  - inversion Hnd; subst. unfold lookup_arg in *. simpl.
    destruct (String.eqb k0 k); [reflexivity|]. apply IH. assumption.
  - inversion Hnd as [|? ? Hnot Hnd']; subst. unfold lookup_arg. simpl.
    destruct (String.eqb_spec k2 k) as [->|]; destruct (String.eqb_spec k1 k) as [->|];
      try reflexivity.
    exfalso. apply Hnot. left. reflexivity.
  - rewrite IH1 by assumption. apply IH2.
    eapply Permutation_NoDup; [|exact Hnd]. apply Permutation_map. exact H1.
Qed.

(** X6: the signature of a tool call does not depend on the order in
    which the argument object lists its keys: two argument lists that hold
    the same keys (each once) with the same values give one signature. *)
Theorem signature_ignores_key_order
    (nm txt : option string) (kvs kvs' : list (string * string))
    (Hsame : Permutation kvs kvs')
    (Hkeys : List.NoDup (map fst kvs)) :
  signature "tool_call" (mkActionDetails nm (Some kvs) txt)
  = signature "tool_call" (mkActionDetails nm (Some kvs') txt).
Proof.
  unfold signature. cbn [args tool_name text].
  rewrite (sort_keys_permutation (map fst kvs) (map fst kvs'))
    by (apply Permutation_map; exact Hsame).
  rewrite (map_ext (fun k => (k ++ "=" ++ lookup_arg kvs k)%string)
                   (fun k => (k ++ "=" ++ lookup_arg kvs' k)%string)); [reflexivity|].
  intros k. now rewrite (lookup_arg_permutation kvs kvs' Hsame Hkeys k).
Qed.

Lemma signature_ignores_key_order_witness :
  signature "tool_call"
    (mkActionDetails (Some "grep") (Some [("pattern", "x"); ("path", "src")]) None)
  = signature "tool_call"
      (mkActionDetails (Some "grep") (Some [("path", "src"); ("pattern", "x")]) None).
Proof.
  apply (signature_ignores_key_order (Some "grep") None
           [("pattern", "x"); ("path", "src")] [("path", "src"); ("pattern", "x")]).
  - apply perm_swap.
  - repeat constructor; simpl; intuition discriminate.
Defined.

End LoopRunProps.

(** ** The approval policy engine: what each decision takes *)
Module ApprovalMoreProps.
Import Approval SafeVerbs.

Lemma commandVerdict_cases mgr ctx :
  commandVerdict mgr ctx =
    match command ctx with
    | Some cmd =>
        if truthy_string cmd then
          match assessCommandSafety mgr cmd with
          | NEEDS_CONFIRMATION => None
          | d => Some d
          end
        else None
    | None => None
    end.
Proof.
  unfold commandVerdict, truthy_opt_string, or_string.
  destruct (command ctx) as [cmd|]; [|reflexivity].
  destruct (truthy_string cmd); [|reflexivity].
  destruct (assessCommandSafety mgr cmd); reflexivity.
Qed.

Lemma checkPaths_never_rejects mgr paths : checkPaths mgr paths <> Some REJECTED.
Proof.
  rewrite ApprovalProps.checkPaths_spec. destruct (existsb (escapes mgr) paths); discriminate.
Qed.

(** The classifier rejects a command on two grounds only. *)
Lemma assess_rejected mgr cmd :
  assessCommandSafety mgr cmd = REJECTED <->
  approvalPolicy mgr <> YOLO /\
  (isDangerousCommand cmd = true \/
   (approvalPolicy mgr = NEVER /\ isSafeCommand cmd = false)).
Proof.
  unfold assessCommandSafety.
  destruct (approvalPolicy mgr), (isDangerousCommand cmd), (isSafeCommand cmd); simpl;
    split; intros H; try discriminate; try reflexivity;
    try (split; [discriminate|]; first [left; reflexivity | right; split; reflexivity]);
    destruct H as [H1 [H2|[H2 H3]]]; congruence.
Qed.

(** X7: [checkApproval] answers REJECTED only for a mutating invocation
    that carries a command, under a policy other than yolo, when the
    command matches a dangerous pattern or the policy is never and the
    command is not on the safe list; and it does so whenever this holds. *)
Theorem rejection_comes_from_the_command (mgr : ApprovalManager) (ctx : ApprovalContext) :
  checkApproval mgr ctx = REJECTED <->
  (isMutating ctx = true /\
   exists cmd, command ctx = Some cmd /\ cmd <> "" /\
     approvalPolicy mgr <> YOLO /\
     (isDangerousCommand cmd = true \/
      (approvalPolicy mgr = NEVER /\ isSafeCommand cmd = false))).
Proof.
  unfold checkApproval. rewrite commandVerdict_cases. split.
  - destruct (isMutating ctx); simpl; [|discriminate].
    destruct (command ctx) as [cmd|] eqn:Hc.
    + destruct (truthy_string cmd) eqn:Ht.
      * destruct (assessCommandSafety mgr cmd) eqn:Ha.
        -- discriminate.
        -- intros _. split; [reflexivity|]. exists cmd.
           split; [reflexivity|]. split; [now apply ApprovalProps.truthy_string_nonempty|].
           now apply assess_rejected.
        -- pose proof (checkPaths_never_rejects mgr (affectedPaths ctx)) as Hp.
           destruct (checkPaths mgr (affectedPaths ctx)) as [d|]; [congruence|].
           destruct (isDangerous ctx), (policy_eqb (approvalPolicy mgr) YOLO); discriminate.
      * pose proof (checkPaths_never_rejects mgr (affectedPaths ctx)) as Hp.
        destruct (checkPaths mgr (affectedPaths ctx)) as [d|]; [congruence|].
        destruct (isDangerous ctx), (policy_eqb (approvalPolicy mgr) YOLO); discriminate.
    + pose proof (checkPaths_never_rejects mgr (affectedPaths ctx)) as Hp.
      destruct (checkPaths mgr (affectedPaths ctx)) as [d|]; [congruence|].
      destruct (isDangerous ctx), (policy_eqb (approvalPolicy mgr) YOLO); discriminate.
  - intros [Hm [cmd [Hc [Hne [Hy Hwhy]]]]]. rewrite Hm, Hc. simpl.
    apply ApprovalProps.truthy_string_nonempty in Hne. rewrite Hne.
    assert (Ha : assessCommandSafety mgr cmd = REJECTED) by (apply assess_rejected; auto).
    rewrite Ha. reflexivity.
Qed.

(** X8: under policy yolo nothing is rejected, and confirmation is asked
    in one case only: a mutating invocation without a command one of whose
    affected paths leaves the working directory. *)
Theorem yolo_only_asks_about_paths
    (mgr : ApprovalManager) (ctx : ApprovalContext)
    (Hyolo : approvalPolicy mgr = YOLO) :
  checkApproval mgr ctx =
    if isMutating ctx && negb (truthy_opt_string (command ctx))
       && existsb (escapes mgr) (affectedPaths ctx)
    then NEEDS_CONFIRMATION else APPROVED.
Proof.
  unfold checkApproval. rewrite commandVerdict_cases, ApprovalProps.checkPaths_spec, Hyolo.
  destruct (isMutating ctx); simpl; [|reflexivity].
  destruct (command ctx) as [cmd|]; simpl.
  - destruct (truthy_string cmd) eqn:Ht; simpl.
    + rewrite (ApprovalProps.assess_yolo mgr cmd Hyolo). reflexivity.
    + destruct (existsb (escapes mgr) (affectedPaths ctx)), (isDangerous ctx); reflexivity.
  - destruct (existsb (escapes mgr) (affectedPaths ctx)), (isDangerous ctx); reflexivity.
Qed.

Lemma yolo_only_asks_about_paths_witness :
  checkApproval (Samples.manager YOLO)
    (mkApprovalContext "write_file" (Json.JObj []) true ["/etc/passwd"] None true)
  = NEEDS_CONFIRMATION.
Proof.
  rewrite (yolo_only_asks_about_paths (Samples.manager YOLO)
             (mkApprovalContext "write_file" (Json.JObj []) true ["/etc/passwd"] None true)
             eq_refl).
  vm_compute. reflexivity.
Defined.

(** X9: a command that the classifier wants confirmed is confirmed only
    if an affected path leaves the working directory or the confirmation
    is flagged dangerous; otherwise the decision is APPROVED. *)
Theorem unsafe_command_confirmed_only_by_path_or_flag
    (mgr : ApprovalManager) (ctx : ApprovalContext) (cmd : string)
    (Hmut : isMutating ctx = true)
    (Hcmd : command ctx = Some cmd)
    (Hask : assessCommandSafety mgr cmd = NEEDS_CONFIRMATION) :
  checkApproval mgr ctx =
    if existsb (escapes mgr) (affectedPaths ctx) || isDangerous ctx
    then NEEDS_CONFIRMATION else APPROVED.
Proof.
  unfold checkApproval. rewrite commandVerdict_cases, ApprovalProps.checkPaths_spec, Hmut, Hcmd.
  simpl. rewrite Hask.
  assert (Hy : policy_eqb (approvalPolicy mgr) YOLO = false).
  { destruct (policy_eqb (approvalPolicy mgr) YOLO) eqn:E; [|reflexivity].
    apply ApprovalProps.policy_eqb_eq in E.
    rewrite (ApprovalProps.assess_yolo mgr cmd E) in Hask. discriminate. }
  rewrite Hy.
  destruct (truthy_string cmd), (existsb (escapes mgr) (affectedPaths ctx)),
    (isDangerous ctx); reflexivity.
Qed.

Lemma unsafe_command_confirmed_only_by_path_or_flag_witness :
  checkApproval (Samples.manager ON_REQUEST) (Samples.shell_ctx "make build" []) = APPROVED.
Proof.
  rewrite (unsafe_command_confirmed_only_by_path_or_flag (Samples.manager ON_REQUEST)
             (Samples.shell_ctx "make build" []) "make build" eq_refl eq_refl);
    vm_compute; reflexivity.
Defined.

(** X10: under the policies auto, on-failure and never a command is never
    put to the user, and neither the affected paths nor the danger flag
    are looked at: the decision is REJECTED for a dangerous command (and,
    under never, for one that is not on the safe list) and APPROVED
    otherwise. *)
Theorem unattended_policies_decide_on_the_command
    (mgr : ApprovalManager) (ctx : ApprovalContext) (cmd : string)
    (Hpolicy : approvalPolicy mgr = AUTO \/ approvalPolicy mgr = ON_FAILURE
               \/ approvalPolicy mgr = NEVER)
    (Hmut : isMutating ctx = true)
    (Hcmd : command ctx = Some cmd)
    (Hne : cmd <> "") :
  checkApproval mgr ctx =
    if isDangerousCommand cmd then REJECTED
    else if policy_eqb (approvalPolicy mgr) NEVER && negb (isSafeCommand cmd) then REJECTED
    else APPROVED.
Proof.
  apply ApprovalProps.truthy_string_nonempty in Hne.
  assert (Ha : assessCommandSafety mgr cmd =
               if isDangerousCommand cmd then REJECTED
               else if policy_eqb (approvalPolicy mgr) NEVER && negb (isSafeCommand cmd)
                    then REJECTED else APPROVED).
  { unfold assessCommandSafety.
    destruct Hpolicy as [-> | [-> | ->]]; simpl;
      destruct (isDangerousCommand cmd), (isSafeCommand cmd); reflexivity. }
  rewrite (ApprovalProps.checkApproval_command mgr ctx cmd Hmut Hcmd Hne); [exact Ha|].
  rewrite Ha.
  destruct (isDangerousCommand cmd),
    (policy_eqb (approvalPolicy mgr) NEVER && negb (isSafeCommand cmd)); discriminate.
Qed.

Lemma unattended_policies_decide_on_the_command_witness :
  checkApproval (Samples.manager AUTO)
    (mkApprovalContext "shell" (Json.JObj []) true ["/etc/hosts"] (Some "make install") true)
  = APPROVED.
Proof.
  rewrite (unattended_policies_decide_on_the_command (Samples.manager AUTO)
             (mkApprovalContext "shell" (Json.JObj []) true ["/etc/hosts"]
                (Some "make install") true)
             "make install" (or_introl eq_refl) eq_refl eq_refl);
    [vm_compute; reflexivity|discriminate].
Defined.

(** X11: a command counts as safe by its first word alone: each of the
    safe verbs is safe on its own and with anything at all after a space. *)
Theorem safe_by_first_word (verb rest : string) (Hverb : In verb safe_verbs) :
  isSafeCommand verb = true /\ isSafeCommand (verb ++ " " ++ rest) = true.
Proof.
  unfold safe_verbs in Hverb. simpl in Hverb.
  repeat (destruct Hverb as [<-|Hverb]; [split; vm_compute; reflexivity|]).
  contradiction.
Qed.

Lemma safe_by_first_word_witness :
  isSafeCommand "echo" = true /\
  isSafeCommand ("echo" ++ " " ++ "x > /etc/hosts; make install") = true.
Proof.
  apply (safe_by_first_word "echo" "x > /etc/hosts; make install").
  unfold safe_verbs. simpl. tauto.
Defined.

End ApprovalMoreProps.

(** ** Which paths need confirmation *)
Module ContainmentProps.
Import Paths Approval Containment.
Local Open Scope list_scope.

Lemma segments_eqb_eq a : forall b, segments_eqb a b = true <-> a = b.
Proof.
  induction a as [|x a IH]; intros [|y b]; cbn [segments_eqb];
    try (split; [discriminate|discriminate]); [tauto|].
  rewrite andb_true_iff, String.eqb_eq, IH. split; [intros [-> ->]; reflexivity|].
  intros H. injection H as -> ->. tauto.
Qed.

Lemma below_refl f : below f f = true.
Proof. induction f as [|x f IH]; [reflexivity|]. cbn. now rewrite String.eqb_refl. Qed.

Lemma below_common f : forall t,
  (common_prefix_length f t <= List.length f)%nat /\
  below f t = (common_prefix_length f t =? List.length f)%nat.
Proof.
  induction f as [|x f IH]; intros [|y t]; cbn [below common_prefix_length List.length];
    try (split; [lia|reflexivity]).
  destruct (String.eqb x y); cbn [andb]; [|split; [lia|reflexivity]].
  destruct (IH t) as [Hle Heq]. split; [lia|]. rewrite Heq. reflexivity.
Qed.

Lemma prefix_empty s : String.prefix "" s = true.
Proof. destruct s; reflexivity. Qed.

Lemma prefix_dots_joined s rest :
  String.prefix ".." (String.concat "/" (s :: rest)) = String.prefix ".." s.
Proof.
  destruct rest as [|r rest]; [reflexivity|].
  change (String.concat "/" (s :: r :: rest))
    with (s ++ "/" ++ String.concat "/" (r :: rest))%string.
  generalize (String.concat "/" (r :: rest)). intros tl.
  destruct s as [|a [|b s]].
  - reflexivity.
  - change (String a "" ++ "/" ++ tl)%string with (String a (String "/" tl)).
    cbn -[ascii_dec]. destruct (ascii_dec "." a); [|reflexivity].
    destruct (ascii_dec "." "/"); [discriminate|reflexivity].
  - change (String a (String b s) ++ "/" ++ tl)%string
      with (String a (String b (s ++ "/" ++ tl)%string)).
    cbn -[ascii_dec]. destruct (ascii_dec "." a); [|reflexivity].
    destruct (ascii_dec "." b); [|reflexivity].
    now rewrite !prefix_empty.
Qed.

Lemma prefix_dots_up l : String.prefix ".." (String.concat "/" (".." :: l)) = true.
Proof. rewrite prefix_dots_joined. reflexivity. Qed.

(** X12: which paths the approval engine sends to confirmation. A path
    escapes exactly when, after both are resolved, it is not the working
    directory or a path below it, or when its first segment below the
    working directory begins with two dots: every path outside the working
    directory is caught, and so is a file inside it whose name starts with
    two dots. *)
Theorem escapes_iff_outside (mgr : ApprovalManager) (path : string) :
  let f := resolve (pcwd mgr) (cwd mgr) in
  let t := resolve (pcwd mgr) path in
  escapes mgr path =
    if below f t then
      match skipn (List.length f) t with
      | s :: _ => String.prefix ".." s
      | [] => false
      end
    else true.
Proof.
  cbv zeta. unfold escapes, relative, startsWith.
  destruct (String.eqb_spec (cwd mgr) path) as [<-|Hne].
  - rewrite below_refl, skipn_all. reflexivity.
  - destruct (segments_eqb (resolve (pcwd mgr) (cwd mgr)) (resolve (pcwd mgr) path)) eqn:Heq.
    + apply segments_eqb_eq in Heq. rewrite <- Heq, below_refl, skipn_all. reflexivity.
    + destruct (below_common (resolve (pcwd mgr) (cwd mgr)) (resolve (pcwd mgr) path))
        as [Hle Hbelow].
      rewrite Hbelow.
      destruct (Nat.eqb_spec
                  (common_prefix_length (resolve (pcwd mgr) (cwd mgr))
                     (resolve (pcwd mgr) path))
                  (List.length (resolve (pcwd mgr) (cwd mgr)))) as [Hc|Hc].
      * rewrite Hc, Nat.sub_diag. cbn [repeat app].
        destruct (skipn _ (resolve (pcwd mgr) path)) as [|s rest]; [reflexivity|].
        apply prefix_dots_joined.
      * destruct (List.length (resolve (pcwd mgr) (cwd mgr))
                  - common_prefix_length (resolve (pcwd mgr) (cwd mgr))
                      (resolve (pcwd mgr) path))%nat as [|k] eqn:Hk; [lia|].
        cbn [repeat app]. apply prefix_dots_up.
Qed.

(** Outside, inside, and inside with a name that begins with two dots. *)
Example escaping_paths :
  escapes (Samples.manager ON_REQUEST) "/home/user2/x" = true /\
  escapes (Samples.manager ON_REQUEST) "src/../README.md" = false /\
  escapes (Samples.manager ON_REQUEST) "..cache/x" = true.
Proof. vm_compute. repeat split; reflexivity. Qed.

End ContainmentProps.

(** ** The shell tool's block list *)
Module ShellProps.
Import Shell.
Local Open Scope list_scope.

Lemma prefix_chars sub : forall s c,
  String.prefix sub s = true ->
  In c (list_ascii_of_string sub) -> In c (list_ascii_of_string s).
Proof.
  induction sub as [|a sub IH]; intros [|b s] c Hp Hin; cbn -[ascii_dec] in *;
    try contradiction; try discriminate.
  destruct (ascii_dec a b) as [->|]; [|discriminate].
  destruct Hin as [->|Hin]; [left; reflexivity|right; now apply (IH s)].
Qed.

Lemma includes_chars sub s : forall c,
  includes s sub = true ->
  In c (list_ascii_of_string sub) -> In c (list_ascii_of_string s).
Proof.
  induction s as [|b s IH]; intros c Hi Hin.
  - cbn [includes] in Hi. destruct (String.prefix sub "") eqn:Hp; [|discriminate].
    now apply (prefix_chars sub "").
  - cbn [includes] in Hi. destruct (String.prefix sub (String b s)) eqn:Hp.
    + now apply (prefix_chars sub (String b s)).
    + cbn. right. now apply IH.
Qed.

Lemma trimStart_chars s c :
  In c (list_ascii_of_string (Truncate.trimStart s)) -> In c (list_ascii_of_string s).
Proof.
  induction s as [|b s IH]; [tauto|]. cbn [Truncate.trimStart].
  destruct (Regex.is_space b); [|tauto]. intros H. right. now apply IH.
Qed.

Lemma reverse_chars s c :
  In c (list_ascii_of_string (Truncate.reverse s)) <-> In c (list_ascii_of_string s).
Proof.
  unfold Truncate.reverse. rewrite list_ascii_of_string_of_list_ascii. symmetry. apply in_rev.
Qed.

Lemma trim_chars s c :
  In c (list_ascii_of_string (Truncate.trim s)) -> In c (list_ascii_of_string s).
Proof.
  unfold Truncate.trim. intros H.
  apply reverse_chars, trimStart_chars, reverse_chars, trimStart_chars in H. exact H.
Qed.

Lemma lower_not_capital_R c : lower c <> "R"%char.
Proof. destruct c as [[] [] [] [] [] [] [] []]; vm_compute; discriminate. Qed.

Lemma toLowerCase_chars s c :
  In c (list_ascii_of_string (toLowerCase s)) -> exists c', c = lower c'.
Proof.
  induction s as [|b s IH]; [contradiction|]. cbn.
  intros [<-|H]; [exists b; reflexivity|now apply IH].
Qed.

(** X13: the entry [chmod -R 777] of the block list never matches in
    [execute]: the command is lower-cased before the list is searched, and
    the entry has a capital letter. A recursive [chmod -R 777] is flagged
    as dangerous by [getConfirmation], which searches the command as
    typed, and is not stopped by the guard of [execute]. *)
Theorem recursive_chmod_passes_the_block_list (command : string) :
  includes (Truncate.trim (toLowerCase command)) "chmod -R 777" = false /\
  (forall rest,
     Tools.conf_isDangerous
       (Shell.getConfirmation (Json.JObj []) ("chmod -R 777 " ++ rest)) = true) /\
  blockedResult "chmod -R 777 /srv" = None.
Proof.
  split; [|split; [intros rest|reflexivity]].
  2:{ unfold Shell.getConfirmation.
      assert (H : existsb (includes ("chmod -R 777 " ++ rest)) BLOCKED_COMMANDS = true).
      { apply existsb_exists. exists "chmod -R 777". split; [cbn; tauto|reflexivity]. }
      rewrite H. reflexivity. }
  destruct (includes (Truncate.trim (toLowerCase command)) "chmod -R 777") eqn:E;
    [exfalso|reflexivity].
  assert (Hin : In "R"%char (list_ascii_of_string "chmod -R 777"))
    by (cbn; tauto).
  apply (includes_chars _ _ _ E), trim_chars, toLowerCase_chars in Hin.
  destruct Hin as [c' Hc']. symmetry in Hc'. now apply lower_not_capital_R in Hc'.
Qed.

End ShellProps.

(** ** Pruning: repeated calls, token accounting, what the provider sees *)
Module PruneProps.
Import Context Transcript.
Local Open Scope Z_scope.
Local Open Scope list_scope.

Lemma clearMessage_tokens model now msg :
  message_tokens model (clearMessage model now msg) = 8.
Proof. reflexivity. Qed.

Lemma clearMessage_is_pruned model now msg :
  is_tool_result msg = true -> is_pruned_tool (clearMessage model now msg) = true.
Proof. unfold is_pruned_tool, is_tool_result. simpl. intros ->. reflexivity. Qed.

Lemma clearMessage_toDict model now msg :
  without_content (toDict (clearMessage model now msg)) = without_content (toDict msg).
Proof.
  unfold toDict, without_content. cbn [role toolCallId toolCalls content clearMessage].
  rewrite !List.filter_app.
  destruct (truthy_string (content msg)); reflexivity.
Qed.

Lemma alter_without_content model now i : forall l,
  map (fun m => without_content (toDict m)) (alter (clearMessage model now) i l)
  = map (fun m => without_content (toDict m)) l.
Proof.
  induction i as [|i IH]; intros [|m l]; try reflexivity.
  - cbn [alter list_alter map]. now rewrite clearMessage_toDict.
  - change (alter (clearMessage model now) (S i) (m :: l))
      with (m :: alter (clearMessage model now) i l).
    cbn [map]. now rewrite IH.
Qed.

Lemma clearAll_without_content model clock positions : forall count l,
  map (fun m => without_content (toDict m)) (fst (clearAll model clock count positions l))
  = map (fun m => without_content (toDict m)) l.
Proof.
  induction positions as [|p rest IH]; intros count l; [reflexivity|].
  cbn [clearAll]. rewrite IH. apply alter_without_content.
Qed.

Lemma alter_userCount model now i : forall l,
  userCount (alter (clearMessage model now) i l) = userCount l.
Proof.
  induction i as [|i IH]; intros [|m l]; try reflexivity.
  - unfold userCount. cbn [alter list_alter List.filter].
    change (is_user (clearMessage model now m)) with (is_user m).
    destruct (is_user m); reflexivity.
  - change (alter (clearMessage model now) (S i) (m :: l))
      with (m :: alter (clearMessage model now) i l).
    unfold userCount in *. cbn [List.filter].
    destruct (is_user m); cbn [List.length]; now rewrite IH.
Qed.

Lemma clearAll_userCount model clock positions : forall count l,
  userCount (fst (clearAll model clock count positions l)) = userCount l.
Proof.
  induction positions as [|p rest IH]; intros count l; [reflexivity|].
  cbn [clearAll]. rewrite IH. apply alter_userCount.
Qed.

(** The messages of a manager after a call: as before, or cleared at
    the candidates. *)
Lemma prune_messages clock cm :
  pruneToolOutputs clock cm = (cm, 0%nat) \/
  ((2 <= userCount (messages cm))%nat /\
   PRUNE_MINIMUM_TOKENS <= candidate_total (modelName cm) (messages cm) /\
   pruneToolOutputs clock cm =
     (with_messages cm
        (fst (clearAll (modelName cm) clock 0 (candidates (modelName cm) (messages cm))
                (messages cm))),
      List.length (candidates (modelName cm) (messages cm)))).
Proof.
  destruct (Nat.leb_spec 2 (userCount (messages cm))) as [Hu|Hu].
  - rewrite (ContextProps.prune_with_two_users clock cm Hu).
    destruct (Z.ltb_spec (candidate_total (modelName cm) (messages cm)) PRUNE_MINIMUM_TOKENS)
      as [Hlt|Hge]; [left; reflexivity|right].
    split; [exact Hu|]. split; [exact Hge|].
    destruct (ContextProps.clearAll_spec (modelName cm) clock
                (candidates (modelName cm) (messages cm)) 0%nat (messages cm)
                (ContextProps.candidates_below_NoDup _ _ _)) as [Hn _].
    rewrite Hn. reflexivity.
  - left. unfold pruneToolOutputs. rewrite ContextProps.userCount_filter.
    replace (userCount (messages cm) <? 2)%nat with true
      by (symmetry; apply Nat.ltb_lt; exact Hu).
    reflexivity.
Qed.

(** After the candidates are cleared no position is a candidate. *)
Lemma no_candidate_after_clearing model clock ms i :
  candidate model
    (fst (clearAll model clock 0 (candidates model ms) ms)) i = false.
Proof.
  set (ms' := fst (clearAll model clock 0 (candidates model ms) ms)).
  destruct (ContextProps.clearAll_spec model clock (candidates model ms) 0%nat ms
              (ContextProps.candidates_below_NoDup _ _ _)) as [_ [Hlen Hat]].
  fold ms' in Hlen, Hat.
  destruct (candidate model ms' i) eqn:Hc; [exfalso|reflexivity].
  unfold candidate in Hc. destruct (ms' !! i) as [m'|] eqn:Hm'; [|discriminate].
  apply andb_true_iff in Hc. destruct Hc as [Hc Hacc].
  apply andb_true_iff in Hc. destruct Hc as [Htool Hreach].
  (* every candidate of [ms] lies below [i] *)
  assert (Hbelow : forall c, In c (candidates model ms) -> (c < i)%nat).
  { intros c Hin. destruct (Nat.lt_ge_cases c i) as [|Hge]; [assumption|exfalso].
    pose proof Hin as Hcand. apply ContextProps.candidates_In in Hcand.
    unfold candidate in Hcand. destruct (ms !! c) as [mc|] eqn:Hmc; [|discriminate].
    apply andb_true_iff in Hcand. destruct Hcand as [Hcand _].
    apply andb_true_iff in Hcand. destruct Hcand as [Htc _].
    destruct (Hat c mc Hmc) as [_ Hcl]. destruct (Hcl Hin) as [k [_ Hres]].
    unfold reached in Hreach. apply negb_true_iff in Hreach.
    assert (Hex : existsb is_pruned_tool (drop i ms') = true).
    { apply existsb_exists. exists (clearMessage model (clock (0 + k)%nat) mc). split.
      - apply list_elem_of_In. apply (list_elem_of_lookup_2 _ (c - i)%nat).
        rewrite lookup_drop. replace (i + (c - i))%nat with c by lia. exact Hres.
      - now apply clearMessage_is_pruned. }
    congruence. }
  assert (Hdrop : drop i ms' = drop i ms).
  { apply list_eq. intros k. rewrite !lookup_drop.
    destruct (ms !! (i + k)%nat) as [m|] eqn:Hm.
    - destruct (Hat (i + k)%nat m Hm) as [Hkeep _]. apply Hkeep.
      intros Hin. apply Hbelow in Hin. lia.
    - apply lookup_ge_None. apply lookup_ge_None in Hm. lia. }
  assert (Hsame : ms !! i = Some m').
  { pose proof (f_equal (fun l => l !! 0%nat) Hdrop) as H0. cbn beta in H0.
    rewrite !lookup_drop, Nat.add_0_r in H0. congruence. }
  assert (Hcand : candidate model ms i = true).
  { unfold candidate. rewrite Hsame, Htool. unfold reached, accumulated in *.
    rewrite <- Hdrop, Hreach, Hacc. reflexivity. }
  apply ContextProps.candidates_In, Hbelow in Hcand. lia.
Qed.

Lemma candidates_after_clearing model clock ms :
  candidates model (fst (clearAll model clock 0 (candidates model ms) ms)) = [].
Proof.
  unfold candidates at 1, candidates_below.
  induction (rev (seq 0 (List.length (fst (clearAll model clock 0 (candidates model ms) ms)))))
    as [|i l IH]; [reflexivity|].
  cbn [List.filter]. now rewrite no_candidate_after_clearing.
Qed.

(** Whether a call prunes does not depend on the time of the call. *)
Lemma prune_nothing_any_clock clock clock' cm :
  pruneToolOutputs clock cm = (cm, 0%nat) -> pruneToolOutputs clock' cm = (cm, 0%nat).
Proof.
  intros Hsame.
  destruct (prune_messages clock' cm) as [H | [_ [_ Hp']]]; [exact H|].
  destruct (prune_messages clock cm) as [_ | [_ [_ Hp]]].
  - destruct (Nat.leb_spec 2 (userCount (messages cm))) as [Hu|Hu].
    + rewrite (ContextProps.prune_with_two_users clock' cm Hu).
      rewrite (ContextProps.prune_with_two_users clock cm Hu) in Hsame.
      destruct (candidate_total (modelName cm) (messages cm) <? PRUNE_MINIMUM_TOKENS);
        [reflexivity|].
      apply (f_equal snd) in Hsame. cbn [snd] in Hsame.
      destruct (ContextProps.clearAll_spec (modelName cm) clock
                  (candidates (modelName cm) (messages cm)) 0%nat (messages cm)
                  (ContextProps.candidates_below_NoDup _ _ _)) as [Hcount _].
      rewrite Hsame in Hcount. simpl in Hcount. symmetry in Hcount.
      apply List.length_zero_iff_nil in Hcount. rewrite Hcount. cbn [clearAll fst snd].
      now rewrite ContextProps.with_messages_same.
    + unfold pruneToolOutputs. rewrite ContextProps.userCount_filter.
      replace (userCount (messages cm) <? 2)%nat with true
        by (symmetry; apply Nat.ltb_lt; exact Hu).
      reflexivity.
  - rewrite Hsame in Hp. apply (f_equal snd) in Hp. cbn [snd] in Hp.
    symmetry in Hp. apply List.length_zero_iff_nil in Hp.
    rewrite Hp', Hp. cbn [clearAll fst List.length].
    now rewrite ContextProps.with_messages_same.
Qed.

(** X14: pruning is idempotent: a second call, at any later time, returns
    0 and changes nothing, because the scan now stops at the newest
    message cleared by the first call. *)
Theorem prune_twice_changes_nothing (clock clock' : nat -> Z) (cm : ContextManager) :
  pruneToolOutputs clock' (fst (pruneToolOutputs clock cm))
  = (fst (pruneToolOutputs clock cm), 0%nat).
Proof.
  destruct (prune_messages clock cm) as [Hsame | [Hu [Hge Hpruned]]].
  - rewrite Hsame. cbn [fst]. exact (prune_nothing_any_clock clock clock' cm Hsame).
  - rewrite Hpruned. cbn [fst].
    set (ms' := fst (clearAll (modelName cm) clock 0
                       (candidates (modelName cm) (messages cm)) (messages cm))).
    assert (Hu' : (2 <= userCount (messages (with_messages cm ms')))%nat).
    { cbn [messages with_messages]. unfold ms'. now rewrite clearAll_userCount. }
    rewrite (ContextProps.prune_with_two_users clock' _ Hu').
    cbn [messages with_messages modelName].
    unfold candidate_total. unfold ms'. rewrite candidates_after_clearing.
    reflexivity.
Qed.

Lemma storedTokens_alter model now : forall i l msg,
  l !! i = Some msg ->
  storedTokens model (alter (clearMessage model now) i l)
  = storedTokens model l - message_tokens model msg + 8.
Proof.
  induction i as [|i IH]; intros [|m l] msg H; try discriminate.
  - injection H as ->. unfold storedTokens. cbn [alter list_alter map fold_right].
    rewrite clearMessage_tokens. lia.
  - change (alter (clearMessage model now) (S i) (m :: l))
      with (m :: alter (clearMessage model now) i l).
    unfold storedTokens in *. cbn [map fold_right]. rewrite (IH l msg H). lia.
Qed.

Lemma sum_tokens_alter model now p l positions :
  ~ In p positions ->
  sum_tokens model (alter (clearMessage model now) p l) positions
  = sum_tokens model l positions.
Proof.
  intros Hp. unfold sum_tokens. f_equal. apply map_ext_in. intros i Hi.
  unfold tokens_at. rewrite list_lookup_alter_ne; [reflexivity|].
  intros ->. contradiction.
Qed.

Lemma clearAll_storedTokens model clock positions : forall count l,
  List.NoDup positions ->
  (forall p, In p positions -> (p < List.length l)%nat) ->
  storedTokens model (fst (clearAll model clock count positions l))
  = storedTokens model l - sum_tokens model l positions
    + 8 * Z.of_nat (List.length positions).
Proof.
  induction positions as [|p rest IH]; intros count l Hnd Hin.
  - unfold sum_tokens. simpl. lia.
  - inversion Hnd as [|? ? Hp Hrest]; subst.
    destruct (lookup_lt_is_Some_2 l p (Hin p (or_introl eq_refl))) as [msg Hmsg].
    cbn [clearAll]. rewrite IH; [|exact Hrest|].
    + rewrite (storedTokens_alter model (clock count) p l msg Hmsg).
      rewrite (sum_tokens_alter model (clock count) p l rest Hp).
      rewrite ContextProps.sum_tokens_cons. unfold tokens_at at 1. rewrite Hmsg.
      cbn [List.length]. lia.
    + intros q Hq. rewrite length_alter. apply Hin. right. exact Hq.
Qed.

(** X15: the tokens that the stored messages count for, after a call of
    [pruneToolOutputs] that cleared [count] messages: those before, less
    the tokens of the cleared messages, plus 8 for each notice that
    replaces one. A call that returns 0 changes nothing, and one that
    prunes releases at least 20,000 tokens less 8 per cleared message. *)
Theorem prune_token_accounting (clock : nat -> Z) (cm : ContextManager) :
  let model := modelName cm in
  let after := fst (pruneToolOutputs clock cm) in
  let count := snd (pruneToolOutputs clock cm) in
  if (count =? 0)%nat then after = cm
  else
    storedTokens model (messages after)
      = storedTokens model (messages cm) - candidate_total model (messages cm)
        + 8 * Z.of_nat count /\
    storedTokens model (messages after)
      <= storedTokens model (messages cm) - 20000 + 8 * Z.of_nat count.
Proof.
  cbv zeta.
  destruct (prune_messages clock cm) as [Hsame | [Hu [Hge Hpruned]]].
  - rewrite Hsame. reflexivity.
  - rewrite Hpruned. cbn [fst snd messages with_messages].
    assert (Hne : candidates (modelName cm) (messages cm) <> []).
    { intros E. unfold candidate_total in Hge. rewrite E in Hge.
      unfold sum_tokens, PRUNE_MINIMUM_TOKENS in Hge. simpl in Hge. lia. }
    destruct (candidates (modelName cm) (messages cm)) as [|c cs] eqn:Hcs; [congruence|].
    cbn [List.length Nat.eqb]. rewrite <- Hcs.
    rewrite clearAll_storedTokens.
    + unfold candidate_total, PRUNE_MINIMUM_TOKENS in *. rewrite Hcs in *.
      cbn [List.length]. split; [reflexivity|lia].
    + apply ContextProps.candidates_below_NoDup.
    + intros p Hp. apply ContextProps.candidates_In in Hp. unfold candidate in Hp.
      destruct (messages cm !! p) eqn:E; [|discriminate].
      now apply lookup_lt_Some in E.
Qed.

(** X16: pruning changes what [getMessages] sends to the provider in the
    [content] key only: the number of entries, their order, and the
    role, [tool_call_id] and [tool_calls] of each are as before, so every
    tool result still answers the call it answered. *)
Theorem prune_keeps_the_shape_sent (clock : nat -> Z) (cm : ContextManager) :
  map without_content (getMessages (fst (pruneToolOutputs clock cm)))
  = map without_content (getMessages cm).
Proof.
  destruct (prune_messages clock cm) as [Hsame | [_ [_ Hpruned]]].
  - rewrite Hsame. reflexivity.
  - rewrite Hpruned. cbn [fst]. unfold getMessages.
    cbn [systemPrompt messages with_messages].
    rewrite !map_app, !map_map. f_equal.
    apply clearAll_without_content.
Qed.

End PruneProps.

(** ** The client: what a consumer of the event stream receives *)
Module StreamProps.
Import Json Client Assembly.
Local Open Scope list_scope.

Lemma textOf_app a b : textOf (a ++ b) = (textOf a ++ textOf b)%string.
Proof.
  unfold textOf. induction a as [|e a IH]; [reflexivity|].
  cbn [app map fold_right]. rewrite IH.
  symmetry. apply TruncateProps.append_assoc_string.
Qed.

Lemma stepToolCall_no_text m d : textOf (snd (stepToolCall m d)) = "".
Proof.
  unfold stepToolCall.
  destruct (map_get (index d) m); destruct (truthy_opt_string (function_name d));
    destruct (truthy_opt_string (function_arguments d)); reflexivity.
Qed.

Lemma stepToolCalls_no_text ds : forall m, textOf (snd (stepToolCalls m ds)) = "".
Proof.
  induction ds as [|d rest IH]; intros m; [reflexivity|].
  cbn [stepToolCalls].
  pose proof (stepToolCall_no_text m d) as H1.
  destruct (stepToolCall m d) as [m1 ev1]. specialize (IH m1).
  destruct (stepToolCalls m1 rest) as [m2 ev2]. cbn [snd] in *.
  rewrite textOf_app, H1, IH. reflexivity.
Qed.

Lemma stepChunk_text st c : textOf (snd (stepChunk st c)) = chunkText c.
Proof.
  unfold stepChunk, chunkText, firstChoice.
  destruct (choices c) as [[|choice rest]|]; try reflexivity.
  assert (Ht : textOf (if truthy_opt_string (delta_content choice)
                       then [event_text (or_string (delta_content choice) "")] else [])
               = or_string (delta_content choice) "").
  { destruct (delta_content choice) as [s|]; [|reflexivity].
    unfold truthy_opt_string.
    destruct (truthy_string s) eqn:E.
    - rewrite (ApprovalProps.or_string_truthy s "" E).
      unfold textOf. cbn [map fold_right event_text type textDelta].
      rewrite (ApprovalProps.or_string_truthy s "" E).
      apply TruncateProps.append_empty_r.
    - unfold or_string. rewrite E. reflexivity. }
  destruct (delta_tool_calls choice) as [ds|].
  - pose proof (stepToolCalls_no_text ds (st_toolCalls st)) as H.
    destruct (stepToolCalls (st_toolCalls st) ds) as [m1 evs]. cbn [snd] in *.
    rewrite textOf_app, H, Ht. apply TruncateProps.append_empty_r.
  - cbn [snd]. rewrite textOf_app, Ht. apply TruncateProps.append_empty_r.
Qed.

Lemma stepChunks_text cs : forall st,
  textOf (snd (stepChunks st cs)) = fold_right String.append "" (map chunkText cs).
Proof.
  induction cs as [|c rest IH]; intros st; [reflexivity|].
  cbn [stepChunks map fold_right].
  pose proof (stepChunk_text st c) as H1.
  destruct (stepChunk st c) as [st1 ev1]. specialize (IH st1).
  destruct (stepChunks st1 rest) as [st2 ev2]. cbn [snd] in *.
  now rewrite textOf_app, H1, IH.
Qed.

Lemma completes_no_text parse (m : list (Z * Assembled)) :
  textOf (map (fun kv => completeEvent parse (snd kv)) m) = "".
Proof. induction m as [|kv m IH]; [reflexivity|]. exact IH. Qed.

(** X17: the text deltas of a streamed reply put together give the text
    of the chunks put together: the content of the first choice of each
    chunk, in order, with nothing lost, added or reordered, whether the
    stream ends or breaks. *)
Theorem streamed_text_is_the_chunks_text
    (parse : string -> option json) (reply : StreamReply) :
  textOf (fst (streamResponse parse reply))
  = fold_right String.append "" (map chunkText (chunks reply)).
Proof.
  unfold streamResponse.
  pose proof (stepChunks_text (chunks reply) initialState) as H.
  destruct (stepChunks initialState (chunks reply)) as [st evs]. cbn [snd] in H.
  destruct (broken reply); cbn [fst]; [exact H|].
  rewrite !textOf_app, H, completes_no_text.
  change (textOf [_]) with "". cbn [String.append].
  apply TruncateProps.append_empty_r.
Qed.

(** *** Tool calls, index by index *)

Lemma map_get_app idx m k v :
  map_get idx (m ++ [(k, v)]) =
    match map_get idx m with
    | Some a => Some a
    | None => if Z.eqb k idx then Some v else None
    end.
Proof.
  induction m as [|[k' v'] m IH]; [reflexivity|].
  cbn [app map_get]. destruct (Z.eqb k' idx); [reflexivity|exact IH].
Qed.

Lemma map_get_update idx k f m :
  map_get idx (map_update k f m) =
    if Z.eqb k idx then option_map f (map_get idx m) else map_get idx m.
Proof.
  induction m as [|[k' v'] m IH]; [now destruct (Z.eqb k idx)|].
  cbn [map_update map_get].
  destruct (Z.eqb_spec k' k) as [->|Hk'].
  - cbn [map_get]. destruct (Z.eqb_spec k idx); reflexivity.
  - cbn [map_get]. destruct (Z.eqb_spec k' idx) as [->|Hi].
    + destruct (Z.eqb_spec k idx); [congruence|reflexivity].
    + exact IH.
Qed.

Lemma map_update_keys k f m : map fst (map_update k f m) = map fst m.
Proof.
  induction m as [|[k' v'] m IH]; [reflexivity|].
  cbn [map_update]. destruct (Z.eqb k' k); cbn [map fst]; [reflexivity|now rewrite IH].
Qed.

Lemma map_get_keys idx m :
  existsb (Z.eqb idx) (map fst m) = match map_get idx m with Some _ => true | None => false end.
Proof.
  induction m as [|[k v] m IH]; [reflexivity|].
  cbn [map fst existsb map_get]. rewrite (Z.eqb_sym idx k).
  destruct (Z.eqb k idx); [reflexivity|exact IH].
Qed.

(** The entry that the deltas of a tool call begin with. *)
Lemma stepToolCall_get m d j :
  map_get j (fst (stepToolCall m d)) =
    if Z.eqb (index d) j then
      Some match map_get j m with
           | Some a => mkAssembled (asm_id a) (asm_name a)
                         (asm_arguments a ++ or_string (function_arguments d) "")
           | None => mkAssembled (or_string (chunk_id d) "") (or_string (function_name d) "")
                       (or_string (function_arguments d) "")
           end
    else map_get j m.
Proof.
  unfold stepToolCall.
  destruct (Z.eqb_spec (index d) j) as [<-|Hj].
  - destruct (map_get (index d) m) as [a|] eqn:Hget.
    + unfold truthy_opt_string, or_string.
      destruct (function_arguments d) as [s|]; [destruct (truthy_string s) eqn:Hs|];
        cbn [fst].
      * rewrite map_get_update, Z.eqb_refl, Hget. reflexivity.
      * rewrite Hget. destruct a. cbn. now rewrite TruncateProps.append_empty_r.
      * rewrite Hget. destruct a. cbn. now rewrite TruncateProps.append_empty_r.
    + unfold truthy_opt_string, or_string.
      destruct (function_name d) as [n|]; [destruct (truthy_string n) eqn:Hn|];
        (destruct (function_arguments d) as [s|]; [destruct (truthy_string s) eqn:Hs|]);
        cbn [fst];
        rewrite ?map_get_update, ?Z.eqb_refl, ?map_get_update, ?Z.eqb_refl,
          ?map_get_app, ?Hget, ?Z.eqb_refl; reflexivity.
  - apply Z.eqb_neq in Hj.
    destruct (map_get (index d) m) as [a|] eqn:Hget;
      (destruct (truthy_opt_string (function_name d)));
      (destruct (truthy_opt_string (function_arguments d)));
      cbn [fst];
      rewrite ?map_get_update, ?Hj, ?map_get_update, ?Hj, ?map_get_app, ?Hj;
      try reflexivity; destruct (map_get j m); reflexivity.
Qed.

Lemma stepToolCall_keys m d :
  map fst (fst (stepToolCall m d)) =
    if existsb (Z.eqb (index d)) (map fst m) then map fst m
    else map fst m ++ [index d].
Proof.
  rewrite map_get_keys. unfold stepToolCall.
  destruct (map_get (index d) m) as [a|];
    (destruct (truthy_opt_string (function_name d)));
    (destruct (truthy_opt_string (function_arguments d)));
    cbn [fst]; rewrite ?map_update_keys, ?map_update_keys, ?map_app; reflexivity.
Qed.

Lemma stepToolCalls_get ds : forall m j,
  map_get j (fst (stepToolCalls m ds)) =
    match map_get j m with
    | Some a =>
        Some (mkAssembled (asm_id a) (asm_name a) (asm_arguments a ++ argumentsFor j ds))
    | None =>
        match forIndex j ds with
        | [] => None
        | _ :: _ => Some (mkAssembled (idFor j ds) (nameFor j ds) (argumentsFor j ds))
        end
    end.
Proof.
  induction ds as [|d rest IH]; intros m j.
  - cbn. destruct (map_get j m) as [[i n a]|]; [|reflexivity].
    cbn. now rewrite TruncateProps.append_empty_r.
  - cbn [stepToolCalls].
    pose proof (stepToolCall_get m d j) as Hd.
    destruct (stepToolCall m d) as [m1 ev1]. specialize (IH m1 j).
    destruct (stepToolCalls m1 rest) as [m2 ev2]. cbn [fst] in *.
    rewrite IH, Hd. unfold argumentsFor, idFor, nameFor, forIndex. cbn [List.filter].
    destruct (Z.eqb (index d) j).
    + cbn [map fold_right].
      destruct (map_get j m) as [a|]; cbn [asm_id asm_name asm_arguments].
      * now rewrite TruncateProps.append_assoc_string.
      * reflexivity.
    + reflexivity.
Qed.

Lemma stepToolCalls_keys ds : forall m,
  map fst (fst (stepToolCalls m ds)) = map fst m ++ indices (map fst m) ds.
Proof.
  induction ds as [|d rest IH]; intros m.
  - cbn. now rewrite app_nil_r.
  - cbn [stepToolCalls indices].
    pose proof (stepToolCall_keys m d) as Hd.
    destruct (stepToolCall m d) as [m1 ev1]. specialize (IH m1).
    destruct (stepToolCalls m1 rest) as [m2 ev2]. cbn [fst] in *.
    rewrite IH, Hd.
    destruct (existsb (Z.eqb (index d)) (map fst m)); [reflexivity|].
    now rewrite <- app_assoc.
Qed.

Lemma indices_fresh ds : forall seen j,
  In j (indices seen ds) -> existsb (Z.eqb j) seen = false.
Proof.
  induction ds as [|d rest IH]; intros seen j Hj; [contradiction|].
  cbn [indices] in Hj.
  destruct (existsb (Z.eqb (index d)) seen) eqn:E; [now apply IH|].
  destruct Hj as [<-|Hj]; [exact E|].
  apply IH in Hj. rewrite existsb_app in Hj. now apply orb_false_iff in Hj.
Qed.

Lemma indices_NoDup ds : forall seen, List.NoDup (indices seen ds).
Proof.
  induction ds as [|d rest IH]; intros seen; cbn [indices]; [constructor|].
  destruct (existsb (Z.eqb (index d)) seen); [apply IH|].
  constructor; [|apply IH].
  intros Hin. apply indices_fresh in Hin. rewrite existsb_app in Hin.
  apply orb_false_iff in Hin. destruct Hin as [_ Hin]. cbn in Hin.
  now rewrite Z.eqb_refl in Hin.
Qed.

(** A map with distinct keys is given by its keys and its lookups. *)
Lemma map_by_keys (m : list (Z * Assembled)) (v : Z -> Assembled) :
  List.NoDup (map fst m) ->
  (forall k, In k (map fst m) -> map_get k m = Some (v k)) ->
  m = map (fun k => (k, v k)) (map fst m).
Proof.
  induction m as [|[k a] m IH]; intros Hnd Hget; [reflexivity|].
  cbn [map fst] in *. inversion Hnd as [|? ? Hk Hrest]; subst.
  pose proof (Hget k (or_introl eq_refl)) as Hk0.
  cbn [map_get] in Hk0. rewrite Z.eqb_refl in Hk0. injection Hk0 as ->.
  f_equal. apply IH; [exact Hrest|].
  intros j Hj. specialize (Hget j (or_intror Hj)). cbn [map_get] in Hget.
  destruct (Z.eqb_spec k j) as [->|_]; [contradiction|exact Hget].
Qed.

Lemma stepChunks_toolCalls cs : forall st,
  st_toolCalls (fst (stepChunks st cs))
  = fst (stepToolCalls (st_toolCalls st) (flat_map chunkDeltas cs)).
Proof.
  assert (Happ : forall a m b,
            fst (stepToolCalls m (a ++ b))
            = fst (stepToolCalls (fst (stepToolCalls m a)) b)).
  { induction a as [|d a IHa]; intros m b; [reflexivity|].
    cbn [app stepToolCalls].
    destruct (stepToolCall m d) as [m1 ev1]. specialize (IHa m1 b).
    destruct (stepToolCalls m1 (a ++ b)) as [m2 ev2].
    destruct (stepToolCalls m1 a) as [m3 ev3]. cbn [fst] in *. exact IHa. }
  induction cs as [|c rest IH]; intros st; [reflexivity|].
  cbn [stepChunks flat_map]. rewrite Happ.
  assert (Hc : st_toolCalls (fst (stepChunk st c))
               = fst (stepToolCalls (st_toolCalls st) (chunkDeltas c))).
  { unfold stepChunk, chunkDeltas, firstChoice.
    destruct (choices c) as [[|choice more]|]; try reflexivity.
    destruct (delta_tool_calls choice) as [ds|]; [|reflexivity].
    change (default [] (Some ds)) with ds.
    destruct (stepToolCalls (st_toolCalls st) ds). reflexivity. }
  destruct (stepChunk st c) as [st1 ev1]. specialize (IH st1).
  destruct (stepChunks st1 rest) as [st2 ev2]. cbn [fst] in *.
  now rewrite IH, Hc.
Qed.

(** X18: at the end of a stream that did not break there is one
    TOOL_CALL_COMPLETE event per tool-call index, in the order in which
    the indexes first appeared. Its arguments are those of all deltas of
    that index put together in arrival order, however the deltas of
    different calls interleave; its id and its name are those of the
    first delta of the index alone (empty when that delta has none). *)
Theorem tool_calls_assembled_by_index
    (parse : string -> option json) (reply : StreamReply)
    (Hended : broken reply = None) :
  let ds := flat_map chunkDeltas (chunks reply) in
  List.filter (has_type TOOL_CALL_COMPLETE) (fst (streamResponse parse reply))
  = map (fun idx => event_complete
                      (mkToolCall (idFor idx ds) (Some (nameFor idx ds))
                         (parseToolCallArguments parse (argumentsFor idx ds))))
        (indices [] ds).
Proof.
  intros ds. unfold streamResponse.
  pose proof (ClientProps.stepChunks_progress (chunks reply) initialState) as Hp.
  pose proof (stepChunks_toolCalls (chunks reply) initialState) as Hm.
  destruct (stepChunks initialState (chunks reply)) as [st evs]. rewrite Hended.
  cbn [fst snd] in *. fold ds in Hm. cbn [st_toolCalls initialState] in Hm.
  rewrite !List.filter_app,
    (ClientProps.progress_filtered TOOL_CALL_COMPLETE evs eq_refl Hp).
  rewrite ClientProps.completes_kept. cbn [List.filter has_type type type_eqb app].
  rewrite app_nil_r.
  pose proof (stepToolCalls_keys ds []) as Hkeys. cbn [map app] in Hkeys.
  rewrite <- Hm in Hkeys.
  rewrite (map_by_keys (st_toolCalls st)
             (fun k => mkAssembled (idFor k ds) (nameFor k ds) (argumentsFor k ds))).
  - rewrite Hkeys, map_map. reflexivity.
  - rewrite Hkeys. apply indices_NoDup.
  - intros k Hk. rewrite Hm, stepToolCalls_get. cbn [map_get].
    destruct (forIndex k ds) eqn:E; [|reflexivity].
    exfalso. rewrite Hm in Hk.
    assert (Hsome : map_get k (fst (stepToolCalls [] ds)) <> None).
    { pose proof (map_get_keys k (fst (stepToolCalls [] ds))) as Hx.
      destruct (map_get k (fst (stepToolCalls [] ds))); [discriminate|].
      assert (existsb (Z.eqb k) (map fst (fst (stepToolCalls [] ds))) = true).
      { apply existsb_exists. exists k. split; [exact Hk|apply Z.eqb_refl]. }
      congruence. }
    apply Hsome. rewrite stepToolCalls_get. cbn [map_get]. now rewrite E.
Qed.

Lemma tool_calls_assembled_by_index_witness :
  List.filter (has_type TOOL_CALL_COMPLETE)
    (fst (streamResponse JSON_parse
       (mkStreamReply
          [mkChunk None (Some [mkChoice None None
             (Some [mkToolCallChunk 1 (Some "call_b") (Some "grep") (Some "{oo");
                    mkToolCallChunk 0 (Some "call_a") None
                      (Some Samples.arguments_begin)])]);
           mkChunk None (Some [mkChoice (Some "tool_calls") None
             (Some [mkToolCallChunk 0 None (Some "read_file") (Some Samples.arguments_end);
                    mkToolCallChunk 1 None None (Some "ps")])])]
          None)))
  = [event_complete (mkToolCall "call_b" (Some "grep")
                       (JObj [("raw_arguments", JStr "{oops")]));
     event_complete (mkToolCall "call_a" (Some "")
                       (JObj [("path", JStr "README.md")]))].
Proof.
  rewrite (tool_calls_assembled_by_index JSON_parse
    (mkStreamReply
          [mkChunk None (Some [mkChoice None None
             (Some [mkToolCallChunk 1 (Some "call_b") (Some "grep") (Some "{oo");
                    mkToolCallChunk 0 (Some "call_a") None
                      (Some Samples.arguments_begin)])]);
           mkChunk None (Some [mkChoice (Some "tool_calls") None
             (Some [mkToolCallChunk 0 None (Some "read_file") (Some Samples.arguments_end);
                    mkToolCallChunk 1 None None (Some "ps")])])]
          None) eq_refl).
  vm_compute. reflexivity.
Defined.

(** *** The closing event *)

Lemma stepChunk_state st c :
  st_finishReason (fst (stepChunk st c))
    = match chunkFinish c with Some r => Some r | None => st_finishReason st end /\
  st_usage (fst (stepChunk st c))
    = match chunkUsage c with Some u => Some u | None => st_usage st end.
Proof.
  unfold stepChunk, chunkFinish, chunkUsage, firstChoice.
  destruct (choices c) as [[|choice more]|]; cbn [fst st_finishReason st_usage].
  - split; [reflexivity|]. destruct (chunk_usage c); reflexivity.
  - destruct (delta_tool_calls choice) as [ds|].
    + destruct (stepToolCalls (st_toolCalls st) ds) as [m1 evs].
      cbn [fst st_finishReason st_usage]. split.
      * destruct (truthy_opt_string (finish_reason choice)) eqn:E; [|reflexivity].
        destruct (finish_reason choice); [reflexivity|discriminate].
      * destruct (chunk_usage c); reflexivity.
    + cbn [fst st_finishReason st_usage]. split.
      * destruct (truthy_opt_string (finish_reason choice)) eqn:E; [|reflexivity].
        destruct (finish_reason choice); [reflexivity|discriminate].
      * destruct (chunk_usage c); reflexivity.
  - split; [reflexivity|]. destruct (chunk_usage c); reflexivity.
Qed.

Lemma stepChunks_state cs : forall st,
  st_finishReason (fst (stepChunks st cs))
    = match lastSome (map chunkFinish cs) with
      | Some r => Some r | None => st_finishReason st end /\
  st_usage (fst (stepChunks st cs))
    = match lastSome (map chunkUsage cs) with
      | Some u => Some u | None => st_usage st end.
Proof.
  induction cs as [|c rest IH]; intros st; [split; reflexivity|].
  cbn [stepChunks map lastSome].
  destruct (stepChunk_state st c) as [Hf Hu].
  destruct (stepChunk st c) as [st1 ev1]. destruct (IH st1) as [IHf IHu].
  destruct (stepChunks st1 rest) as [st2 ev2]. cbn [fst] in *.
  rewrite IHf, IHu, Hf, Hu.
  split.
  - destruct (lastSome (map chunkFinish rest)); [reflexivity|].
    destruct (chunkFinish c); reflexivity.
  - destruct (lastSome (map chunkUsage rest)); [reflexivity|].
    destruct (chunkUsage c); reflexivity.
Qed.

(** X19: a stream that does not break closes with a MESSAGE_COMPLETE
    event that carries the last non-empty finish reason of the first
    choices and the usage of the last chunk that has one, be it a chunk
    without choices; it carries no text, error or tool call. *)
Theorem closing_event_reports_last_finish_and_usage
    (parse : string -> option json) (reply : StreamReply)
    (Hended : broken reply = None) :
  last (fst (streamResponse parse reply))
  = Some (mkStreamEvent MESSAGE_COMPLETE None None
            (lastSome (map chunkFinish (chunks reply))) None None
            (lastSome (map chunkUsage (chunks reply)))).
Proof.
  unfold streamResponse.
  destruct (stepChunks_state (chunks reply) initialState) as [Hf Hu].
  destruct (stepChunks initialState (chunks reply)) as [st evs]. rewrite Hended.
  cbn [fst] in *. rewrite app_assoc, last_snoc, Hf, Hu.
  cbn [st_finishReason st_usage initialState].
  destruct (lastSome (map chunkFinish (chunks reply)));
    destruct (lastSome (map chunkUsage (chunks reply))); reflexivity.
Qed.

Lemma closing_event_reports_last_finish_and_usage_witness :
  last (fst (streamResponse JSON_parse
    (mkStreamReply
       [mkChunk None (Some [mkChoice (Some "stop") (Some "done") None]);
        mkChunk (Some (mkChunkUsage 12 3 15 None)) (Some [])]
       None)))
  = Some (mkStreamEvent MESSAGE_COMPLETE None None (Some "stop") None None
            (Some (Usage.mkTokenUsage 12 3 15 0))).
Proof.
  rewrite (closing_event_reports_last_finish_and_usage JSON_parse
    (mkStreamReply
       [mkChunk None (Some [mkChoice (Some "stop") (Some "done") None]);
        mkChunk (Some (mkChunkUsage 12 3 15 None)) (Some [])]
       None) eq_refl).
  reflexivity.
Defined.

(** *** Attempts and what they leave in the stream *)

Section Attempts.
Variable parse : string -> option json.
Variable stream : bool.
Variable provider : nat -> Reply stream.

Lemma terminal_app a b :
  List.filter is_terminal (a ++ b) = List.filter is_terminal a ++ List.filter is_terminal b.
Proof. apply List.filter_app. Qed.

Lemma progress_not_terminal evs :
  Forall (fun e => is_progress e = true) evs -> List.filter is_terminal evs = [].
Proof.
  intros H. induction H as [|e evs He _ IH]; [reflexivity|].
  cbn [List.filter]. rewrite IH. unfold is_progress, is_terminal in *.
  destruct (type e); congruence.
Qed.

Lemma completes_not_terminal (m : list (Z * Assembled)) :
  List.filter is_terminal (map (fun kv => completeEvent parse (snd kv)) m) = [].
Proof. induction m as [|kv m IH]; [reflexivity|]. exact IH. Qed.

(** An attempt that fails has yielded no closing event; one that succeeds
    has yielded MESSAGE_COMPLETE, once and last. *)
Lemma tryBody_terminal (reply : Reply stream) :
  match snd (tryBody parse stream reply) with
  | Some _ => List.filter is_terminal (fst (tryBody parse stream reply)) = []
  | None =>
      exists pre final, fst (tryBody parse stream reply) = pre ++ [final] /\
        type final = MESSAGE_COMPLETE /\ List.filter is_terminal pre = []
  end.
Proof.
  clear provider. destruct stream; cbn [tryBody] in *.
  - unfold streamResponse.
    pose proof (ClientProps.stepChunks_progress (chunks reply) initialState) as Hp.
    destruct (stepChunks initialState (chunks reply)) as [st evs]. cbn [snd] in Hp.
    destruct (broken reply); cbn [fst snd].
    + now apply progress_not_terminal.
    + eexists (evs ++ _), _. split; [apply app_assoc|]. split; [reflexivity|].
      now rewrite terminal_app, progress_not_terminal, completes_not_terminal.
  - destruct reply as [m|e]; cbn [fst snd]; [|reflexivity].
    exists [], (nonStreamResponse parse m). repeat split.
Qed.

Lemma retryLoop_terminal fuel : forall attempt,
  (attempt <= 3)%nat -> (3 - attempt <= fuel)%nat ->
  exists pre final,
    yields (retryLoop parse stream provider (S fuel) attempt) = pre ++ [final] /\
    is_terminal final = true /\ List.filter is_terminal pre = [].
Proof.
  induction fuel as [|fuel IH]; intros attempt Hle Hfuel;
    rewrite (ClientProps.retryLoop_step parse stream provider _ attempt Hle);
    pose proof (tryBody_terminal (provider attempt)) as Hbody;
    unfold thrownAt; rewrite ClientProps.yields_app, ClientProps.yields_yielded;
    destruct (snd (tryBody parse stream (provider attempt))) as [e|].
  - replace (attempt <? 3)%nat with false by (symmetry; apply Nat.ltb_ge; lia).
    rewrite andb_false_r. exists (fst (tryBody parse stream (provider attempt))), (event_error (errorText e)).
    repeat split. exact Hbody.
  - destruct Hbody as [pre [final [-> [Hty Hpre]]]]. exists pre, final.
    rewrite app_nil_r. repeat split; [|exact Hpre].
    unfold is_terminal. now rewrite Hty.
  - destruct (retryable e && (attempt <? 3)%nat) eqn:Hretry.
    + apply andb_true_iff in Hretry. destruct Hretry as [_ Hlt]. apply Nat.ltb_lt in Hlt.
      destruct (IH (S attempt)) as [pre [final [Hy [Hfinal Hpre]]]]; [lia|lia|].
      exists (fst (tryBody parse stream (provider attempt)) ++ pre), final.
      change (yields (Sleep ?ms :: ?tr)) with (yields tr).
      rewrite Hy, app_assoc. repeat split; [exact Hfinal|].
      now rewrite terminal_app, Hbody, Hpre.
    + exists (fst (tryBody parse stream (provider attempt))), (event_error (errorText e)).
      repeat split. exact Hbody.
  - destruct Hbody as [pre [final [-> [Hty Hpre]]]]. exists pre, final.
    rewrite app_nil_r. repeat split; [|exact Hpre].
    unfold is_terminal. now rewrite Hty.
Qed.

End Attempts.

(** X20: whatever the provider does, the events of [chatCompletion] end
    with exactly one closing event, MESSAGE_COMPLETE or ERROR, and no
    event of these two types comes before it: a consumer that waits for
    the closing event is never left without one and never sees two. *)
Theorem stream_closes_exactly_once
    (parse : string -> option json) (stream : bool) (provider : nat -> Reply stream) :
  exists pre final,
    yields (chatCompletion parse stream provider) = pre ++ [final] /\
    (type final = MESSAGE_COMPLETE \/ type final = ERROR) /\
    List.filter is_terminal pre = [].
Proof.
  destruct (retryLoop_terminal parse stream provider 3 0%nat) as [pre [final [Hy [Hf Hpre]]]];
    [lia|lia|].
  exists pre, final. split; [exact Hy|]. split; [|exact Hpre].
  unfold is_terminal in Hf. destruct (type final); try discriminate; auto.
Qed.

Lemma yields_sleep ms tr : yields (Sleep ms :: tr) = yields tr.
Proof. reflexivity. Qed.

Lemma yields_one e : yields [Yield e] = [e].
Proof. reflexivity. Qed.

Ltac attempts_so_far :=
  repeat match goal with
         | H : thrownAt _ _ _ ?i = _ |- context [thrownAt _ _ _ ?i] => rewrite H
         | H : retryable ?e = _ |- context [retryable ?e] => rewrite H
         end;
  cbn [seq flat_map];
  repeat first [ rewrite ClientProps.yields_app | rewrite ClientProps.yields_yielded
               | rewrite yields_sleep | rewrite yields_one ];
  rewrite ?app_nil_r, <- ?app_assoc; reflexivity.

(** X21: the events of an attempt that fails and is retried stay in the
    stream: what [chatCompletion] yields is what each attempt yielded,
    one attempt after the other up to the last one, followed by the ERROR
    event when the last attempt failed. Nothing marks the start of a new
    attempt, so text streamed before a failure is followed by the whole
    text of the retry. *)
Theorem failed_attempts_stay_in_the_stream
    (parse : string -> option json) (stream : bool) (provider : nat -> Reply stream) :
  let thrown := thrownAt parse stream provider in
  let k := finalAttempt thrown maxRetries 0 in
  yields (chatCompletion parse stream provider)
  = flat_map (fun i => fst (tryBody parse stream (provider i))) (seq 0 (S k))
    ++ match thrown k with
       | Some e => [event_error (errorText e)]
       | None => []
       end.
Proof.
  intros thrown k. subst thrown k. unfold chatCompletion, maxRetries.
  cbn [finalAttempt].
  ClientProps.next_attempt parse stream provider 0%nat; [|attempts_so_far..].
  ClientProps.next_attempt parse stream provider 1%nat; [|attempts_so_far..].
  ClientProps.next_attempt parse stream provider 2%nat; [|attempts_so_far..].
  ClientProps.next_attempt parse stream provider 3%nat; attempts_so_far.
Qed.

(** A reply cut after [Hel] and retried: the consumer reads [HelHello]. *)
Example text_of_a_retried_stream :
  textOf (yields (chatCompletion JSON_parse true cut_once)) = "HelHello" /\
  sleeps (chatCompletion JSON_parse true cut_once) = [1000%Z].
Proof. vm_compute. split; reflexivity. Qed.

End StreamProps.

(** ** The registry: lookup order, discovered tools, and what [invoke]
    lets through *)
Module InvokeProps.
Import Json Tools Approval Registry Discovery.
Local Open Scope list_scope.

Lemma string_eqb_decide (a b : string) {A} (x y : A) :
  (if decide (a = b) is left _ then x else y) = if String.eqb a b then x else y.
Proof. destruct (String.eqb_spec a b); destruct (decide (a = b)); congruence. Qed.

(** X22: [get] looks a name up among the registered tools first and among
    the MCP tools second. So a registered tool hides an MCP tool of the
    same name, registering an MCP tool under a taken name changes nothing
    that [get] returns, and unregistering a name uncovers the MCP tool of
    that name instead of making the name unknown. *)
Theorem registered_tools_hide_mcp_tools (reg : ToolRegistry) (tool : Tool)
    (isDiscovered : bool) (nm : string) :
  get (register reg tool isDiscovered) nm
    = (if String.eqb (name tool) nm then Some tool else get reg nm) /\
  get (registerMcpTool reg tool) nm
    = match tools reg !! nm with
      | Some t => Some t
      | None => if String.eqb (name tool) nm then Some tool else mcpTools reg !! nm
      end /\
  get (unregister reg nm) nm = mcpTools reg !! nm /\
  (forall other, other <> nm -> get (unregister reg other) nm = get reg nm).
Proof.
  unfold get, register, registerMcpTool, unregister.
  cbn [tools mcpTools discoveredTools].
  repeat split.
  - rewrite lookup_insert, string_eqb_decide.
    destruct (String.eqb (name tool) nm); reflexivity.
  - rewrite lookup_insert, string_eqb_decide. reflexivity.
  - rewrite lookup_delete_eq. reflexivity.
  - intros other Hne. rewrite lookup_delete_ne by exact Hne. reflexivity.
Qed.

Lemma lookup_foldr_delete (m : gmap string Tool) (names : list string) (nm : string) :
  foldr delete m names !! nm = if bool_decide (nm ∈ names) then None else m !! nm.
Proof.
  induction names as [|n names IH]; [reflexivity|].
  cbn [foldr]. rewrite lookup_delete.
  destruct (decide (n = nm)) as [->|Hne].
  - rewrite bool_decide_eq_true_2 by (left). reflexivity.
  - rewrite IH. destruct (bool_decide (nm ∈ names)) eqn:E.
    + apply bool_decide_eq_true in E.
      rewrite bool_decide_eq_true_2 by (now right). reflexivity.
    + apply bool_decide_eq_false in E.
      rewrite bool_decide_eq_false_2; [reflexivity|].
      intros Hin. apply elem_of_cons in Hin. destruct Hin; congruence.
Qed.

Lemma discovered_names (m : gmap string Tool) (nm : string) :
  bool_decide (nm ∈ map fst (map_to_list m)) = is_some (m !! nm).
Proof.
  destruct (m !! nm) as [t|] eqn:E; cbn [is_some].
  - apply bool_decide_eq_true_2. apply list_elem_of_fmap. exists (nm, t).
    split; [reflexivity|]. now apply elem_of_map_to_list.
  - apply bool_decide_eq_false_2. intros Hin. apply list_elem_of_fmap in Hin.
    destruct Hin as [[k t] [Hk Hin]]. cbn in Hk. subst k.
    apply elem_of_map_to_list in Hin. congruence.
Qed.

Lemma register_all (newTools : list Tool) : forall (reg : ToolRegistry) (nm : string),
  let after := fold_left (fun r tool => register r tool true) newTools reg in
  tools after !! nm
    = match lastNamed nm newTools with Some t => Some t | None => tools reg !! nm end /\
  discoveredTools after !! nm
    = match lastNamed nm newTools with
      | Some t => Some t | None => discoveredTools reg !! nm end /\
  mcpTools after = mcpTools reg.
Proof.
  induction newTools as [|tool rest IH]; intros reg nm; [repeat split|].
  cbn [fold_left]. cbv zeta.
  destruct (IH (register reg tool true) nm) as [Ht [Hd Hm]].
  rewrite Ht, Hd, Hm. unfold lastNamed. cbn [List.filter register tools discoveredTools mcpTools].
  rewrite !lookup_insert, !string_eqb_decide.
  destruct (String.eqb (name tool) nm).
  - rewrite last_cons.
    destruct (last (List.filter (fun t => String.eqb (name t) nm) rest)); repeat split.
  - repeat split.
Qed.

(** X23: after [reloadDiscoveredTools(newTools)] a name resolves to the
    last of the new tools registered under it; with no such tool, a name
    under which a tool had been discovered is gone from the registered
    tools, whatever was registered under it since, and resolves to the
    MCP tool of that name if there is one; any other name resolves as
    before. The discovered tools are exactly the new ones. *)
Theorem reload_replaces_discovered_tools
    (reg : ToolRegistry) (newTools : list Tool) (nm : string) :
  get (reloadDiscoveredTools reg newTools) nm
    = match lastNamed nm newTools with
      | Some tool => Some tool
      | None =>
          if is_some (discoveredTools reg !! nm) then mcpTools reg !! nm
          else get reg nm
      end /\
  discoveredTools (reloadDiscoveredTools reg newTools) !! nm = lastNamed nm newTools.
Proof.
  unfold reloadDiscoveredTools, get.
  destruct (register_all newTools
              (mkToolRegistry
                 (foldr delete (tools reg) (map fst (map_to_list (discoveredTools reg))))
                 (mcpTools reg) ∅) nm) as [Ht [Hd Hm]].
  cbv zeta in Ht, Hd, Hm. rewrite Ht, Hd, Hm.
  cbn [tools mcpTools discoveredTools].
  rewrite lookup_foldr_delete, discovered_names, lookup_empty.
  destruct (lastNamed nm newTools); [split; reflexivity|].
  destruct (is_some (discoveredTools reg !! nm)); split; reflexivity.
Qed.

(** A built-in tool registered again after a plugin of the same name was
    discovered does not survive a reload that no longer finds the plugin. *)
Example reload_removes_reregistered_builtin :
  let reg := register (register empty plugin_tool true) Samples.read_tool false in
  is_some (get reg "read_file") = true /\
  is_some (get (reloadDiscoveredTools reg []) "read_file") = false.
Proof. vm_compute. split; reflexivity. Qed.

(** *** [invoke] *)

(** [invoke] on a known tool with valid parameters, by what the approval
    block does. *)
Lemma invoke_by_gate reg nm params cwd am tool :
  get reg nm = Some tool ->
  validateParams tool params = [] ->
  let invocation := mkToolInvocation params cwd in
  let outcome :=
    match execute tool invocation with
    | Ok result => result
    | Threw e => errorResult ("Internal error: " ++ e) "" [("tool_name", JStr nm)]
    end in
  invoke reg nm params cwd am =
    match approvalGate tool nm params invocation am with
    | (t, Threw e) => (BeforeTool nm params :: t, Threw e)
    | (t, Ok (Some result)) => (BeforeTool nm params :: t, Ok result)
    | (t, Ok None) =>
        (BeforeTool nm params :: t ++ [Execute nm invocation; AfterTool nm params outcome],
         Ok outcome)
    end.
Proof.
  intros Hget Hval. cbv zeta. unfold invoke. rewrite Hget, Hval.
  cbn [List.length Nat.ltb Nat.leb]. unfold fire. rewrite RegistryProps.bind_ok.
  destruct (approvalGate tool nm params (mkToolInvocation params cwd) am)
    as [t [[result|]|e]]; cbn [bind fst snd app ret].
  - now rewrite app_nil_r.
  - destruct (execute tool (mkToolInvocation params cwd)); reflexivity.
  - reflexivity.
Qed.

(** The approval block, case by case. *)
Lemma approvalGate_cases tool nm params inv mgr :
  approvalGate tool nm params inv (Some mgr) =
    match getConfirmation tool inv with
    | Threw e => ([], Threw e)
    | Ok None => ([], Ok None)
    | Ok (Some conf) =>
        match checkApproval mgr (contextOf tool nm params conf) with
        | APPROVED => ([], Ok None)
        | REJECTED =>
            ([AfterTool nm params (errorResult "Operation rejected by safety policy" "" [])],
             Ok (Some (errorResult "Operation rejected by safety policy" "" [])))
        | NEEDS_CONFIRMATION =>
            match requestConfirmation mgr conf with
            | Ok true => ([], Ok None)
            | Ok false =>
                ([AfterTool nm params (errorResult "User rejected the operation" "" [])],
                 Ok (Some (errorResult "User rejected the operation" "" [])))
            | Threw e => ([], Threw e)
            end
        end
    end.
Proof.
  unfold approvalGate, await, contextOf.
  destruct (getConfirmation tool inv) as [[conf|]|e]; try reflexivity.
  rewrite RegistryProps.bind_ok. cbn [fst snd app].
  destruct (checkApproval mgr _); try reflexivity.
  destruct (requestConfirmation mgr conf) as [[|]|e]; reflexivity.
Qed.

(** X24: with an approval manager, the tool's [execute] is reached only
    through the approval gate: the call names a known tool, its
    parameters validate, and the tool asked for no confirmation, or the
    decision was APPROVED, or it was NEEDS_CONFIRMATION and the
    confirmation came back true; and whenever this holds [execute] is
    reached. A rejected or declined call never executes. *)
Theorem execute_only_through_the_gate
    (reg : ToolRegistry) (nm : string) (params : json) (cwd : string)
    (mgr : ApprovalManager) :
  let invocation := mkToolInvocation params cwd in
  In (Execute nm invocation) (fst (invoke reg nm params cwd (Some mgr))) <->
  exists tool, get reg nm = Some tool /\ validateParams tool params = [] /\
    match getConfirmation tool invocation with
    | Ok None => True
    | Ok (Some conf) =>
        checkApproval mgr (contextOf tool nm params conf) = APPROVED \/
        (checkApproval mgr (contextOf tool nm params conf) = NEEDS_CONFIRMATION /\
         requestConfirmation mgr conf = Ok true)
    | Threw _ => False
    end.
Proof.
  cbv zeta.
  destruct (get reg nm) as [tool|] eqn:Hget.
  2:{ unfold invoke. rewrite Hget. cbn.
      split; [intros [H|[]]; discriminate | intros [tool [H _]]; discriminate]. }
  destruct (validateParams tool params) as [|err errs] eqn:Hval.
  2:{ unfold invoke. rewrite Hget, Hval. cbn.
      split; [intros [H|[]]; discriminate | intros [t [Ht [H _]]]].
      injection Ht as <-. congruence. }
  rewrite (invoke_by_gate reg nm params cwd (Some mgr) tool Hget Hval).
  cbv zeta. rewrite approvalGate_cases.
  split.
  - intros Hin. exists tool. split; [reflexivity|]. split; [exact Hval|].
    destruct (getConfirmation tool (mkToolInvocation params cwd)) as [[conf|]|e].
    + destruct (checkApproval mgr (contextOf tool nm params conf)).
      * left. reflexivity.
      * cbn in Hin. destruct Hin as [H|[H|[]]]; discriminate.
      * destruct (requestConfirmation mgr conf) as [[|]|e].
        -- right. split; reflexivity.
        -- cbn in Hin. destruct Hin as [H|[H|[]]]; discriminate.
        -- cbn in Hin. destruct Hin as [H|[]]; discriminate.
    + exact I.
    + cbn in Hin. destruct Hin as [H|[]]; discriminate.
  - intros [t [Ht [_ Hgate]]]. injection Ht as <-.
    destruct (getConfirmation tool (mkToolInvocation params cwd)) as [[conf|]|e].
    + destruct Hgate as [->|[-> ->]]; cbn; right; left; reflexivity.
    + cbn. right. left. reflexivity.
    + contradiction.
Qed.

(** X25: the hooks of one [invoke], by its outcome. When [invoke]
    returns a result, [afterTool] fired once, last, with that result, after
    nothing (unknown tool or invalid parameters), after [beforeTool]
    (refused by approval) or after [beforeTool] and [execute]; an error
    thrown by [execute] is turned into a result. When [invoke] throws,
    [beforeTool] has fired and [afterTool] has not, and the error comes
    from the tool's [getConfirmation] or from the confirmation callback;
    without an approval manager [invoke] never throws. *)
Theorem hooks_by_outcome
    (reg : ToolRegistry) (nm : string) (params : json) (cwd : string)
    (am : option ApprovalManager) :
  let invocation := mkToolInvocation params cwd in
  let trace := fst (invoke reg nm params cwd am) in
  match snd (invoke reg nm params cwd am) with
  | Ok result =>
      trace = [AfterTool nm params result] \/
      trace = [BeforeTool nm params; AfterTool nm params result] \/
      trace = [BeforeTool nm params; Execute nm invocation; AfterTool nm params result]
  | Threw e =>
      trace = [BeforeTool nm params] /\
      exists tool mgr, get reg nm = Some tool /\ am = Some mgr /\
        (getConfirmation tool invocation = Threw e \/
         exists conf, getConfirmation tool invocation = Ok (Some conf) /\
                      requestConfirmation mgr conf = Threw e)
  end.
Proof.
  cbv zeta.
  destruct (get reg nm) as [tool|] eqn:Hget.
  2:{ unfold invoke. rewrite Hget. left. reflexivity. }
  destruct (validateParams tool params) as [|err errs] eqn:Hval.
  2:{ unfold invoke. rewrite Hget, Hval. left. reflexivity. }
  rewrite (invoke_by_gate reg nm params cwd am tool Hget Hval). cbv zeta.
  destruct am as [mgr|]; [|cbn; right; right; reflexivity].
  rewrite approvalGate_cases.
  destruct (getConfirmation tool (mkToolInvocation params cwd)) as [[conf|]|e] eqn:Hconf.
  - destruct (checkApproval mgr (contextOf tool nm params conf)).
    + cbn. right. right. reflexivity.
    + cbn. right. left. reflexivity.
    + destruct (requestConfirmation mgr conf) as [[|]|e] eqn:Hreq.
      * cbn. right. right. reflexivity.
      * cbn. right. left. reflexivity.
      * cbn. split; [reflexivity|]. exists tool, mgr. repeat split.
        right. exists conf. split; assumption.
  - cbn. right. right. reflexivity.
  - cbn. split; [reflexivity|]. exists tool, mgr. repeat split. left. exact Hconf.
Qed.

(** X26: an approval manager without a confirmation callback confirms by
    itself: a call for which the policy engine answers NEEDS_CONFIRMATION
    is executed as if it had been approved, and nobody is asked. *)
Theorem no_callback_means_confirmed
    (reg : ToolRegistry) (nm : string) (params : json) (cwd : string)
    (mgr : ApprovalManager) (tool : Tool) (conf : ToolConfirmation)
    (Hheadless : confirmationCallback mgr = None)
    (Htool : get reg nm = Some tool)
    (Hvalid : validateParams tool params = [])
    (Hconf : getConfirmation tool (mkToolInvocation params cwd) = Ok (Some conf))
    (Hask : checkApproval mgr (contextOf tool nm params conf) = NEEDS_CONFIRMATION) :
  exists result,
    invoke reg nm params cwd (Some mgr)
    = ([BeforeTool nm params; Execute nm (mkToolInvocation params cwd);
        AfterTool nm params result], Ok result).
Proof.
  rewrite (invoke_by_gate reg nm params cwd (Some mgr) tool Htool Hvalid). cbv zeta.
  rewrite approvalGate_cases, Hconf, Hask. unfold requestConfirmation.
  rewrite Hheadless. eexists. reflexivity.
Qed.

Lemma no_callback_means_confirmed_witness :
  exists result,
    invoke Samples.sample_registry "edit" edit_outside "/home/u"
      (Some (Samples.manager ON_REQUEST))
    = ([BeforeTool "edit" edit_outside;
        Execute "edit" (mkToolInvocation edit_outside "/home/u");
        AfterTool "edit" edit_outside result], Ok result).
Proof.
  eapply (no_callback_means_confirmed Samples.sample_registry "edit" edit_outside "/home/u"
            (Samples.manager ON_REQUEST) Samples.edit_tool);
    vm_compute; reflexivity.
Defined.

End InvokeProps.

(** ** Sub-agents: what is read of a nested run *)
Module SupervisionProps.
Import Tools Subagent.
Local Open Scope Z_scope.
Local Open Scope list_scope.

Lemma watch_stops deadline now ev rest pre : forall st,
  deadline < now \/ (exists err, ev = AGENT_ERROR err) ->
  watch deadline (pre ++ (now, ev) :: rest) st = watch deadline (pre ++ [(now, ev)]) st /\
  snd (watch deadline (pre ++ (now, ev) :: rest) st) = true.
Proof.
  intros st Hstop. revert st.
  induction pre as [|[t e] pre IH]; intros st.
  - cbn [app watch]. destruct (Z.ltb_spec deadline now) as [Hlate|Hok]; [split; reflexivity|].
    destruct Hstop as [Hlate|[err ->]]; [lia|]. split; reflexivity.
  - cbn [app watch]. destruct (deadline <? t); [split; reflexivity|].
    destruct e; try apply IH; try (split; reflexivity).
Qed.

(** X27: once an event arrives after the deadline, or an AGENT_ERROR event
    arrives, nothing more is read of the nested run: the events that follow
    and an error of the event stream after that point change nothing in
    the result. (An error thrown while the nested agent is closed still
    does.) *)
Theorem nothing_is_read_after_the_stop
    (def : SubagentDefinition) (goal : string) (begun now : Z) (ev : AgentEvent)
    (pre rest : list (Z * AgentEvent)) (streamError closeError : option string)
    (Hstop : begun + or_number (timeoutSeconds def) 600 * 1000 < now \/
             exists err, ev = AGENT_ERROR err) :
  execute def goal (mkNestedRun None begun (pre ++ (now, ev) :: rest) streamError closeError)
  = execute def goal (mkNestedRun None begun (pre ++ [(now, ev)]) None closeError).
Proof.
  unfold execute, supervise. cbn [startup started arrivals stream_failure close_failure].
  destruct (watch_stops (begun + or_number (timeoutSeconds def) 600 * 1000)
              now ev rest pre initialLocals Hstop) as [Hsame Hbroke].
  destruct (watch_stops (begun + or_number (timeoutSeconds def) 600 * 1000)
              now ev [] pre initialLocals Hstop) as [_ Hbroke'].
  rewrite Hsame in *.
  destruct (watch _ (pre ++ [(now, ev)]) initialLocals) as [st broke].
  cbn [snd] in *. subst broke. reflexivity.
Qed.

Lemma nothing_is_read_after_the_stop_witness :
  execute Samples.investigator "find the parser"
    (mkNestedRun None 0
       ([(5, AGENT_START "task")] ++ (1500, TEXT_COMPLETE "found it")
          :: [(1501, AGENT_END (Some "found it"))])
       (Some "socket closed") None)
  = execute Samples.investigator "find the parser"
      (mkNestedRun None 0 ([(5, AGENT_START "task")] ++ [(1500, TEXT_COMPLETE "found it")])
         None None).
Proof.
  apply (nothing_is_read_after_the_stop Samples.investigator "find the parser" 0 1500
           (TEXT_COMPLETE "found it") [(5, AGENT_START "task")]
           [(1501, AGENT_END (Some "found it"))] (Some "socket closed") None).
  left. vm_compute. reflexivity.
Defined.

Lemma watch_error deadline events : forall st,
  error (fst (watch deadline events st)) = error st \/
  exists now err, In (now, AGENT_ERROR err) events /\ now <= deadline.
Proof.
  induction events as [|[now ev] rest IH]; intros st; [left; reflexivity|].
  cbn [watch]. destruct (Z.ltb_spec deadline now) as [Hlate|Hok]; [left; reflexivity|].
  assert (Hrest : forall st', error st' = error st ->
            error (fst (watch deadline rest st')) = error st \/
            exists now0 err, In (now0, AGENT_ERROR err) ((now, ev) :: rest) /\ now0 <= deadline).
  { intros st' Hst'. destruct (IH st') as [H|[n [e [Hin Hle]]]].
    - left. congruence.
    - right. exists n, e. split; [right; exact Hin|exact Hle]. }
  destruct ev; try (apply Hrest; reflexivity).
  - right. exists now, error0. split; [left; reflexivity|exact Hok].
  - apply Hrest. destruct (finalResponse st); reflexivity.
Qed.

(** X28: a sub-agent call is reported as failed only for one of these
    reasons: no goal was given, the nested agent could not be started,
    its event stream or its closing threw, or an AGENT_ERROR event was
    received within the deadline. A run that times out, or that ends
    without any response, is never reported as failed. *)
Theorem subagent_failure_has_a_cause
    (def : SubagentDefinition) (goal : string) (run : NestedRun)
    (Hfailed : success (execute def goal run) = false) :
  goal = "" \/ startup run <> None \/ stream_failure run <> None \/
  close_failure run <> None \/
  exists now err,
    In (now, AGENT_ERROR err) (arrivals run) /\
    now <= started run + or_number (timeoutSeconds def) 600 * 1000.
Proof.
  rewrite SubagentProps.execute_success in Hfailed.
  destruct (truthy_string goal) eqn:Hgoal.
  2:{ left. destruct goal; [reflexivity|discriminate]. }
  cbn [andb] in Hfailed. apply negb_false_iff in Hfailed.
  unfold supervise in Hfailed.
  destruct (startup run) as [e|]; [right; left; discriminate|].
  destruct (close_failure run) as [e|]; [right; right; right; left; discriminate|].
  destruct (stream_failure run) as [e|]; [right; right; left; discriminate|].
  right. right. right. right.
  destruct (watch_error (started run + or_number (timeoutSeconds def) 600 * 1000)
              (arrivals run) initialLocals) as [Hsame|Hcause]; [|exact Hcause].
  destruct (watch _ (arrivals run) initialLocals) as [st broke]. cbn [fst] in Hsame.
  destruct broke; rewrite Hsame in Hfailed; discriminate.
Qed.

Lemma subagent_failure_has_a_cause_witness :
  exists now err,
    In (now, AGENT_ERROR err) (arrivals Samples.failing_run) /\
    now <= started Samples.failing_run
           + or_number (timeoutSeconds Samples.investigator) 600 * 1000.
Proof.
  destruct (subagent_failure_has_a_cause Samples.investigator "find the parser"
              Samples.failing_run eq_refl) as [H|[H|[H|[H|H]]]].
  - discriminate H.
  - exfalso. apply H. reflexivity.
  - exfalso. apply H. reflexivity.
  - exfalso. apply H. reflexivity.
  - exact H.
Defined.

End SupervisionProps.

(** ** Compaction: when a summary comes back *)
Module CompactionProps.
Import Json Client Context Transcript Compaction.
Local Open Scope list_scope.

Ltac one_attempt_more :=
  repeat match goal with
         | H : thrownAt _ _ _ ?i = _ |- context [thrownAt _ _ _ ?i] => rewrite H
         | H : retryable ?e = _ |- context [retryable ?e] => rewrite H
         end;
  repeat first [ rewrite ClientProps.yields_app | rewrite ClientProps.yields_yielded
               | rewrite StreamProps.yields_sleep | rewrite StreamProps.yields_one ];
  rewrite ?app_nil_r, ?app_nil_l.

Ltac settle_reply H :=
  match type of H with
  | match ?r with _ => _ end =>
      let Hevents := fresh "Hevents" in
      destruct r; destruct H as [? Hevents];
      rewrite ?Hevents; cbn [app]; try congruence
  end.

(** Without streaming, an attempt that fails yields nothing: the events
    are those of the last attempt. *)
Lemma whole_reply_events parse (provider : nat -> Reply false) :
  yields (chatCompletion parse false provider) =
    match provider (finalAttempt (thrownAt parse false provider) maxRetries 0) with
    | inl m => [nonStreamResponse parse m]
    | inr e => [event_error (errorText e)]
    end.
Proof.
  assert (Hbody : forall i,
            match provider i with
            | inl m => thrownAt parse false provider i = None /\
                       fst (tryBody parse false (provider i)) = [nonStreamResponse parse m]
            | inr e => thrownAt parse false provider i = Some e /\
                       fst (tryBody parse false (provider i)) = []
            end).
  { intros i. unfold thrownAt. cbn [tryBody]. destruct (provider i); split; reflexivity. }
  unfold chatCompletion, maxRetries. cbn [finalAttempt].
  pose proof (Hbody 0%nat) as H0. pose proof (Hbody 1%nat) as H1.
  pose proof (Hbody 2%nat) as H2. pose proof (Hbody 3%nat) as H3.
  ClientProps.next_attempt parse false provider 0%nat;
    [|one_attempt_more; settle_reply H0..].
  ClientProps.next_attempt parse false provider 1%nat;
    [|one_attempt_more; settle_reply H0; settle_reply H1..].
  ClientProps.next_attempt parse false provider 2%nat;
    [|one_attempt_more; settle_reply H0; settle_reply H1; settle_reply H2..].
  ClientProps.next_attempt parse false provider 3%nat;
    one_attempt_more; settle_reply H0; settle_reply H1; settle_reply H2; settle_reply H3.
Qed.

(** X29: [compress] gives a summary exactly when the context has at least
    three messages to send (the system prompt counts) and the last attempt
    of the request answers with a non-empty text and a usage record; the
    summary is that text and the usage that record. In every other case,
    an error of the provider after the retries included, it gives
    [null, null]: never one of the two alone. *)
Theorem compress_gives_both_or_nothing
    (parse : string -> option json) (cm : ContextManager)
    (provider : nat -> Reply false) :
  compress parse cm provider =
    if (List.length (getMessages cm) <? 3)%nat then (None, None)
    else
      match provider (finalAttempt (thrownAt parse false provider) maxRetries 0) with
      | inl m =>
          match msg_usage m with
          | Some u =>
              if truthy_opt_string (msg_content m)
              then (msg_content m, Some (usage_of u))
              else (None, None)
          | None => (None, None)
          end
      | inr _ => (None, None)
      end.
Proof.
  unfold compress. destruct (List.length (getMessages cm) <? 3)%nat; [reflexivity|].
  rewrite whole_reply_events.
  destruct (provider (finalAttempt (thrownAt parse false provider) maxRetries 0)) as [m|e];
    [|reflexivity].
  unfold collect, nonStreamResponse. cbn [fold_left collectStep type type_eqb textDelta usage fst].
  unfold truthy_opt_string.
  destruct (msg_content m) as [text|]; [destruct (truthy_string text) eqn:Ht|];
    destruct (msg_usage m) as [u|]; cbn [option_map is_some negb orb truthy_string];
    rewrite ?Ht; try reflexivity.
  all: change ("" ++ text)%string with text; rewrite Ht; reflexivity.
Qed.

(** One rate-limit error, then the summary. *)
Example summary_after_one_retry :
  compress JSON_parse three_messages summary_provider
  = (Some "Goal: fix the parser.", Some (Usage.mkTokenUsage 900 40 940 0)).
Proof. vm_compute. reflexivity. Qed.

End CompactionProps.
